(** * A shallow embedding of the kilo-style text editor (editor.c)

    Rows, the syntax scanner [editorUpdateSyntax], the row operations,
    file load/save and the incremental search callback, translated from the
    C source.  Characters are [ascii]; C [char*] buffers are [list ascii];
    the NUL terminator past the end of a buffer is read through [char_at].
    C [int] indices of rows and columns are non-negative in every call the
    editor makes and are modelled as [nat]; where the C code explicitly
    tests a negative position ([editorRowInsertChar], [editorRowDelChar],
    [editorFindCallback]) the position is a [Z]. *)

From Stdlib Require Import Ascii String List Arith Lia ZArith Bool.
Import ListNotations.

(* ------------------------------------------------------------------ *)
(** ** Characters *)

Definition NUL : ascii := Ascii.zero.
Definition TAB : ascii := ascii_of_nat 9.
Definition DQUOTE : ascii := ascii_of_nat 34.

(** [buf[i]] for a NUL-terminated buffer: index [length buf] holds the
    terminator. *)
Definition char_at (buf : list ascii) (i : nat) : ascii := nth i buf NUL.

Definition c_isspace (c : ascii) : bool :=
  let n := nat_of_ascii c in
  (n =? 32) || ((9 <=? n) && (n <=? 13)).

Definition c_isdigit (c : ascii) : bool :=
  let n := nat_of_ascii c in (48 <=? n) && (n <=? 57).

Definition sep_chars : list ascii := list_ascii_of_string ",.()+-/*=~%<>[];"%string.

(** [is_separator]: [isspace(c) || c == '\0' || strchr(",.()+-/*=~%<>[];", c)] *)
Definition is_separator (c : ascii) : bool :=
  c_isspace c || Ascii.eqb c NUL || existsb (Ascii.eqb c) sep_chars.

(** [strncmp(&buf[i], pat, strlen(pat)) == 0] for a pattern without NUL:
    the pattern is a prefix of the buffer from [i]. *)
Fixpoint prefixb (pat s : list ascii) : bool :=
  match pat, s with
  | [], _ => true
  | p :: pat', c :: s' => Ascii.eqb p c && prefixb pat' s'
  | _ :: _, [] => false
  end.

Definition starts_with (buf : list ascii) (i : nat) (pat : list ascii) : bool :=
  prefixb pat (skipn i buf).

(* ------------------------------------------------------------------ *)
(** ** Highlight classes and syntax descriptors *)

Inductive editorHighlight :=
  HL_NORMAL | HL_COMMENT | HL_MLCOMMENT | HL_KEYWORD1 | HL_KEYWORD2
| HL_STRING | HL_NUMBER | HL_MATCH.

Definition hl_eqb (a b : editorHighlight) : bool :=
  match a, b with
  | HL_NORMAL, HL_NORMAL | HL_COMMENT, HL_COMMENT | HL_MLCOMMENT, HL_MLCOMMENT
  | HL_KEYWORD1, HL_KEYWORD1 | HL_KEYWORD2, HL_KEYWORD2 | HL_STRING, HL_STRING
  | HL_NUMBER, HL_NUMBER | HL_MATCH, HL_MATCH => true
  | _, _ => false
  end.

Definition HL_HIGHLIGHT_NUMBERS : Z := Z.shiftl 1 0.
Definition HL_HIGHLIGHT_STRINGS : Z := Z.shiftl 1 1.

(** [struct editorSyntax]; a NULL marker is the empty list (both give a
    length of 0 in the scanner). *)
Record editorSyntax := mkSyntax {
  filetype : list ascii;
  filematch : list (list ascii);
  keywords : list (list ascii);
  singleline_comment_start : list ascii;
  multiline_comment_start : list ascii;
  multiline_comment_end : list ascii;
  flags : Z
}.

Definition s2l := list_ascii_of_string.

Local Open Scope string_scope.

Definition C_HL_extensions : list (list ascii) := map s2l [".c"; ".h"; ".cpp"].

Definition C_HL_keywords : list (list ascii) :=
  map s2l ["switch"; "if"; "while"; "for"; "break"; "continue"; "return"; "else";
           "struct"; "union"; "typedef"; "static"; "enum"; "class"; "case";
           "int|"; "long|"; "double|"; "float|"; "char|"; "unsigned|"; "signed|";
           "void|"].

Definition C_syntax : editorSyntax :=
  mkSyntax (s2l "c") C_HL_extensions C_HL_keywords (s2l "//") (s2l "/*") (s2l "*/")
           (Z.lor HL_HIGHLIGHT_NUMBERS HL_HIGHLIGHT_STRINGS).

Definition HLDB : list editorSyntax := [C_syntax].

Local Close Scope string_scope.

(* ------------------------------------------------------------------ *)
(** ** Array helpers: [row->hl[i] = v] and [memset(&row->hl[i], v, n)] *)

Fixpoint set_nth {A} (l : list A) (i : nat) (v : A) : list A :=
  match l, i with
  | [], _ => []
  | _ :: l', 0 => v :: l'
  | x :: l', S i' => x :: set_nth l' i' v
  end.

Fixpoint memset {A} (l : list A) (i : nat) (v : A) (n : nat) : list A :=
  match n with
  | 0 => l
  | S n' => memset (set_nth l i v) (S i) v n'
  end.

(* ------------------------------------------------------------------ *)
(** ** The syntax scanner of [editorUpdateSyntax] *)

(** A keyword ending in ['|'] is a type keyword ([kw2]); the ['|'] is not
    part of the text that is matched. *)
Definition kw2 (kw : list ascii) : bool :=
  match rev kw with c :: _ => Ascii.eqb c "|"%char | [] => false end.

Definition kw_text (kw : list ascii) : list ascii :=
  if kw2 kw then firstn (length kw - 1) kw else kw.

(** [!strncmp(&row->render[i], keywords[j], klen) && is_separator(row->render[i + klen])] *)
Definition kw_matches (render : list ascii) (i : nat) (kw : list ascii) : bool :=
  starts_with render i (kw_text kw)
  && is_separator (char_at render (i + length (kw_text kw))).

(** The [for (j = 0; keywords[j]; j++)] loop with its [break]. *)
Fixpoint keyword_loop (render : list ascii) (i : nat) (kws : list (list ascii))
  : option (list ascii) :=
  match kws with
  | [] => None
  | kw :: kws' => if kw_matches render i kw then Some kw else keyword_loop render i kws'
  end.

(** The local variables of the scan loop. *)
Record scan_state := mkScan {
  sc_i : nat;
  sc_prev_sep : bool;
  sc_in_string : option ascii;   (** [in_string]: 0 or the opening quote *)
  sc_in_comment : bool;
  sc_hl : list editorHighlight
}.

(** One iteration of the [while (i < row->rsize)] body: [continue] or [break]. *)
Inductive loop_ctl := Continue (st : scan_state) | Break (st : scan_state).

Section Scanner.
Variable syn : editorSyntax.
Variable rend : list ascii.

Definition flag_set (f : Z) : bool := negb (Z.land (flags syn) f =? 0)%Z.

(** keyword step (when [prev_sep]) and the final [prev_sep = is_separator(c); i++] *)
Definition step_keyword (st : scan_state) : loop_ctl :=
  let i := sc_i st in
  let c := char_at rend i in
  let advance := Continue (mkScan (S i) (is_separator c) (sc_in_string st)
                                  (sc_in_comment st) (sc_hl st)) in
  if sc_prev_sep st then
    match keyword_loop rend i (keywords syn) with
    | Some kw =>
        let klen := length (kw_text kw) in
        Continue (mkScan (i + klen) false (sc_in_string st) (sc_in_comment st)
                    (memset (sc_hl st) i (if kw2 kw then HL_KEYWORD2 else HL_KEYWORD1) klen))
    | None => advance
    end
  else advance.

Definition step_number (st : scan_state) : loop_ctl :=
  let i := sc_i st in
  let c := char_at rend i in
  let prev_hl := if 0 <? i then nth (i - 1) (sc_hl st) HL_NORMAL else HL_NORMAL in
  if flag_set HL_HIGHLIGHT_NUMBERS
     && ((c_isdigit c && (sc_prev_sep st || hl_eqb prev_hl HL_NUMBER))
         || (Ascii.eqb c "."%char && hl_eqb prev_hl HL_NUMBER))
  then Continue (mkScan (S i) false (sc_in_string st) (sc_in_comment st)
                        (set_nth (sc_hl st) i HL_NUMBER))
  else step_keyword st.

Definition step_string (st : scan_state) : loop_ctl :=
  let i := sc_i st in
  let c := char_at rend i in
  if flag_set HL_HIGHLIGHT_STRINGS then
    match sc_in_string st with
    | Some q =>
        let hl1 := set_nth (sc_hl st) i HL_STRING in
        if Ascii.eqb c "\"%char && (S i <? length rend) then
          Continue (mkScan (S (S i)) (sc_prev_sep st) (Some q) (sc_in_comment st)
                           (set_nth hl1 (S i) HL_STRING))
        else
          Continue (mkScan (S i) true (if Ascii.eqb c q then None else Some q)
                           (sc_in_comment st) hl1)
    | None =>
        if Ascii.eqb c DQUOTE || Ascii.eqb c "'"%char then
          Continue (mkScan (S i) (sc_prev_sep st) (Some c) (sc_in_comment st)
                           (set_nth (sc_hl st) i HL_STRING))
        else step_number st
    end
  else step_number st.

Definition scan_step (st : scan_state) : loop_ctl :=
  let i := sc_i st in
  let scs := singleline_comment_start syn in
  let mcs := multiline_comment_start syn in
  let mce := multiline_comment_end syn in
  let not_in_string := match sc_in_string st with None => true | Some _ => false end in
  if (0 <? length scs) && not_in_string && negb (sc_in_comment st)
     && starts_with rend i scs then
    Break (mkScan i (sc_prev_sep st) (sc_in_string st) (sc_in_comment st)
                  (memset (sc_hl st) i HL_COMMENT (length rend - i)))
  else if (0 <? length mcs) && (0 <? length mce) && not_in_string then
    if sc_in_comment st then
      let hl1 := set_nth (sc_hl st) i HL_MLCOMMENT in
      if starts_with rend i mce then
        Continue (mkScan (i + length mce) true (sc_in_string st) false
                         (memset hl1 i HL_MLCOMMENT (length mce)))
      else Continue (mkScan (S i) (sc_prev_sep st) (sc_in_string st) true hl1)
    else if starts_with rend i mcs then
      Continue (mkScan (i + length mcs) (sc_prev_sep st) (sc_in_string st) true
                       (memset (sc_hl st) i HL_MLCOMMENT (length mcs)))
    else step_string st
  else step_string st.

(** The [while] loop, run on fuel; [scan_measure] bounds the iterations. *)
Fixpoint scan_loop (fuel : nat) (st : scan_state) : scan_state :=
  match fuel with
  | 0 => st
  | S f =>
      if sc_i st <? length rend then
        match scan_step st with
        | Continue st' => scan_loop f st'
        | Break st' => st'
        end
      else st
  end.

Definition scan_measure (st : scan_state) : nat :=
  2 * (length rend - sc_i st) + (if sc_prev_sep st then 1 else 0).

(** State at loop entry: [prev_sep = 1], [in_string = 0], [in_comment] seeded,
    [hl] all [HL_NORMAL]. *)
Definition scan_init (seed : bool) : scan_state :=
  mkScan 0 true None seed (repeat HL_NORMAL (length rend)).

Definition scan_row (seed : bool) : scan_state :=
  let st0 := scan_init seed in scan_loop (scan_measure st0) st0.

End Scanner.

(* ------------------------------------------------------------------ *)
(** ** Rows and the editor state *)

Definition KILO_TAB_STOP : nat := 8.

(** [erow]; [size] and [rsize] are the lengths of [chars] and [render]. *)
Record erow := mkRow {
  idx : nat;
  chars : list ascii;
  render : list ascii;
  hl : list editorHighlight;
  hl_open_comment : bool
}.

Definition empty_row : erow := mkRow 0 [] [] [] false.

(** The part of [struct editorConfig] the operations below read or write. *)
Record editorConfig := mkConfig {
  cx : nat;
  cy : nat;
  rowoff : nat;
  coloff : nat;
  numrows : nat;
  row : list erow;
  dirty : nat;
  filename : option (list ascii);
  statusmsg : list ascii;
  syntax : option editorSyntax
}.

Definition row_at (E : editorConfig) (k : nat) : erow := nth k (row E) empty_row.

Definition with_rows (E : editorConfig) (rs : list erow) : editorConfig :=
  mkConfig (cx E) (cy E) (rowoff E) (coloff E) (numrows E) rs (dirty E)
           (filename E) (statusmsg E) (syntax E).
Definition set_row (E : editorConfig) (k : nat) (r : erow) : editorConfig :=
  with_rows E (set_nth (row E) k r).
Definition with_cursor (E : editorConfig) (x y : nat) : editorConfig :=
  mkConfig x y (rowoff E) (coloff E) (numrows E) (row E) (dirty E)
           (filename E) (statusmsg E) (syntax E).
Definition with_counts (E : editorConfig) (n d : nat) : editorConfig :=
  mkConfig (cx E) (cy E) (rowoff E) (coloff E) n (row E) d
           (filename E) (statusmsg E) (syntax E).
Definition with_status (E : editorConfig) (m : list ascii) : editorConfig :=
  mkConfig (cx E) (cy E) (rowoff E) (coloff E) (numrows E) (row E) (dirty E)
           (filename E) m (syntax E).
Definition with_file (E : editorConfig) (f : option (list ascii))
  (s : option editorSyntax) : editorConfig :=
  mkConfig (cx E) (cy E) (rowoff E) (coloff E) (numrows E) (row E) (dirty E)
           f (statusmsg E) s.

Definition with_chars (r : erow) (cs : list ascii) : erow :=
  mkRow (idx r) cs (render r) (hl r) (hl_open_comment r).
Definition with_idx (r : erow) (i : nat) : erow :=
  mkRow i (chars r) (render r) (hl r) (hl_open_comment r).

(** [editorUpdateSyntax(&E.row[k])]: the recursive call on
    [&E.row[row->idx + 1]] is run on fuel. *)
Fixpoint update_syntax_fuel (fuel : nat) (E : editorConfig) (k : nat) : editorConfig :=
  match fuel with
  | 0 => E
  | S f =>
      let r := row_at E k in
      match syntax E with
      | None =>
          set_row E k (mkRow (idx r) (chars r) (render r)
                             (repeat HL_NORMAL (length (render r))) (hl_open_comment r))
      | Some syn =>
          let seed := (0 <? idx r) && hl_open_comment (row_at E (idx r - 1)) in
          let fin := scan_row syn (render r) seed in
          let changed := negb (Bool.eqb (hl_open_comment r) (sc_in_comment fin)) in
          let E1 := set_row E k (mkRow (idx r) (chars r) (render r)
                                       (sc_hl fin) (sc_in_comment fin)) in
          if changed && (S (idx r) <? numrows E)
          then update_syntax_fuel f E1 (S (idx r))
          else E1
      end
  end.

Definition editorUpdateSyntax (E : editorConfig) (k : nat) : editorConfig :=
  update_syntax_fuel (S (numrows E)) E k.

(** The render loop of [editorUpdateRow]: a tab becomes one space and then
    spaces up to the next multiple of [KILO_TAB_STOP]. *)
Fixpoint render_tabs (col : nat) (cs : list ascii) : list ascii :=
  match cs with
  | [] => []
  | c :: cs' =>
      if Ascii.eqb c TAB then
        let w := KILO_TAB_STOP - col mod KILO_TAB_STOP in
        repeat " "%char w ++ render_tabs (col + w) cs'
      else c :: render_tabs (S col) cs'
  end.

Definition editorUpdateRow (E : editorConfig) (k : nat) : editorConfig :=
  let r := row_at E k in
  editorUpdateSyntax
    (set_row E k (mkRow (idx r) (chars r) (render_tabs 0 (chars r)) (hl r) (hl_open_comment r)))
    k.

(** [editorRowCxToRx] *)
Fixpoint cx_to_rx_loop (cs : list ascii) (j n rx : nat) : nat :=
  match n with
  | 0 => rx
  | S n' =>
      let rx1 := if Ascii.eqb (char_at cs j) TAB
                 then rx + ((KILO_TAB_STOP - 1) - rx mod KILO_TAB_STOP) else rx in
      cx_to_rx_loop cs (S j) n' (S rx1)
  end.

Definition editorRowCxToRx (r : erow) (cx : nat) : nat := cx_to_rx_loop (chars r) 0 cx 0.

(** [editorRowRxToCx]: [n] counts the iterations left until [cx == row->size]. *)
Fixpoint rx_to_cx_loop (cs : list ascii) (rx cx n cur_rx : nat) : nat :=
  match n with
  | 0 => cx
  | S n' =>
      let c1 := if Ascii.eqb (char_at cs cx) TAB
                then cur_rx + ((KILO_TAB_STOP - 1) - cur_rx mod KILO_TAB_STOP) else cur_rx in
      if rx <? S c1 then cx else rx_to_cx_loop cs rx (S cx) n' (S c1)
  end.

Definition editorRowRxToCx (r : erow) (rx : nat) : nat :=
  rx_to_cx_loop (chars r) rx 0 (length (chars r)) 0.

(* ------------------------------------------------------------------ *)
(** ** Row operations *)

Definition editorInsertRow (at_ : nat) (s : list ascii) (E : editorConfig) : editorConfig :=
  if numrows E <? at_ then E
  else
    let rs := row E in
    let shifted := map (fun r => with_idx r (S (idx r))) (skipn at_ rs) in
    let E1 := with_rows E (firstn at_ rs ++ mkRow at_ s [] [] false :: shifted) in
    let E2 := editorUpdateRow E1 at_ in
    with_counts E2 (S (numrows E2)) (S (dirty E2)).

Definition editorDelRow (at_ : nat) (E : editorConfig) : editorConfig :=
  if numrows E <=? at_ then E
  else
    let rs := row E in
    let E1 := with_rows E (firstn at_ rs
                           ++ map (fun r => with_idx r (idx r - 1)) (skipn (S at_) rs)) in
    with_counts E1 (numrows E1 - 1) (S (dirty E1)).

Definition editorRowInsertChar (E : editorConfig) (k : nat) (at_ : Z) (c : ascii)
  : editorConfig :=
  let r := row_at E k in
  let size := length (chars r) in
  let a := if (at_ <? 0)%Z || (Z.of_nat size <? at_)%Z then size else Z.to_nat at_ in
  let E1 := editorUpdateRow (set_row E k (with_chars r (firstn a (chars r) ++ c :: skipn a (chars r)))) k in
  with_counts E1 (numrows E1) (S (dirty E1)).

Definition editorRowAppendString (E : editorConfig) (k : nat) (s : list ascii)
  : editorConfig :=
  let r := row_at E k in
  let E1 := editorUpdateRow (set_row E k (with_chars r (chars r ++ s))) k in
  with_counts E1 (numrows E1) (S (dirty E1)).

Definition editorRowDelChar (E : editorConfig) (k : nat) (at_ : Z) : editorConfig :=
  let r := row_at E k in
  let size := length (chars r) in
  if (at_ <? 0)%Z || (Z.of_nat size <=? at_)%Z then E
  else
    let a := Z.to_nat at_ in
    let E1 := editorUpdateRow (set_row E k (with_chars r (firstn a (chars r) ++ skipn (S a) (chars r)))) k in
    with_counts E1 (numrows E1) (S (dirty E1)).

(** [editorInsertNewline] *)
Definition editorInsertNewline (E : editorConfig) : editorConfig :=
  if cx E =? 0 then
    let E1 := editorInsertRow (cy E) [] E in
    with_cursor E1 0 (S (cy E))
  else
    let r := row_at E (cy E) in
    let E1 := editorInsertRow (S (cy E)) (skipn (cx E) (chars r)) E in
    let r1 := row_at E1 (cy E) in
    let E2 := editorUpdateRow (set_row E1 (cy E) (with_chars r1 (firstn (cx E) (chars r1)))) (cy E) in
    with_cursor E2 0 (S (cy E)).

(** [editorDelChar] *)
Definition editorDelChar (E : editorConfig) : editorConfig :=
  if cy E =? numrows E then E
  else if (cx E =? 0) && (cy E =? 0) then E
  else if 0 <? cx E then
    let E1 := editorRowDelChar E (cy E) (Z.of_nat (cx E - 1)) in
    with_cursor E1 (cx E - 1) (cy E)
  else
    let new_cx := length (chars (row_at E (cy E - 1))) in
    let moved := chars (row_at E (cy E)) in
    let E1 := editorRowAppendString (with_cursor E new_cx (cy E)) (cy E - 1) moved in
    let E2 := editorDelRow (cy E) E1 in
    with_cursor E2 (cx E2) (cy E - 1).

(* ------------------------------------------------------------------ *)
(** ** C string helpers *)

(** The C string a buffer denotes: up to its first NUL. *)
Fixpoint c_str (s : list ascii) : list ascii :=
  match s with
  | [] => []
  | c :: s' => if Ascii.eqb c NUL then [] else c :: c_str s'
  end.

Fixpoint strstr_from (h n : list ascii) (i : nat) : option nat :=
  if prefixb n h then Some i
  else match h with
       | [] => None
       | _ :: h' => strstr_from h' n (S i)
       end.

(** [strstr(h, n)]: the offset of the first occurrence, if any. *)
Definition strstr (h n : list ascii) : option nat := strstr_from (c_str h) (c_str n) 0.

(** [editorSetStatusMessage] writes through [vsnprintf] into [char statusmsg[80]]. *)
Definition editorSetStatusMessage (E : editorConfig) (msg : list ascii) : editorConfig :=
  with_status E (firstn 79 msg).

Fixpoint digits_fuel (fuel n : nat) (acc : list ascii) : list ascii :=
  match fuel with
  | 0 => acc
  | S f =>
      let acc' := ascii_of_nat (48 + n mod 10) :: acc in
      if n <? 10 then acc' else digits_fuel f (n / 10) acc'
  end.

(** [%d] of a non-negative [int] *)
Definition fmt_int (n : nat) : list ascii := digits_fuel (S n) n [].

(* ------------------------------------------------------------------ *)
(** ** Filetype selection, load and save *)

Fixpoint filematch_loop (fn : list ascii) (pats : list (list ascii)) : bool :=
  match pats with
  | [] => false
  | pat :: pats' =>
      match strstr fn pat with
      | Some p =>
          if negb (Ascii.eqb (char_at pat 0) "."%char)
             || Ascii.eqb (char_at (c_str fn) (p + length pat)) NUL
          then true else filematch_loop fn pats'
      | None => filematch_loop fn pats'
      end
  end.

Fixpoint hldb_loop (fn : list ascii) (db : list editorSyntax) : option editorSyntax :=
  match db with
  | [] => None
  | s :: db' => if filematch_loop fn (filematch s) then Some s else hldb_loop fn db'
  end.

Definition update_all_rows (E : editorConfig) : editorConfig :=
  fold_left editorUpdateSyntax (seq 0 (numrows E)) E.

(** [editorSelectSyntaxHighlight] *)
Definition editorSelectSyntaxHighlight (E : editorConfig) : editorConfig :=
  match filename E with
  | None => with_file E None None
  | Some fn =>
      match hldb_loop fn HLDB with
      | None => with_file E (Some fn) None
      | Some s => update_all_rows (with_file E (Some fn) (Some s))
      end
  end.

(** [getline]: each line keeps its ['\n']; a last line without one is kept. *)
Fixpoint getlines (cur : list ascii) (s : list ascii) : list (list ascii) :=
  match s with
  | [] => match cur with [] => [] | _ => [rev cur] end
  | c :: s' =>
      if Ascii.eqb c "010"%char then rev (c :: cur) :: getlines [] s'
      else getlines (c :: cur) s'
  end.

Definition is_eol (c : ascii) : bool := Ascii.eqb c "010"%char || Ascii.eqb c "013"%char.

Fixpoint drop_eol (rl : list ascii) : list ascii :=
  match rl with
  | c :: rl' => if is_eol c then drop_eol rl' else rl
  | [] => []
  end.

(** [while (linelen > 0 && (line[linelen-1] == '\n' || line[linelen-1] == '\r')) linelen--;] *)
Definition strip_eol (line : list ascii) : list ascii := rev (drop_eol (rev line)).

Definition initEditor : editorConfig := mkConfig 0 0 0 0 0 [] 0 None [] None.

(** [editorOpen] on a file that opens, with the given content. *)
Definition editorOpen (fname content : list ascii) (E : editorConfig) : editorConfig :=
  let E1 := editorSelectSyntaxHighlight (with_file E (Some fname) (syntax E)) in
  let E2 := fold_left (fun E l => editorInsertRow (numrows E) (strip_eol l) E)
                      (getlines [] content) E1 in
  with_counts E2 (numrows E2) 0.

(** [editorRowsToString]: the buffer and [*buflen]. *)
Definition editorRowsToString (E : editorConfig) : list ascii * nat :=
  let rs := firstn (numrows E) (row E) in
  (concat (map (fun r => chars r ++ ["010"%char]) rs),
   fold_left (fun tot r => tot + (length (chars r) + 1)) rs 0).

(** The outcomes of the system calls [editorSave] makes. *)
Record save_io := mkSaveIO {
  io_prompt : option (list ascii);   (** result of the "Save as" prompt *)
  io_open_ok : bool;                 (** [open] did not return -1 *)
  io_ftruncate_ok : bool;            (** [ftruncate] did not return -1 *)
  io_write_ret : Z;                  (** return value of [write] *)
  io_strerror : list ascii           (** [strerror(errno)] *)
}.

(** [editorSave]: the new state and the [(buf, len)] passed to [write], if
    [write] is reached. *)
Definition editorSave (io : save_io) (E : editorConfig)
  : editorConfig * option (list ascii * nat) :=
  let E1 :=
    match filename E with
    | Some _ => Some E
    | None =>
        match io_prompt io with
        | None => None
        | Some fn => Some (editorSelectSyntaxHighlight (with_file E (Some fn) (syntax E)))
        end
    end in
  match E1 with
  | None => (editorSetStatusMessage E (s2l "Save aborted"), None)
  | Some E1 =>
      let '(buf, len) := editorRowsToString E1 in
      let failed := editorSetStatusMessage E1 (s2l "Can't save! I/O error: " ++ io_strerror io) in
      if io_open_ok io then
        if io_ftruncate_ok io then
          if (io_write_ret io =? Z.of_nat len)%Z then
            (editorSetStatusMessage (with_counts E1 (numrows E1) 0)
               (fmt_int len ++ s2l " bytes written to disk"), Some (buf, len))
          else (failed, Some (buf, len))
        else (failed, None)
      else (failed, None)
  end.

(* ------------------------------------------------------------------ *)
(** ** Incremental search *)

(** Key codes of [enum editorKey] (and ['\r'], ESC). *)
Definition KEY_ENTER : Z := 13.
Definition KEY_ESC : Z := 27.
Definition ARROW_LEFT : Z := 1000.
Definition ARROW_RIGHT : Z := 1001.
Definition ARROW_UP : Z := 1002.
Definition ARROW_DOWN : Z := 1003.

(** The [static] variables of [editorFindCallback]. *)
Record find_state := mkFind {
  last_match : Z;
  direction : Z;
  saved_hl_line : nat;
  saved_hl : option (list editorHighlight)
}.

Definition find_init : find_state := mkFind (-1) 1 0 None.

Definition with_hl (r : erow) (h : list editorHighlight) : erow :=
  mkRow (idx r) (chars r) (render r) h (hl_open_comment r).

(** [for (i = 0; i < E.numrows; i++) { current += direction; wrap; strstr }]:
    the matching row and the offset of the match in its render. *)
Fixpoint find_loop (E : editorConfig) (query : list ascii) (dir current : Z) (n : nat)
  : option (Z * nat) :=
  match n with
  | 0 => None
  | S n' =>
      let c1 := (current + dir)%Z in
      let c2 := if (c1 =? -1)%Z then (Z.of_nat (numrows E) - 1)%Z
                else if (c1 =? Z.of_nat (numrows E))%Z then 0%Z else c1 in
      match strstr (render (row_at E (Z.to_nat c2))) query with
      | Some off => Some (c2, off)
      | None => find_loop E query dir c2 n'
      end
  end.

(** [editorFindCallback(query, key)] *)
Definition editorFindCallback (fs : find_state) (E : editorConfig) (query : list ascii)
  (key : Z) : find_state * editorConfig :=
  let E0 :=
    match saved_hl fs with
    | Some h =>
        let r := row_at E (saved_hl_line fs) in
        let n := length (render r) in
        set_row E (saved_hl_line fs) (with_hl r (firstn n h ++ skipn n (hl r)))
    | None => E
    end in
  if (key =? KEY_ENTER)%Z || (key =? KEY_ESC)%Z then
    (mkFind (-1) 1 (saved_hl_line fs) None, E0)
  else
    let '(lm, dir) :=
      if (key =? ARROW_RIGHT)%Z || (key =? ARROW_DOWN)%Z then (last_match fs, 1%Z)
      else if (key =? ARROW_LEFT)%Z || (key =? ARROW_UP)%Z then (last_match fs, (-1)%Z)
      else ((-1)%Z, 1%Z) in
    let dir := if (lm =? -1)%Z then 1%Z else dir in
    match find_loop E0 query dir lm (numrows E0) with
    | Some (cur, off) =>
        let k := Z.to_nat cur in
        let r := row_at E0 k in
        let E1 := mkConfig (editorRowRxToCx r off) k (numrows E0) (coloff E0) (numrows E0)
                    (row E0) (dirty E0) (filename E0) (statusmsg E0) (syntax E0) in
        (mkFind cur dir k (Some (hl r)),
         set_row E1 k (with_hl r (memset (hl r) off HL_MATCH (length (c_str query)))))
    | None => (mkFind lm dir (saved_hl_line fs) None, E0)
    end.

(* ------------------------------------------------------------------ *)
(** ** Concrete documents used by the examples *)

Local Open Scope string_scope.

Definition CR : string := String (ascii_of_nat 13) EmptyString.
Definition LF : string := String (ascii_of_nat 10) EmptyString.

(** A fresh editor that opened a file with the given name and content. *)
Definition opened (fname content : string) : editorConfig :=
  editorOpen (s2l fname) (s2l content) initEditor.

(** The file content ["a\r\nb\n"]. *)
Definition crlf_sample : list ascii := s2l ("a" ++ CR ++ LF ++ "b" ++ LF).

(** The document whose rows render as "foo", "bar foo" and "baz". *)
Definition search_doc : editorConfig :=
  opened "find.txt" ("foo" ++ LF ++ "bar foo" ++ LF ++ "baz" ++ LF).

Definition query_foo : list ascii := s2l "foo".
Definition comment_doc : editorConfig :=
  opened "main.c" ("/* a" ++ LF ++ "b" ++ LF ++ "c" ++ LF).
Definition split_doc : editorConfig :=
  opened "main.c" ("// /*" ++ LF ++ "c" ++ LF).

Local Close Scope string_scope.

(** The rows a search visits, in order: [n] steps of [dir] from [lm],
    taken modulo [n]. *)
Definition search_order (n : nat) (lm dir : Z) : list Z :=
  map (fun t => ((lm + dir * Z.of_nat t) mod Z.of_nat n)%Z) (seq 1 n).

(** The first of the rows [cs] whose render contains the query. *)
Fixpoint first_match (E : editorConfig) (query : list ascii) (cs : list Z)
  : option (Z * nat) :=
  match cs with
  | [] => None
  | c :: cs' =>
      match strstr (render (row_at E (Z.to_nat c))) query with
      | Some off => Some (c, off)
      | None => first_match E query cs'
      end
  end.

(** Row [j] of [E] recomputed by the scanner of [syn] with the given seed. *)
Definition rescanned (syn : editorSyntax) (E : editorConfig) (j : nat) (seed : bool) : erow :=
  let fin := scan_row syn (render (row_at E j)) seed in
  mkRow j (chars (row_at E j)) (render (row_at E j)) (sc_hl fin) (sc_in_comment fin).

(** [E'] is [E] after recomputing rows [k .. m], row by row, each seeded
    by the new flag of the row above; rows [k .. m-1] changed their
    [hl_open_comment] and row [m] did not, unless it is the last row. *)
Definition cascade_result (syn : editorSyntax) (E E' : editorConfig) (k m : nat) : Prop :=
  k <= m < numrows E /\
  numrows E' = numrows E /\ length (row E') = length (row E) /\
  (forall j, j < k \/ m < j -> row_at E' j = row_at E j) /\
  (forall j, k <= j <= m ->
     row_at E' j = rescanned syn E j ((0 <? j) && hl_open_comment (row_at E' (j - 1)))) /\
  (forall j, k <= j < m -> hl_open_comment (row_at E' j) <> hl_open_comment (row_at E j)) /\
  (S m < numrows E -> hl_open_comment (row_at E' m) = hl_open_comment (row_at E m)).

(** The states the [while] loop of the scanner passes through on a row. *)
Inductive scan_reach (syn : editorSyntax) (rend : list ascii) (seed : bool)
  : scan_state -> Prop :=
| reach_init : scan_reach syn rend seed (scan_init rend seed)
| reach_step st st' :
    scan_reach syn rend seed st -> sc_i st < length rend ->
    scan_step syn rend st = Continue st' -> scan_reach syn rend seed st'.

(** What the scanner knows when [prev_sep] is set outside strings and
    comments: the position is the row start, or follows a separator, a
    closing quote, or the end marker of a multi-line comment. *)
Definition prev_sep_inv (syn : editorSyntax) (rend : list ascii) (st : scan_state) : Prop :=
  (sc_in_string st = None \/ sc_in_string st = Some DQUOTE \/ sc_in_string st = Some "'"%char) /\
  (sc_prev_sep st = true -> sc_in_string st = None -> sc_in_comment st = false ->
   sc_i st = 0 \/ is_separator (char_at rend (sc_i st - 1)) = true \/
   char_at rend (sc_i st - 1) = DQUOTE \/ char_at rend (sc_i st - 1) = "'"%char \/
   (0 < length (multiline_comment_end syn) /\ length (multiline_comment_end syn) <= sc_i st /\
    starts_with rend (sc_i st - length (multiline_comment_end syn)) (multiline_comment_end syn) = true)).

(* ------------------------------------------------------------------ *)
(** ** Views of the editor state used by the statements *)

(** A document as the editor keeps it: [numrows] rows, each knowing its index. *)
Definition doc_wf (E : editorConfig) : Prop :=
  length (row E) = numrows E /\ forall j, j < numrows E -> idx (row_at E j) = j.

Definition chars_of (E : editorConfig) : list (list ascii) := map chars (row E).

(** The fields of the state that highlighting never writes. *)
Definition frame (E : editorConfig) :=
  (cx E, cy E, rowoff E, coloff E, numrows E, dirty E, filename E, statusmsg E, syntax E,
   map (fun r => (idx r, chars r, render r)) (row E)).

(** The part of the state the row operations change: cursor, counters and
    the characters of every row. *)
Definition core (E : editorConfig) := (cx E, cy E, numrows E, dirty E, chars_of E).

(* ------------------------------------------------------------------ *)
(** ** Keys, cursor movement and scrolling *)

(** The remaining codes of [enum editorKey], and [CTRL_KEY(k) = k & 0x1f]. *)
Definition BACKSPACE : Z := 127.
Definition DEL_KEY : Z := 1004.
Definition HOME_KEY : Z := 1005.
Definition END_KEY : Z := 1006.
Definition PAGE_UP : Z := 1007.
Definition PAGE_DOWN : Z := 1008.
Definition CTRL_KEY (k : Z) : Z := Z.land k 31.
Definition KILO_QUIT_TIMES : nat := 3.

(** The [char] an [int] is stored as: its low 8 bits. *)
Definition int_to_char (c : Z) : ascii := ascii_of_nat (Z.to_nat (c mod 256)).

(** [editorInsertChar(c)]; [editorRowInsertChar] stores the key as a [char]. *)
Definition editorInsertChar (E : editorConfig) (c : ascii) : editorConfig :=
  let E1 := if cy E =? numrows E then editorInsertRow (numrows E) [] E else E in
  let E2 := editorRowInsertChar E1 (cy E1) (Z.of_nat (cx E1)) c in
  with_cursor E2 (S (cx E2)) (cy E2).

(** [editorMoveCursor(key)]; [row->size] is the length of [chars]. *)
Definition editorMoveCursor (E : editorConfig) (key : Z) : editorConfig :=
  let has_row := cy E <? numrows E in
  let size := length (chars (row_at E (cy E))) in
  let '(x, y) :=
    if (key =? ARROW_LEFT)%Z then
      if negb (cx E =? 0) then (cx E - 1, cy E)
      else if 0 <? cy E then (length (chars (row_at E (cy E - 1))), cy E - 1)
      else (cx E, cy E)
    else if (key =? ARROW_RIGHT)%Z then
      if has_row && (cx E <? size) then (S (cx E), cy E)
      else if has_row && (cx E =? size) then (0, S (cy E))
      else (cx E, cy E)
    else if (key =? ARROW_UP)%Z then
      if negb (cy E =? 0) then (cx E, cy E - 1) else (cx E, cy E)
    else if (key =? ARROW_DOWN)%Z then
      if cy E <? numrows E then (cx E, S (cy E)) else (cx E, cy E)
    else (cx E, cy E) in
  let rowlen := if y <? numrows E then length (chars (row_at E y)) else 0 in
  with_cursor E (if rowlen <? x then rowlen else x) y.

Definition with_view (E : editorConfig) (x y ro co : nat) : editorConfig :=
  mkConfig x y ro co (numrows E) (row E) (dirty E) (filename E) (statusmsg E) (syntax E).

(** [editorScroll()]: the new [E.rx] and state.  The screen size is taken
    as non-negative. *)
Definition editorScroll (screenrows screencols : nat) (E : editorConfig) : nat * editorConfig :=
  let rx := if cy E <? numrows E then editorRowCxToRx (row_at E (cy E)) (cx E) else 0 in
  let ro1 := if cy E <? rowoff E then cy E else rowoff E in
  let ro2 := if ro1 + screenrows <=? cy E then cy E - screenrows + 1 else ro1 in
  let co1 := if rx <? coloff E then rx else coloff E in
  let co2 := if co1 + screencols <=? rx then rx - screencols + 1 else co1 in
  (rx, with_view E (cx E) (cy E) ro2 co2).

(** The state [editorRefreshScreen()] leaves: that of [editorScroll()]; the
    rest of it only writes to the terminal. *)
Definition editorRefreshScreen (screenrows screencols : nat) (E : editorConfig) : editorConfig :=
  snd (editorScroll screenrows screencols E).

(* ------------------------------------------------------------------ *)
(** ** The prompt *)

(** [iscntrl] in the C locale, on the values [editorReadKey] returns. *)
Definition c_iscntrl (c : Z) : bool := (((0 <=? c) && (c <? 32)) || (c =? 127))%Z.

(** How [editorPrompt] ends: it returned (with [buf] or [NULL]), the
    callback state, the editor state and the keys not read; or it is still
    waiting for a key. *)
Inductive prompt_outcome (A : Type) : Type :=
| Prompt_done (res : option (list ascii)) (a : A) (E : editorConfig) (rest : list Z)
| Prompt_waiting (buf : list ascii) (a : A) (E : editorConfig).
Arguments Prompt_done {A}.
Arguments Prompt_waiting {A}.

Section Prompt.
Variable A : Type.
Variables screenrows screencols : nat.
(** The format [prompt] is [prompt_pre ++ "%s" ++ prompt_post]. *)
Variables prompt_pre prompt_post : list ascii.
(** The callback, with the state of its [static] variables. *)
Variable callback : option (A -> editorConfig -> list ascii -> Z -> A * editorConfig).

Definition run_callback (a : A) (E : editorConfig) (buf : list ascii) (c : Z)
  : A * editorConfig :=
  match callback with Some f => f a E buf c | None => (a, E) end.

(** The [while (1)] loop of [editorPrompt] on the keys [editorReadKey]
    returns. *)
Fixpoint prompt_loop (keys : list Z) (buf : list ascii) (a : A) (E : editorConfig)
  : prompt_outcome A :=
  let E := editorRefreshScreen screenrows screencols
             (editorSetStatusMessage E (prompt_pre ++ buf ++ prompt_post)) in
  match keys with
  | [] => Prompt_waiting buf a E
  | c :: ks =>
      if (c =? DEL_KEY)%Z || (c =? CTRL_KEY 104)%Z || (c =? BACKSPACE)%Z then
        let buf' := removelast buf in
        let '(a', E') := run_callback a E buf' c in prompt_loop ks buf' a' E'
      else if (c =? KEY_ESC)%Z then
        let '(a', E') := run_callback a (editorSetStatusMessage E []) buf c in
        Prompt_done None a' E' ks
      else if (c =? KEY_ENTER)%Z then
        if negb (length buf =? 0) then
          let '(a', E') := run_callback a (editorSetStatusMessage E []) buf c in
          Prompt_done (Some buf) a' E' ks
        else
          let '(a', E') := run_callback a E buf c in prompt_loop ks buf a' E'
      else if negb (c_iscntrl c) && (c <? 128)%Z then
        let buf' := buf ++ [int_to_char c] in
        let '(a', E') := run_callback a E buf' c in prompt_loop ks buf' a' E'
      else
        let '(a', E') := run_callback a E buf c in prompt_loop ks buf a' E'
  end.

Definition editorPrompt (keys : list Z) (a : A) (E : editorConfig) : prompt_outcome A :=
  prompt_loop keys [] a E.

End Prompt.

Arguments run_callback {A}.
Arguments prompt_loop {A}.
Arguments editorPrompt {A}.

(** The part of [editorFindCallback] that puts the saved [hl] back. *)
Definition find_restore (fs : find_state) (E : editorConfig) : editorConfig :=
  match saved_hl fs with
  | Some h =>
      let r := row_at E (saved_hl_line fs) in
      let n := length (render r) in
      set_row E (saved_hl_line fs) (with_hl r (firstn n h ++ skipn n (hl r)))
  | None => E
  end.

Local Open Scope string_scope.
Definition search_prompt_pre : list ascii := s2l "Search: ".
Definition search_prompt_post : list ascii := s2l " (Use ESC/Arrows/Enter)".
Definition save_prompt_pre : list ascii := s2l "Save as: ".
Definition save_prompt_post : list ascii := s2l " (ESC to cancel)".
Definition quit_warning_pre : list ascii :=
  s2l "WARNING!!! File has unsaved changes. Press Ctrl-Q ".
Definition quit_warning_post : list ascii := s2l " more times to quit.".
Local Close Scope string_scope.

(** [editorFind()]: the prompt with [editorFindCallback]; on [NULL] the
    saved cursor and offsets are put back. *)
Definition editorFind (screenrows screencols : nat) (fs : find_state) (E : editorConfig)
  (keys : list Z) : prompt_outcome find_state :=
  match editorPrompt screenrows screencols search_prompt_pre search_prompt_post
          (Some editorFindCallback) keys fs E with
  | Prompt_done None fs' E' rest =>
      Prompt_done None fs' (with_view E' (cx E) (cy E) (rowoff E) (coloff E)) rest
  | o => o
  end.

(* ------------------------------------------------------------------ *)
(** ** Reading keys *)

(** [char c] is signed: [return c] gives a byte of 128 or more as a
    negative [int]. *)
Definition signed_char (b : ascii) : Z :=
  let n := Z.of_nat (nat_of_ascii b) in if (n <? 128)%Z then n else (n - 256)%Z.

(** [editorReadKey()] on the bytes [inp] available on standard input, a
    [read] past them timing out: the key and the bytes left, or [None] when
    the first [read] would wait. *)
Definition editorReadKey (inp : list ascii) : option (Z * list ascii) :=
  match inp with
  | [] => None
  | c :: r =>
      if Ascii.eqb c "027"%char then
        match r with
        | [] => Some (KEY_ESC, [])
        | s0 :: r1 =>
            match r1 with
            | [] => Some (KEY_ESC, [])
            | s1 :: r2 =>
                if Ascii.eqb s0 "["%char then
                  if c_isdigit s1 then
                    match r2 with
                    | [] => Some (KEY_ESC, [])
                    | s2 :: r3 =>
                        if Ascii.eqb s2 "~"%char then
                          if Ascii.eqb s1 "1"%char then Some (HOME_KEY, r3)
                          else if Ascii.eqb s1 "3"%char then Some (DEL_KEY, r3)
                          else if Ascii.eqb s1 "4"%char then Some (END_KEY, r3)
                          else if Ascii.eqb s1 "5"%char then Some (PAGE_UP, r3)
                          else if Ascii.eqb s1 "6"%char then Some (PAGE_DOWN, r3)
                          else if Ascii.eqb s1 "7"%char then Some (HOME_KEY, r3)
                          else if Ascii.eqb s1 "8"%char then Some (END_KEY, r3)
                          else Some (KEY_ESC, r3)
                        else Some (KEY_ESC, r3)
                    end
                  else if Ascii.eqb s1 "A"%char then Some (ARROW_UP, r2)
                  else if Ascii.eqb s1 "B"%char then Some (ARROW_DOWN, r2)
                  else if Ascii.eqb s1 "C"%char then Some (ARROW_RIGHT, r2)
                  else if Ascii.eqb s1 "D"%char then Some (ARROW_LEFT, r2)
                  else if Ascii.eqb s1 "H"%char then Some (HOME_KEY, r2)
                  else if Ascii.eqb s1 "F"%char then Some (END_KEY, r2)
                  else Some (KEY_ESC, r2)
                else if Ascii.eqb s0 "O"%char then
                  if Ascii.eqb s1 "H"%char then Some (HOME_KEY, r2)
                  else if Ascii.eqb s1 "F"%char then Some (END_KEY, r2)
                  else Some (KEY_ESC, r2)
                else Some (KEY_ESC, r2)
            end
        end
      else Some (signed_char c, r)
  end.

(* ------------------------------------------------------------------ *)
(** ** Key processing *)

(** How [editorProcessKeypress()] ends: [exit(0)], waiting for a key (also
    inside a prompt), or returned with the [static quit_times], the state of
    the search callback, the editor state and the keys left. *)
Inductive kp_outcome :=
| KP_exit
| KP_waiting
| KP_next (quit_times : nat) (fs : find_state) (E : editorConfig) (rest : list Z).

Section Keypress.
(** The screen size, taken as at least 1 by [PAGE_DOWN] (with 0 rows the
    code sets [E.cy] to -1). *)
Variables screenrows screencols : nat.
(** The outcomes of [open], [ftruncate], [write] and [strerror] when
    saving; the file name comes from the prompt. *)
Variable sys : save_io.

(** [editorSave()], with the "Save as" prompt reading the keys. *)
Definition save_keys (E : editorConfig) (keys : list Z) : option (editorConfig * list Z) :=
  match filename E with
  | Some _ => Some (fst (editorSave sys E), keys)
  | None =>
      match editorPrompt screenrows screencols save_prompt_pre save_prompt_post
              (@None (unit -> editorConfig -> list ascii -> Z -> unit * editorConfig))
              keys tt E with
      | Prompt_done res _ E1 rest =>
          Some (fst (editorSave (mkSaveIO res (io_open_ok sys) (io_ftruncate_ok sys)
                                   (io_write_ret sys) (io_strerror sys)) E1), rest)
      | Prompt_waiting _ _ _ => None
      end
  end.

(** [editorProcessKeypress()] *)
Definition editorProcessKeypress (quit_times : nat) (fs : find_state) (E : editorConfig)
  (keys : list Z) : kp_outcome :=
  match keys with
  | [] => KP_waiting
  | c :: ks =>
      let next fs' E' ks' := KP_next KILO_QUIT_TIMES fs' E' ks' in
      if (c =? KEY_ENTER)%Z then next fs (editorInsertNewline E) ks
      else if (c =? CTRL_KEY 113)%Z then
        if negb (dirty E =? 0) && (0 <? quit_times) then
          KP_next (quit_times - 1) fs
            (editorSetStatusMessage E (quit_warning_pre ++ fmt_int quit_times ++ quit_warning_post))
            ks
        else KP_exit
      else if (c =? CTRL_KEY 115)%Z then
        match save_keys E ks with
        | Some (E', ks') => next fs E' ks'
        | None => KP_waiting
        end
      else if (c =? HOME_KEY)%Z then next fs (with_cursor E 0 (cy E)) ks
      else if (c =? END_KEY)%Z then
        next fs (if cy E <? numrows E
                 then with_cursor E (length (chars (row_at E (cy E)))) (cy E) else E) ks
      else if (c =? CTRL_KEY 102)%Z then
        match editorFind screenrows screencols fs E ks with
        | Prompt_done _ fs' E' ks' => next fs' E' ks'
        | Prompt_waiting _ _ _ => KP_waiting
        end
      else if (c =? BACKSPACE)%Z || (c =? CTRL_KEY 104)%Z || (c =? DEL_KEY)%Z then
        let E1 := if (c =? DEL_KEY)%Z then editorMoveCursor E ARROW_RIGHT else E in
        next fs (editorDelChar E1) ks
      else if (c =? PAGE_UP)%Z || (c =? PAGE_DOWN)%Z then
        let E1 :=
          if (c =? PAGE_UP)%Z then with_cursor E (cx E) (rowoff E)
          else let y := rowoff E + screenrows - 1 in
               with_cursor E (cx E) (if numrows E <? y then numrows E else y) in
        let dir := if (c =? PAGE_UP)%Z then ARROW_UP else ARROW_DOWN in
        next fs (Nat.iter screenrows (fun E' => editorMoveCursor E' dir) E1) ks
      else if (c =? ARROW_UP)%Z || (c =? ARROW_DOWN)%Z || (c =? ARROW_LEFT)%Z
              || (c =? ARROW_RIGHT)%Z then next fs (editorMoveCursor E c) ks
      else if (c =? CTRL_KEY 108)%Z || (c =? KEY_ESC)%Z then next fs E ks
      else next fs (editorInsertChar E (int_to_char c)) ks
  end.

(** [while (1) { editorRefreshScreen(); editorProcessKeypress(); }] for at
    most [fuel] iterations. *)
Fixpoint main_loop (fuel : nat) (quit_times : nat) (fs : find_state) (E : editorConfig)
  (keys : list Z) : kp_outcome :=
  match fuel with
  | 0 => KP_next quit_times fs E keys
  | S f =>
      match editorProcessKeypress quit_times fs (editorRefreshScreen screenrows screencols E) keys with
      | KP_next qt' fs' E' ks' => main_loop f qt' fs' E' ks'
      | o => o
      end
  end.

End Keypress.

(* ------------------------------------------------------------------ *)
(** ** The status bar *)

(** [while (len < E.screencols) { if (E.screencols - len == rlen) { append
    rstatus; break; } append " "; len++; }] *)
Fixpoint status_pad (fuel len cols : nat) (rstatus : list ascii) : list ascii :=
  match fuel with
  | 0 => []
  | S f =>
      if len <? cols then
        if cols - len =? length rstatus then rstatus
        else " "%char :: status_pad f (S len) cols rstatus
      else []
  end.

Local Open Scope string_scope.
(** [snprintf(status, 80, "%.20s - %d lines %s", ...)]: at most
    20 + 3 + 10 + 7 + 10 characters, so never cut at 80. *)
Definition status_left (E : editorConfig) : list ascii :=
  firstn 20 (match filename E with Some f => c_str f | None => s2l "[No Name]" end)
  ++ s2l " - " ++ fmt_int (numrows E) ++ s2l " lines "
  ++ (if Nat.eqb (dirty E) 0 then [] else s2l "(modified)").

(** [snprintf(rstatus, 80, "%s | %d/%d", ...)] *)
Definition status_right (E : editorConfig) : list ascii :=
  (match syntax E with Some s => c_str (filetype s) | None => s2l "no ft" end)
  ++ s2l " | " ++ fmt_int (S (cy E)) ++ s2l "/" ++ fmt_int (numrows E).

(** [editorDrawStatusBar]: the bytes appended to the buffer. *)
Definition editorDrawStatusBar (screencols : nat) (E : editorConfig) : list ascii :=
  let status := status_left E in
  let rstatus := status_right E in
  let len := if Nat.ltb screencols (length status) then screencols else length status in
  (["027"%char] ++ s2l "[7m") ++ firstn len status
  ++ status_pad screencols len screencols rstatus
  ++ (["027"%char] ++ s2l "[m") ++ s2l (CR ++ LF).
Local Close Scope string_scope.



(* ------------------------------------------------------------------ *)
(** ** Drawing the text area *)

Definition KILO_VERSION : list ascii := s2l "0.0.1".

(** [editorSyntaxToColor] *)
Definition editorSyntaxToColor (h : editorHighlight) : nat :=
  match h with
  | HL_COMMENT | HL_MLCOMMENT => 36
  | HL_KEYWORD1 => 33
  | HL_KEYWORD2 => 32
  | HL_STRING => 35
  | HL_NUMBER => 31
  | HL_MATCH => 34
  | HL_NORMAL => 37
  end.

(** [iscntrl(c[j])] on a [char] of the render, which is signed. *)
Definition char_iscntrl (c : ascii) : bool := c_iscntrl (signed_char c).

(** [(c[j] <= 26) ? '@' + c[j] : '?'] for a control character. *)
Definition cntrl_sym (c : ascii) : ascii :=
  if nat_of_ascii c <=? 26 then ascii_of_nat (64 + nat_of_ascii c) else "?"%char.

(** [snprintf(buf, sizeof(buf), "\x1b[%dm", color)] *)
Definition esc_color (color : nat) : list ascii := "027"%char :: s2l "[" ++ fmt_int color ++ s2l "m".

(** The [for (j = 0; j < len; j++)] loop of [editorDrawRows] on the
    characters [c[j]] and highlights [hl[j]] of the visible part of a row;
    [current_color] is [None] for [-1].  A highlight array shorter than the
    render (which [editorUpdateSyntax] never leaves) is read as
    [HL_NORMAL] past its end. *)
Fixpoint draw_chars (cs : list ascii) (hs : list editorHighlight) (current_color : option nat)
  : list ascii :=
  match cs with
  | [] => []
  | c :: cs' =>
      let h := hd HL_NORMAL hs in
      let hs' := tl hs in
      if char_iscntrl c then
        ("027"%char :: s2l "[7m") ++ [cntrl_sym c] ++ ("027"%char :: s2l "[m")
        ++ (match current_color with Some col => esc_color col | None => [] end)
        ++ draw_chars cs' hs' current_color
      else if hl_eqb h HL_NORMAL then
        (match current_color with Some _ => "027"%char :: s2l "[39m" | None => [] end)
        ++ c :: draw_chars cs' hs' None
      else
        let color := editorSyntaxToColor h in
        (match current_color with
         | Some col => if col =? color then [] else esc_color color
         | None => esc_color color
         end)
        ++ c :: draw_chars cs' hs' (Some color)
  end.

Local Open Scope string_scope.
Definition welcome_msg : list ascii := s2l "Kilo editor -- version " ++ KILO_VERSION.
Local Close Scope string_scope.

(** The welcome line, centred. *)
Definition draw_welcome (screencols : nat) : list ascii :=
  let welcomelen := if Nat.ltb screencols (length welcome_msg) then screencols
                    else length welcome_msg in
  let padding := (screencols - welcomelen) / 2 in
  (if Nat.eqb padding 0 then [] else "~"%char :: repeat " "%char (padding - 1))
  ++ firstn welcomelen welcome_msg.

(** One screen line [y] of [editorDrawRows], before ["\x1b[K\r\n"]. *)
Definition draw_row (screenrows screencols : nat) (E : editorConfig) (y : nat) : list ascii :=
  let filerow := y + rowoff E in
  if Nat.leb (numrows E) filerow then
    if Nat.eqb (numrows E) 0 && Nat.eqb y (screenrows / 3) then draw_welcome screencols
    else ["~"%char]
  else
    let r := row_at E filerow in
    let len0 := length (render r) - coloff E in
    let len := if Nat.ltb screencols len0 then screencols else len0 in
    draw_chars (firstn len (skipn (coloff E) (render r))) (skipn (coloff E) (hl r)) None
    ++ ("027"%char :: s2l "[39m").

(** [editorDrawRows] *)
Definition editorDrawRows (screenrows screencols : nat) (E : editorConfig) : list ascii :=
  concat (map (fun y => draw_row screenrows screencols E y
                        ++ ("027"%char :: s2l "[K") ++ s2l (CR ++ LF)%string)
              (seq 0 screenrows)).

(** What a terminal shows of a byte stream made of text and of escape
    sequences [ESC '[' ... letter]: the text, without the sequences. *)
Definition is_letter (c : ascii) : bool :=
  let n := nat_of_ascii c in ((65 <=? n) && (n <=? 90)) || ((97 <=? n) && (n <=? 122)).

Fixpoint strip_esc (in_esc : bool) (s : list ascii) : list ascii :=
  match s with
  | [] => []
  | c :: s' =>
      if in_esc then (if is_letter c then strip_esc false s' else strip_esc true s')
      else if Ascii.eqb c "027"%char then strip_esc true s'
      else c :: strip_esc false s'
  end.

(** How a character of the render appears on the screen. *)
Definition shown (c : ascii) : ascii := if char_iscntrl c then cntrl_sym c else c.

(** The cursor is on a row or on the line after the last one, and not past
    the end of its row. *)
Definition cursor_ok (E : editorConfig) : Prop :=
  cy E <= numrows E /\
  cx E <= (if cy E <? numrows E then length (chars (row_at E (cy E))) else 0).

(** No byte of the buffer is a control character ([iscntrl]). *)
Definition no_control (buf : list ascii) : Prop :=
  Forall (fun ch => 32 <= nat_of_ascii ch /\ nat_of_ascii ch <> 127) buf.

(** What a pending search keeps of the document: once the saved [hl] is put
    back, the rows are those of [Eo]; the other fields of the document are
    those of [Eo]. *)
Definition search_inv (fs : find_state) (E Eo : editorConfig) : Prop :=
  row (find_restore fs E) = row Eo /\ numrows E = numrows Eo /\ dirty E = dirty Eo /\
  filename E = filename Eo /\ syntax E = syntax Eo.

(** The extensions of a filetype: patterns starting with ['.'], without NUL. *)
Definition ext_pattern (pat : list ascii) : Prop :=
  char_at pat 0 = "."%char /\ ~ In NUL pat.

(** What [doc_wf] looks at: the row count and the index of every row. *)
Definition shape (E : editorConfig) : nat * list nat := (numrows E, map idx (row E)).

(** Inputs of the examples below: a one-row document, a two-row document,
    and system calls that all succeed. *)
Definition hello_doc : editorConfig := opened "notes.txt"%string "hello"%string.
Definition two_line_doc : editorConfig :=
  opened "notes.txt"%string ("hello" ++ LF ++ "world" ++ LF)%string.
Definition sys_ok : save_io := mkSaveIO None true true 0%Z [].

(* ================================================================== *)
(** * Proofs *)

(* ------------------------------------------------------------------ *)
(** ** List lemmas *)

Lemma set_nth_length {A} (l : list A) i v : length (set_nth l i v) = length l.
Proof. revert i; induction l; intros [|i]; simpl; auto. Qed.

Lemma nth_set_nth_eq {A} (l : list A) i v d : i < length l -> nth i (set_nth l i v) d = v.
Proof. revert i; induction l; intros [|i] H; simpl in *; try lia; auto; apply IHl; lia. Qed.

Lemma nth_set_nth_neq {A} (l : list A) i j v d : i <> j -> nth j (set_nth l i v) d = nth j l d.
Proof.
  revert i j; induction l; intros [|i] [|j] H; simpl; auto; try congruence;
  apply IHl; lia.
Qed.

Lemma map_set_nth {A B} (f : A -> B) (l : list A) i v :
  map f (set_nth l i v) = set_nth (map f l) i (f v).
Proof. revert i; induction l; intros [|i]; simpl; f_equal; auto. Qed.

Lemma set_nth_nth_same {A} (l : list A) i d : set_nth l i (nth i l d) = l.
Proof. revert i; induction l; intros [|i]; simpl; f_equal; auto. Qed.

Lemma set_nth_out {A} (l : list A) i v : length l <= i -> set_nth l i v = l.
Proof. revert i; induction l; intros [|i] Hi; simpl in *; try lia; auto. f_equal. apply IHl; lia. Qed.

Lemma set_nth_map_same {A B} (f : A -> B) (l : list A) i v d :
  f v = f (nth i l d) -> map f (set_nth l i v) = map f l.
Proof.
  intros H. rewrite map_set_nth, H.
  destruct (Nat.lt_ge_cases i (length l)) as [Hi|Hi].
  - rewrite <- (map_nth f l d i) at 1. apply set_nth_nth_same.
  - apply set_nth_out. rewrite length_map. exact Hi.
Qed.

Lemma memset_length {A} (l : list A) i v n : length (memset l i v n) = length l.
Proof. revert l i; induction n; intros; simpl; auto. rewrite IHn. apply set_nth_length. Qed.

(* ------------------------------------------------------------------ *)
(** ** What recomputing a row's highlight leaves alone *)

Lemma set_row_frame E k r :
  (idx r, chars r, render r) = (idx (row_at E k), chars (row_at E k), render (row_at E k)) ->
  frame (set_row E k r) = frame E.
Proof.
  intros H. unfold frame, set_row, with_rows; simpl.
  assert (Hm : map (fun r => (idx r, chars r, render r)) (set_nth (row E) k r)
               = map (fun r => (idx r, chars r, render r)) (row E))
    by (apply set_nth_map_same with (d := empty_row); exact H).
  rewrite Hm. reflexivity.
Qed.

Lemma update_syntax_fuel_frame f E k : frame (update_syntax_fuel f E k) = frame E.
Proof.
  revert E k; induction f; intros E k; simpl; auto.
  destruct (syntax E) as [syn|].
  - match goal with |- context [if ?b then _ else _] => destruct b end.
    + rewrite IHf. apply set_row_frame. reflexivity.
    + apply set_row_frame. reflexivity.
  - apply set_row_frame. reflexivity.
Qed.

Lemma editorUpdateSyntax_frame E k : frame (editorUpdateSyntax E k) = frame E.
Proof. apply update_syntax_fuel_frame. Qed.

Lemma frame_chars_of E E' : frame E = frame E' -> chars_of E = chars_of E'.
Proof.
  unfold frame, chars_of; intros H. injection H; intros Hr _ _ _ _ _ _ _ _ _.
  apply (f_equal (map (fun t => snd (fst t)))) in Hr. rewrite !map_map in Hr. exact Hr.
Qed.

Lemma frame_length_rows E E' : frame E = frame E' -> length (row E) = length (row E').
Proof.
  unfold frame; intros H. injection H; intros Hr _ _ _ _ _ _ _ _ _.
  apply (f_equal (@length _)) in Hr. rewrite !length_map in Hr. exact Hr.
Qed.

(* ------------------------------------------------------------------ *)
(** ** Row operations on the characters of the document *)

Lemma firstn_app_len {A} (pre post : list A) : firstn (length pre) (pre ++ post) = pre.
Proof. induction pre; simpl; [destruct post; reflexivity | f_equal; auto]. Qed.

Lemma skipn_app_len {A} (pre post : list A) : skipn (length pre) (pre ++ post) = post.
Proof. induction pre; simpl; auto. Qed.

Lemma set_nth_app_len {A} (pre post : list A) x y :
  set_nth (pre ++ x :: post) (length pre) y = pre ++ y :: post.
Proof. induction pre; simpl; f_equal; auto. Qed.

Lemma nth_app_len {A} (pre post : list A) x d : nth (length pre) (pre ++ x :: post) d = x.
Proof. induction pre; simpl; auto. Qed.

Lemma core_frame E E' : frame E = frame E' -> core E = core E'.
Proof.
  intros H. pose proof (frame_chars_of _ _ H) as Hc. unfold frame in H. unfold core.
  injection H; intros _ ? ? ? ? ? ? ? ? ?. rewrite Hc. congruence.
Qed.

Lemma chars_of_set_row E k r :
  chars_of (set_row E k r) = set_nth (chars_of E) k (chars r).
Proof. unfold chars_of, set_row, with_rows; simpl. apply map_set_nth. Qed.

Lemma chars_row_at E k : chars (row_at E k) = nth k (chars_of E) [].
Proof.
  unfold row_at, chars_of. change [] with (chars empty_row). symmetry. apply map_nth.
Qed.

Lemma editorUpdateRow_core E k : core (editorUpdateRow E k) = core E.
Proof.
  unfold editorUpdateRow. rewrite (core_frame _ _ (editorUpdateSyntax_frame _ _)).
  unfold core. rewrite chars_of_set_row. cbn [chars].
  rewrite chars_row_at, set_nth_nth_same. reflexivity.
Qed.

Lemma editorInsertRow_core E pre post s :
  chars_of E = pre ++ post -> length pre <= numrows E ->
  core (editorInsertRow (length pre) s E)
  = (cx E, cy E, S (numrows E), S (dirty E), pre ++ s :: post).
Proof.
  intros Hc Hle. unfold editorInsertRow.
  replace (numrows E <? length pre) with false by (symmetry; apply Nat.ltb_ge; lia).
  cbv zeta.
  set (E1 := with_rows E _).
  assert (Hu := editorUpdateRow_core E1 (length pre)).
  set (E2 := editorUpdateRow E1 (length pre)) in *.
  unfold core in Hu. injection Hu; intros Hch Hd Hn Hy Hx.
  unfold core, with_counts. cbn [cx cy numrows dirty].
  unfold chars_of at 1. cbn [row]. fold (chars_of E2). rewrite Hch, Hd, Hn, Hy, Hx.
  subst E1. cbn. f_equal.
  rewrite map_app, <- firstn_map. cbn. rewrite map_map. cbn.
  rewrite <- skipn_map. change (map (fun x : erow => chars x) (row E)) with (chars_of E). fold (chars_of E). rewrite Hc, firstn_app_len, skipn_app_len.
  reflexivity.
Qed.

Lemma map_splice {A B} (f : A -> B) (g : A -> A) (rs : list A) n n' mid :
  (forall r, f (g r) = f r) ->
  map f (firstn n rs ++ mid ++ map g (skipn n' rs))
  = firstn n (map f rs) ++ map f mid ++ skipn n' (map f rs).
Proof.
  intros Hg. rewrite !map_app, map_map, firstn_map, skipn_map. f_equal. f_equal.
  apply map_ext. exact Hg.
Qed.

Lemma map_splice0 {A B} (f : A -> B) (g : A -> A) (rs : list A) n n' :
  (forall r, f (g r) = f r) ->
  map f (firstn n rs ++ map g (skipn n' rs)) = firstn n (map f rs) ++ skipn n' (map f rs).
Proof.
  intros Hg. rewrite !map_app, map_map, firstn_map, skipn_map. f_equal.
  apply map_ext. exact Hg.
Qed.

Lemma skipn_app_len_cons {A} (pre post : list A) x :
  skipn (S (length pre)) (pre ++ x :: post) = post.
Proof. induction pre; simpl in *; auto. Qed.

Lemma editorDelRow_core E pre x post :
  chars_of E = pre ++ x :: post -> length pre < numrows E ->
  core (editorDelRow (length pre) E)
  = (cx E, cy E, numrows E - 1, S (dirty E), pre ++ post).
Proof.
  intros Hc Hlt. unfold editorDelRow.
  replace (numrows E <=? length pre) with false by (symmetry; apply Nat.leb_gt; lia).
  unfold core, with_counts, with_rows, chars_of; cbn [row cx cy numrows dirty]. f_equal.
  rewrite map_splice0 by reflexivity. fold (chars_of E).
  rewrite Hc, firstn_app_len.
  rewrite skipn_app_len_cons. reflexivity.
Qed.

Lemma editorRowAppendString_core E pre x post s :
  chars_of E = pre ++ x :: post ->
  core (editorRowAppendString E (length pre) s)
  = (cx E, cy E, numrows E, S (dirty E), pre ++ (x ++ s) :: post).
Proof.
  intros Hc. unfold editorRowAppendString; cbv zeta.
  set (E1 := set_row E _ _).
  assert (Hu := editorUpdateRow_core E1 (length pre)).
  set (E2 := editorUpdateRow E1 (length pre)) in *.
  unfold core in Hu. injection Hu; intros Hch Hd Hn Hy Hx.
  unfold core, with_counts. cbn [cx cy numrows dirty].
  unfold chars_of at 1. cbn [row]. fold (chars_of E2). rewrite Hch, Hd, Hn, Hy, Hx.
  subst E1. rewrite chars_of_set_row. cbn. rewrite chars_row_at, Hc, nth_app_len.
  rewrite set_nth_app_len. reflexivity.
Qed.

Lemma editorUpdateRow_set_chars_core E pre x post y :
  chars_of E = pre ++ x :: post ->
  core (editorUpdateRow (set_row E (length pre) (with_chars (row_at E (length pre)) y))
          (length pre))
  = (cx E, cy E, numrows E, dirty E, pre ++ y :: post).
Proof.
  intros Hc. rewrite editorUpdateRow_core. unfold core. rewrite chars_of_set_row. cbn.
  rewrite Hc, set_nth_app_len. reflexivity.
Qed.
Lemma core_with_cursor E x y :
  core (with_cursor E x y) = (x, y, numrows E, dirty E, chars_of E).
Proof. reflexivity. Qed.

Ltac core_parts H :=
  unfold core in H; injection H; clear H;
  let Hc := fresh "Hc" in let Hd := fresh "Hd" in let Hn := fresh "Hn" in
  let Hy := fresh "Hy" in let Hx := fresh "Hx" in intros Hc Hd Hn Hy Hx.

Lemma nth_app_len_S {A} (pre post : list A) x y d :
  nth (S (length pre)) (pre ++ x :: y :: post) d = y.
Proof. induction pre; simpl in *; auto. Qed.

(** [editorInsertNewline] at [(cx, cy)] splits row [cy] into its first [cx]
    characters and the rest. *)
Lemma editorInsertNewline_core E pre r post :
  chars_of E = pre ++ r :: post -> cy E = length pre -> cy E < numrows E ->
  core (editorInsertNewline E)
  = (0, S (cy E), S (numrows E), S (dirty E),
     pre ++ firstn (cx E) r :: skipn (cx E) r :: post).
Proof.
  intros Hs Hy Hlt. unfold editorInsertNewline.
  destruct (Nat.eqb_spec (cx E) 0) as [Hx0|Hx0].
  - pose proof (editorInsertRow_core E pre (r :: post) [] Hs ltac:(lia)) as H1.
    rewrite <- Hy in H1. rewrite core_with_cursor. core_parts H1.
    rewrite Hc, Hd, Hn, Hx0. reflexivity.
  - cbv zeta.
    assert (Hr : chars (row_at E (cy E)) = r)
      by (rewrite chars_row_at, Hs, Hy; apply nth_app_len).
    rewrite Hr.
    assert (Hs' : chars_of E = (pre ++ [r]) ++ post) by (rewrite Hs, <- app_assoc; reflexivity).
    pose proof (editorInsertRow_core E (pre ++ [r]) post (skipn (cx E) r) Hs'
                  ltac:(rewrite length_app; simpl; lia)) as H1.
    rewrite length_app, Nat.add_1_r, <- Hy in H1.
    set (E1 := editorInsertRow (S (cy E)) (skipn (cx E) r) E) in *.
    assert (H1c : chars_of E1 = pre ++ r :: skipn (cx E) r :: post)
      by (unfold core in H1; injection H1; intros; rewrite <- app_assoc in *; assumption).
    assert (Hr1 : chars (row_at E1 (cy E)) = r)
      by (rewrite chars_row_at, H1c, Hy; apply nth_app_len).
    rewrite Hr1, Hy.
    pose proof (editorUpdateRow_set_chars_core E1 pre r (skipn (cx E) r :: post)
                  (firstn (cx E) r) H1c) as H2.
    rewrite core_with_cursor. core_parts H2. core_parts H1.
    rewrite Hc. congruence.
Qed.

(** Backspace at column 0 of row [cy > 0] joins it onto row [cy - 1]. *)
Lemma editorDelChar_join_core E pre x y post :
  chars_of E = pre ++ x :: y :: post -> cy E = S (length pre) -> cy E < numrows E ->
  cx E = 0 ->
  core (editorDelChar E)
  = (length x, length pre, numrows E - 1, S (S (dirty E)), pre ++ (x ++ y) :: post).
Proof.
  intros Hs Hy Hlt Hx. unfold editorDelChar.
  replace (cy E =? numrows E) with false by (symmetry; apply Nat.eqb_neq; lia).
  rewrite Hx, Hy. cbn [andb Nat.eqb Nat.ltb Nat.leb]. cbv zeta.
  replace (S (length pre) - 1) with (length pre) by lia.
  assert (Hx' : chars (row_at E (length pre)) = x)
    by (rewrite chars_row_at, Hs; apply nth_app_len).
  assert (Hy' : chars (row_at E (S (length pre))) = y)
    by (rewrite chars_row_at, Hs; apply nth_app_len_S).
  rewrite Hx', Hy'.
  pose proof (editorRowAppendString_core (with_cursor E (length x) (S (length pre)))
                pre x (y :: post) y Hs) as H1.
  set (E1 := editorRowAppendString _ _ _) in *.
  assert (H1c : chars_of E1 = (pre ++ [x ++ y]) ++ y :: post)
    by (unfold core in H1; injection H1; intros; rewrite <- app_assoc; assumption).
  pose proof (editorDelRow_core E1 (pre ++ [x ++ y]) y post H1c) as H2.
  rewrite length_app, Nat.add_1_r in H2.
  assert (Hn1 : numrows E1 = numrows E) by (unfold core in H1; injection H1; intros; assumption).
  specialize (H2 ltac:(lia)).
  rewrite core_with_cursor. core_parts H2. core_parts H1.
  rewrite Hc, <- app_assoc. simpl. congruence.
Qed.

(** C3: Splitting row [cy] at [cx] (Enter) and then joining the two rows
    again (Backspace at column 0 of the new row) gives back the row's
    characters exactly, with the cursor at the join point: the former
    length of the upper row, which is [cx]. *)
Theorem split_join_roundtrip E :
  doc_wf E -> S (cy E) < numrows E -> cx E <= length (chars (row_at E (cy E))) ->
  let Es := editorInsertNewline E in
  let Ej := editorDelChar Es in
  chars_of Ej = chars_of E /\ numrows Ej = numrows E /\
  cx Ej = length (chars (row_at Es (cy E))) /\ cx Ej = cx E /\ cy Ej = cy E.
Proof.
  intros [Hlen _] Hcy Hcx Es Ej.
  assert (Hl : cy E < length (chars_of E)) by (unfold chars_of; rewrite length_map; lia).
  destruct (nth_split (chars_of E) [] Hl) as (pre & post & Hsplit & Hpre).
  set (r := nth (cy E) (chars_of E) []) in Hsplit.
  assert (Hr : chars (row_at E (cy E)) = r) by (rewrite chars_row_at; reflexivity).
  rewrite Hr in Hcx.
  pose proof (editorInsertNewline_core E pre r post Hsplit (eq_sym Hpre) ltac:(lia)) as H1.
  fold Es in H1.
  assert (H1' := H1). core_parts H1'.
  pose proof (editorDelChar_join_core Es pre (firstn (cx E) r) (skipn (cx E) r) post
                Hc ltac:(lia) ltac:(lia) Hx) as H2.
  fold Ej in H2. core_parts H2.
  assert (Hup : chars (row_at Es (cy E)) = firstn (cx E) r)
    by (rewrite chars_row_at, Hc, <- Hpre; apply nth_app_len).
  rewrite firstn_skipn in Hc0. rewrite length_firstn in Hx0.
  repeat split.
  - rewrite Hc0, Hsplit. reflexivity.
  - lia.
  - rewrite Hx0, Hup, length_firstn. reflexivity.
  - lia.
  - lia.
Qed.
Lemma editorUpdateRow_chars E k : chars_of (editorUpdateRow E k) = chars_of E.
Proof. exact (f_equal snd (editorUpdateRow_core E k)). Qed.

Lemma chars_of_with_counts E n d : chars_of (with_counts E n d) = chars_of E.
Proof. reflexivity. Qed.

Lemma editorRowInsertChar_chars E k at_ c :
  let r := chars (row_at E k) in
  let a := if (at_ <? 0)%Z || (Z.of_nat (length r) <? at_)%Z then length r else Z.to_nat at_ in
  chars_of (editorRowInsertChar E k at_ c) = set_nth (chars_of E) k (firstn a r ++ c :: skipn a r).
Proof.
  intros r a. unfold editorRowInsertChar. cbv zeta. subst r a.
  rewrite chars_of_with_counts, editorUpdateRow_chars, chars_of_set_row. reflexivity.
Qed.

Lemma editorRowDelChar_chars E k at_ :
  let r := chars (row_at E k) in
  chars_of (editorRowDelChar E k at_)
  = if (at_ <? 0)%Z || (Z.of_nat (length r) <=? at_)%Z then chars_of E
    else set_nth (chars_of E) k (firstn (Z.to_nat at_) r ++ skipn (S (Z.to_nat at_)) r).
Proof.
  intros r. unfold editorRowDelChar. cbv zeta. subst r.
  destruct (_ || _); [reflexivity|].
  rewrite chars_of_with_counts, editorUpdateRow_chars, chars_of_set_row. reflexivity.
Qed.

Lemma firstn_app_skipn_insert {A} (r : list A) a (c : A) :
  a <= length r ->
  firstn a (firstn a r ++ c :: skipn a r) ++ skipn (S a) (firstn a r ++ c :: skipn a r) = r.
Proof.
  intros Ha.
  assert (Hl : length (firstn a r) = a) by (rewrite length_firstn; lia).
  rewrite <- Hl at 1. rewrite firstn_app_len.
  rewrite <- Hl at 2. rewrite skipn_app_len_cons. apply firstn_skipn.
Qed.

(** C8 (amended): inserting [c] at position [k] of a row and deleting at
    [k] again gives back the row when [0 <= k <= length]; outside that
    range the insert appends [c] and the delete does nothing. *)
Theorem insert_delete_roundtrip E rk at_ c :
  rk < length (row E) ->
  let r := chars (row_at E rk) in
  chars (row_at (editorRowDelChar (editorRowInsertChar E rk at_ c) rk at_) rk)
  = if (0 <=? at_)%Z && (at_ <=? Z.of_nat (length r))%Z then r else r ++ [c].
Proof.
  intros Hk r.
  assert (Hk' : rk < length (chars_of E)) by (unfold chars_of; rewrite length_map; exact Hk).
  set (E1 := editorRowInsertChar E rk at_ c).
  set (a := if (at_ <? 0)%Z || (Z.of_nat (length r) <? at_)%Z then length r else Z.to_nat at_).
  assert (H1 : chars (row_at E1 rk) = firstn a r ++ c :: skipn a r).
  { subst E1. rewrite chars_row_at, editorRowInsertChar_chars, nth_set_nth_eq by exact Hk'.
    reflexivity. }
  assert (Hk1 : rk < length (chars_of E1))
    by (subst E1; rewrite editorRowInsertChar_chars, set_nth_length; exact Hk').
  assert (Hlen1 : length (chars (row_at E1 rk)) = S (length r)).
  { rewrite H1, length_app. cbn [length]. rewrite length_firstn, length_skipn.
    assert (a <= length r).
    { subst a. destruct ((at_ <? 0)%Z || (Z.of_nat (length r) <? at_)%Z) eqn:Hb; [lia|].
      apply orb_false_iff in Hb as [Hb1 Hb2]. apply Z.ltb_ge in Hb1, Hb2. lia. }
    lia. }
  rewrite chars_row_at, editorRowDelChar_chars. cbv zeta. rewrite Hlen1.
  destruct (Z.leb_spec 0 at_) as [H0|H0];
    destruct (Z.leb_spec at_ (Z.of_nat (length r))) as [H2|H2]; cbn [andb].
  - replace (at_ <? 0)%Z with false by (symmetry; apply Z.ltb_ge; lia).
    replace (Z.of_nat (S (length r)) <=? at_)%Z with false by (symmetry; apply Z.leb_gt; lia).
    cbn [orb]. rewrite nth_set_nth_eq by exact Hk1. rewrite H1.
    assert (Ha : a = Z.to_nat at_).
    { subst a. replace (at_ <? 0)%Z with false by (symmetry; apply Z.ltb_ge; lia).
      replace (Z.of_nat (length r) <? at_)%Z with false by (symmetry; apply Z.ltb_ge; lia).
      reflexivity. }
    rewrite <- Ha. apply firstn_app_skipn_insert. lia.
  - replace (Z.of_nat (S (length r)) <=? at_)%Z with true by (symmetry; apply Z.leb_le; lia).
    rewrite orb_true_r. rewrite <- chars_row_at, H1.
    assert (Ha : a = length r).
    { subst a. replace (Z.of_nat (length r) <? at_)%Z with true by (symmetry; apply Z.ltb_lt; lia).
      rewrite orb_true_r. reflexivity. }
    rewrite Ha, firstn_all, skipn_all. reflexivity.
  - replace (at_ <? 0)%Z with true by (symmetry; apply Z.ltb_lt; lia).
    cbn [orb]. rewrite <- chars_row_at, H1.
    assert (Ha : a = length r).
    { subst a. replace (at_ <? 0)%Z with true by (symmetry; apply Z.ltb_lt; lia). reflexivity. }
    rewrite Ha, firstn_all, skipn_all. reflexivity.
  - lia.
Qed.

Lemma insert_delete_roundtrip_witness :
  0 < length (row (opened "notes.txt" "hello")) /\
  chars (row_at (editorRowDelChar (editorRowInsertChar (opened "notes.txt" "hello") 0 2 "X"%char) 0 2) 0)
  = s2l "hello".
Proof.
  split; [vm_compute; lia|].
  exact (insert_delete_roundtrip (opened "notes.txt" "hello") 0 2 "X"%char ltac:(vm_compute; lia)).
Defined.

(** C8 counterexample: on the row "x", inserting at the out-of-range position
    2 appends, and deleting at 2 is then a no-op: the row stays "xa". *)
Lemma insert_delete_out_of_range :
  chars (row_at (editorRowDelChar (editorRowInsertChar (opened "notes.txt" "x") 0 2 "a"%char) 0 2) 0)
  <> chars (row_at (opened "notes.txt" "x") 0).
Proof. vm_compute. discriminate. Qed.
(* ------------------------------------------------------------------ *)
(** ** Tabs and the character-space / render-space columns *)

Lemma render_tabs_all_tabs n col :
  col mod KILO_TAB_STOP = 0 ->
  length (render_tabs col (repeat TAB n)) = KILO_TAB_STOP * n.
Proof.
  revert col; induction n as [|n IH]; intros col Hc; [simpl; lia|].
  cbn [repeat render_tabs]. rewrite Ascii.eqb_refl, Hc, length_app, repeat_length.
  rewrite IH; [unfold KILO_TAB_STOP; lia|].
  unfold KILO_TAB_STOP in *. rewrite Nat.sub_0_r. rewrite Nat.Div0.add_mod, Hc. reflexivity.
Qed.

Lemma frame_render E E' k : frame E = frame E' -> render (row_at E k) = render (row_at E' k).
Proof.
  unfold frame; intros H. injection H as _ _ _ _ _ _ _ _ _ Hr.
  apply (f_equal (map (fun t => snd t))) in Hr. rewrite !map_map in Hr. cbn in Hr.
  unfold row_at. rewrite <- !(map_nth render _ empty_row k).
  change (fun x : erow => render x) with render in Hr. rewrite Hr. reflexivity.
Qed.

Lemma render_row_updated E k :
  k < length (row E) ->
  render (row_at (editorUpdateRow E k) k) = render_tabs 0 (chars (row_at E k)).
Proof.
  intros Hk. unfold editorUpdateRow.
  rewrite (frame_render _ _ k (editorUpdateSyntax_frame _ k)).
  unfold row_at at 1, set_row, with_rows. cbn [row]. rewrite nth_set_nth_eq by exact Hk.
  reflexivity.
Qed.

Lemma cx_to_rx_loop_ge cs j n rx : rx <= cx_to_rx_loop cs j n rx.
Proof.
  revert j rx; induction n; intros j rx; simpl; [lia|].
  match goal with |- _ <= cx_to_rx_loop _ _ _ (S ?x) => specialize (IHn (S j) (S x)) end.
  destruct (Ascii.eqb _ _); lia.
Qed.

Lemma rx_to_cx_after_cx_to_rx cs m p j rx0 :
  rx_to_cx_loop cs (cx_to_rx_loop cs j m rx0) j (m + p) rx0 = j + m.
Proof.
  revert j rx0; induction m as [|m IH]; intros j rx0.
  - cbn [cx_to_rx_loop]. destruct p; cbn [rx_to_cx_loop Nat.add]; [lia|].
    set (c1 := if Ascii.eqb (char_at cs j) TAB
               then rx0 + (KILO_TAB_STOP - 1 - rx0 mod KILO_TAB_STOP) else rx0).
    replace (rx0 <? S c1) with true by (symmetry; apply Nat.ltb_lt; subst c1; destruct (Ascii.eqb _ _); lia).
    lia.
  - cbn [cx_to_rx_loop Nat.add rx_to_cx_loop].
    set (c1 := if Ascii.eqb (char_at cs j) TAB
               then rx0 + (KILO_TAB_STOP - 1 - rx0 mod KILO_TAB_STOP) else rx0).
    pose proof (cx_to_rx_loop_ge cs (S j) m (S c1)).
    replace (cx_to_rx_loop cs (S j) m (S c1) <? S c1) with false
      by (symmetry; apply Nat.ltb_ge; lia).
    rewrite IH. lia.
Qed.

(** C5: a row of tabs renders to [KILO_TAB_STOP] columns per tab, and
    [editorRowRxToCx] undoes [editorRowCxToRx] on every column
    [0 <= cx <= size]. *)
Theorem tab_render_and_column_roundtrip :
  (forall E k n,
     k < length (row E) -> chars (row_at E k) = repeat TAB n ->
     length (render (row_at (editorUpdateRow E k) k)) = KILO_TAB_STOP * n) /\
  (forall r cx, cx <= length (chars r) ->
     editorRowRxToCx r (editorRowCxToRx r cx) = cx).
Proof.
  split.
  - intros E k n Hk Hc. rewrite render_row_updated by exact Hk. rewrite Hc.
    apply render_tabs_all_tabs. reflexivity.
  - intros r cx Hcx. unfold editorRowRxToCx, editorRowCxToRx.
    replace (length (chars r)) with (cx + (length (chars r) - cx)) by lia.
    apply rx_to_cx_after_cx_to_rx.
Qed.
(* ------------------------------------------------------------------ *)
(** ** Load and save *)

Lemma editorInsertRow_append E s :
  length (chars_of E) = numrows E ->
  chars_of (editorInsertRow (numrows E) s E) = chars_of E ++ [s] /\
  numrows (editorInsertRow (numrows E) s E) = S (numrows E).
Proof.
  intros Hl.
  pose proof (editorInsertRow_core E (chars_of E) [] s ltac:(rewrite app_nil_r; reflexivity)
                ltac:(lia)) as H.
  rewrite Hl in H. core_parts H. split; assumption.
Qed.

Lemma editorInsertRow_filename at_ s E :
  filename (editorInsertRow at_ s E) = filename E.
Proof.
  unfold editorInsertRow. destruct (numrows E <? at_); [reflexivity|]. cbn.
  unfold editorUpdateRow.
  pose proof (editorUpdateSyntax_frame
    (set_row (with_rows E (firstn at_ (row E) ++ mkRow at_ s [] [] false
         :: map (fun r => with_idx r (S (idx r))) (skipn at_ (row E))))
       at_ (let r := row_at (with_rows E (firstn at_ (row E) ++ mkRow at_ s [] [] false
         :: map (fun r => with_idx r (S (idx r))) (skipn at_ (row E)))) at_ in
            mkRow (idx r) (chars r) (render_tabs 0 (chars r)) (hl r) (hl_open_comment r))) at_) as Hf.
  unfold frame in Hf. injection Hf as _ _ _ _ _ _ Hfn _ _ _. exact Hfn.
Qed.

Lemma select_syntax_no_rows E :
  numrows E = 0 ->
  exists s, editorSelectSyntaxHighlight E = with_file E (filename E) s.
Proof.
  intros H0. unfold editorSelectSyntaxHighlight.
  destruct (filename E) as [fn|]; [|eauto].
  destruct (hldb_loop fn HLDB) as [s|]; [|eauto].
  exists (Some s). unfold update_all_rows. simpl. rewrite H0. reflexivity.
Qed.

Lemma editorRowsToString_spec E :
  length (row E) = numrows E ->
  let '(buf, len) := editorRowsToString E in
  buf = concat (map (fun cs => cs ++ ["010"%char]) (chars_of E)) /\
  len = length buf /\
  len = list_sum (map (@length ascii) (chars_of E)) + numrows E.
Proof.
  intros Hl. unfold editorRowsToString. rewrite <- Hl, firstn_all.
  unfold chars_of. rewrite map_map.
  assert (Hf : forall rs acc, fold_left (fun tot r => tot + (length (chars r) + 1)) rs acc
                 = acc + list_sum (map (fun r => length (chars r)) rs) + length rs).
  { induction rs as [|r rs IH]; intros acc; simpl; [lia|]. rewrite IH. lia. }
  rewrite Hf. split; [reflexivity|]. split.
  - clear Hf Hl. induction (row E) as [|r rs IH]; simpl; [reflexivity|].
    rewrite length_app, length_app, <- IH. simpl. lia.
  - rewrite map_map. lia.
Qed.

(** C9: loading ["a\r\nb\n"] gives the rows "a" and "b"; flattening any
    document puts each row's characters followed by one newline, and the
    reported length is the sum of the row lengths plus the number of rows;
    saving the loaded buffer writes "a\nb\n", 4 bytes. *)
Theorem load_and_flatten :
  (forall fn, chars_of (editorOpen fn crlf_sample initEditor) = [s2l "a"; s2l "b"] /\
              numrows (editorOpen fn crlf_sample initEditor) = 2 /\
              dirty (editorOpen fn crlf_sample initEditor) = 0) /\
  (forall E, length (row E) = numrows E ->
     let '(buf, len) := editorRowsToString E in
     buf = concat (map (fun cs => cs ++ ["010"%char]) (chars_of E)) /\
     len = length buf /\
     len = list_sum (map (@length ascii) (chars_of E)) + numrows E) /\
  (forall fn io, io_open_ok io = true -> io_ftruncate_ok io = true -> io_write_ret io = 4%Z ->
     snd (editorSave io (editorOpen fn crlf_sample initEditor))
     = Some (s2l "a" ++ ["010"%char] ++ s2l "b" ++ ["010"%char], 4)).
Proof.
  assert (Hload : forall fn, chars_of (editorOpen fn crlf_sample initEditor) = [s2l "a"; s2l "b"] /\
              numrows (editorOpen fn crlf_sample initEditor) = 2 /\
              dirty (editorOpen fn crlf_sample initEditor) = 0 /\
              length (row (editorOpen fn crlf_sample initEditor)) = 2 /\
              filename (editorOpen fn crlf_sample initEditor) = Some fn).
  { intros fn. unfold editorOpen.
    destruct (select_syntax_no_rows (with_file initEditor (Some fn) (syntax initEditor)) eq_refl)
      as [s Hs].
    rewrite Hs.
    replace (getlines [] crlf_sample)
      with [["a"%char; "013"%char; "010"%char]; ["b"%char; "010"%char]]
      by (vm_compute; reflexivity).
    cbn [fold_left].
    replace (strip_eol ["a"%char; "013"%char; "010"%char]) with (s2l "a") by (vm_compute; reflexivity).
    replace (strip_eol ["b"%char; "010"%char]) with (s2l "b") by (vm_compute; reflexivity).
    set (E0 := with_file _ _ s).
    assert (H0 : length (chars_of E0) = numrows E0) by reflexivity.
    destruct (editorInsertRow_append E0 (s2l "a") H0) as [Ha Hna].
    set (E1 := editorInsertRow (numrows E0) (s2l "a") E0) in *.
    assert (H1 : length (chars_of E1) = numrows E1) by (rewrite Ha, Hna, length_app, H0; simpl; lia).
    destruct (editorInsertRow_append E1 (s2l "b") H1) as [Hb Hnb].
    rewrite chars_of_with_counts. unfold with_counts; cbn [numrows dirty row filename].
    set (E2 := editorInsertRow (numrows E1) (s2l "b") E1) in *.
    replace (length (row E2)) with (length (chars_of E2))
      by (unfold chars_of; rewrite length_map; reflexivity).
    subst E2. rewrite Hb, Hnb, Ha, Hna, !editorInsertRow_filename.
    repeat split. subst E1. rewrite editorInsertRow_filename. reflexivity. }
  split; [|split].
  - intros fn. destruct (Hload fn) as (? & ? & ? & _). auto.
  - exact editorRowsToString_spec.
  - intros fn io Ho Ht Hw. destruct (Hload fn) as (Hc & Hn & _ & Hl & Hfn).
    unfold editorSave. rewrite Hfn.
    pose proof (editorRowsToString_spec (editorOpen fn crlf_sample initEditor)
                  ltac:(rewrite Hl, Hn; reflexivity)) as Hs.
    destruct (editorRowsToString _) as [buf len] eqn:Hrs.
    destruct Hs as (Hbuf & Hlen & Hsum). rewrite Hc, Hn in *. cbn in Hsum. subst len.
    rewrite Ho, Ht, Hw. cbn. rewrite Hbuf. reflexivity.
Qed.
Lemma update_all_rows_core E : core (update_all_rows E) = core E.
Proof.
  unfold update_all_rows. generalize (seq 0 (numrows E)). intros l. revert E.
  induction l as [|k l IH]; intros E; simpl; [reflexivity|].
  rewrite IH. apply core_frame, editorUpdateSyntax_frame.
Qed.

Lemma select_syntax_core E : core (editorSelectSyntaxHighlight E) = core E.
Proof.
  unfold editorSelectSyntaxHighlight.
  destruct (filename E) as [fn|]; [|reflexivity].
  destruct (hldb_loop fn HLDB); [|reflexivity].
  rewrite update_all_rows_core. reflexivity.
Qed.

Lemma editorRowsToString_chars E E' :
  chars_of E = chars_of E' -> numrows E = numrows E' ->
  editorRowsToString E = editorRowsToString E'.
Proof.
  intros Hc Hn. unfold editorRowsToString.
  assert (Hm : forall X, map chars (firstn (numrows X) (row X)) = firstn (numrows X) (chars_of X))
    by (intros X; unfold chars_of; symmetry; apply firstn_map).
  assert (Hcat : forall rs : list erow,
            concat (map (fun r => chars r ++ ["010"%char]) rs)
            = concat (map (fun cs => cs ++ ["010"%char]) (map chars rs)))
    by (intros rs; rewrite map_map; reflexivity).
  assert (Hsum : forall (rs : list erow) acc,
            fold_left (fun tot r => tot + (length (chars r) + 1)) rs acc
            = fold_left (fun tot cs => tot + (length cs + 1)) (map chars rs) acc)
    by (intros rs; induction rs; intros acc; simpl; auto).
  rewrite !Hcat, !Hsum, !Hm, Hc, Hn. reflexivity.
Qed.

(** C7: a save either fails and leaves the dirty counter, the rows and
    their count as they were, with an error status message ("Save aborted"
    when the Save-as prompt is cancelled, the I/O error otherwise); or
    [open] and [ftruncate] succeeded, [write] got the whole flattened
    buffer and wrote all of it, and only then the dirty counter is 0. *)
Theorem editorSave_failure_keeps_dirty io E :
  let '(E', w) := editorSave io E in
  (dirty E' = dirty E /\ chars_of E' = chars_of E /\ numrows E' = numrows E /\
   (statusmsg E' = firstn 79 (s2l "Save aborted") \/
    statusmsg E' = firstn 79 (s2l "Can't save! I/O error: " ++ io_strerror io)))
  \/
  (io_open_ok io = true /\ io_ftruncate_ok io = true /\
   w = Some (editorRowsToString E) /\
   io_write_ret io = Z.of_nat (snd (editorRowsToString E)) /\
   dirty E' = 0 /\ chars_of E' = chars_of E /\ numrows E' = numrows E).
Proof.
  unfold editorSave.
  remember (match filename E with
            | Some _ => Some E
            | None =>
                match io_prompt io with
                | None => None
                | Some fn => Some (editorSelectSyntaxHighlight (with_file E (Some fn) (syntax E)))
                end
            end) as oE eqn:HoE.
  destruct oE as [E1|].
  2: { left. cbn. repeat split; auto. }
  assert (H1 : core E1 = (cx E1, cy E1, numrows E, dirty E, chars_of E)).
  { destruct (filename E); [injection HoE as ->; reflexivity|].
    destruct (io_prompt io); [|discriminate].
    injection HoE as ->.
    pose proof (select_syntax_core (with_file E (Some l) (syntax E))) as Hs.
    revert Hs. generalize (editorSelectSyntaxHighlight (with_file E (Some l) (syntax E))).
    intros S Hs. rewrite Hs. unfold core in Hs. cbn in Hs.
    injection Hs as Hx Hy Hn Hd Hc. rewrite Hx, Hy. reflexivity. }
  unfold core in H1. injection H1 as Hn Hd Hc.
  assert (Hrs : editorRowsToString E1 = editorRowsToString E)
    by (apply editorRowsToString_chars; assumption).
  rewrite Hrs. destruct (editorRowsToString E) as [buf len] eqn:Hb.
  destruct (io_open_ok io) eqn:Ho; [destruct (io_ftruncate_ok io) eqn:Ht|].
  - destruct (Z.eqb_spec (io_write_ret io) (Z.of_nat len)) as [Hw|Hw].
    + right. cbn. repeat split; auto.
    + left. cbn. repeat split; auto.
  - left. cbn. repeat split; auto.
  - left. cbn. repeat split; auto.
Qed.

Lemma split_join_roundtrip_witness :
  let E := with_cursor (opened "notes.txt" ("abc" ++ LF ++ "de" ++ LF)) 1 0 in
  doc_wf E /\ S (cy E) < numrows E /\ cx E <= length (chars (row_at E (cy E))) /\
  chars_of (editorDelChar (editorInsertNewline E)) = chars_of E.
Proof.
  intros E.
  assert (Hw : doc_wf E).
  { split; [vm_compute; reflexivity|].
    intros j Hj. vm_compute in Hj. destruct j as [|[|j]]; [reflexivity|reflexivity|lia]. }
  assert (H1 : S (cy E) < numrows E) by (vm_compute; lia).
  assert (H2 : cx E <= length (chars (row_at E (cy E)))) by (vm_compute; lia).
  split; [exact Hw|]. split; [exact H1|]. split; [exact H2|].
  exact (proj1 (split_join_roundtrip E Hw H1 H2)).
Defined.
Lemma find_loop_wrap (n c dir : Z) :
  (0 < n)%Z -> (dir = 1 \/ dir = -1)%Z -> (-1 <= c < n)%Z -> (c = -1 -> dir = 1)%Z ->
  (if (c + dir =? -1)%Z then (n - 1)%Z else if (c + dir =? n)%Z then 0%Z else (c + dir)%Z)
  = ((c + dir) mod n)%Z.
Proof.
  intros Hn Hd Hc Hm.
  destruct (Z.eqb_spec (c + dir) (-1)) as [E1|E1].
  { rewrite E1. rewrite <- (Z.mod_add (-1) 1 n) by lia.
    rewrite Z.mod_small; lia. }
  destruct (Z.eqb_spec (c + dir) n) as [E2|E2].
  { rewrite E2, Z.mod_same; lia. }
  rewrite Z.mod_small; [reflexivity|].
  destruct Hd; subst dir; [|assert (c <> -1)%Z by (intros H; specialize (Hm H); lia)]; lia.
Qed.

Lemma find_loop_first_match E q dir c m :
  (0 < Z.of_nat (numrows E))%Z -> (dir = 1 \/ dir = -1)%Z ->
  (-1 <= c < Z.of_nat (numrows E))%Z -> (c = -1 -> dir = 1)%Z ->
  find_loop E q dir c m
  = first_match E q (map (fun t => ((c + dir * Z.of_nat t) mod Z.of_nat (numrows E))%Z) (seq 1 m)).
Proof.
  revert c. induction m as [|m IH]; intros c Hn Hd Hc Hm; [reflexivity|].
  cbn [find_loop seq map first_match].
  rewrite (find_loop_wrap _ _ _ Hn Hd Hc Hm).
  replace (c + dir * Z.of_nat 1)%Z with (c + dir)%Z by lia.
  destruct (strstr _ q) as [off|]; [reflexivity|].
  set (n := Z.of_nat (numrows E)) in *.
  assert (Hb : (0 <= (c + dir) mod n < n)%Z) by (apply Z.mod_pos_bound; lia).
  rewrite IH by lia.
  f_equal. rewrite <- (seq_shift m 1), map_map. apply map_ext. intros t.
  rewrite Zplus_mod_idemp_l. f_equal. lia.
Qed.

Lemma search_order_in_range n lm dir :
  (0 < n)%nat -> Forall (fun c => (0 <= c < Z.of_nat n)%Z) (search_order n lm dir).
Proof.
  intros Hn. unfold search_order. apply Forall_forall. intros x Hx.
  apply in_map_iff in Hx. destruct Hx as [t [<- _]]. apply Z.mod_pos_bound. lia.
Qed.

Lemma search_order_NoDup n lm dir :
  (dir = 1 \/ dir = -1)%Z -> NoDup (search_order n lm dir).
Proof.
  intros Hd. unfold search_order.
  apply NoDup_map_NoDup_ForallPairs; [|apply seq_NoDup].
  intros t1 t2 H1 H2 Heq.
  apply in_seq in H1, H2.
  set (N := Z.of_nat n) in *.
  assert (Hz : ((lm + dir * Z.of_nat t1 - (lm + dir * Z.of_nat t2)) mod N = 0)%Z).
  { rewrite Zminus_mod, Heq, Z.sub_diag. reflexivity. }
  apply Z.mod_divide in Hz; [|lia].
  destruct Hz as [k Hk].
  assert (Hk' : (dir * (Z.of_nat t1 - Z.of_nat t2) = k * N)%Z) by lia.
  destruct (Nat.eq_dec t1 t2) as [|Hne]; [assumption|exfalso].
  assert (HN : (Z.of_nat t1 - Z.of_nat t2 < N /\ Z.of_nat t2 - Z.of_nat t1 < N)%Z) by lia.
  assert (Ht : Z.of_nat t1 <> Z.of_nat t2) by lia.
  destruct (Z.lt_trichotomy k 0) as [Hk0|[Hk0|Hk0]].
  - assert (k * N <= - N)%Z by nia. destruct Hd; subst dir; lia.
  - subst k. destruct Hd; subst dir; lia.
  - assert (N <= k * N)%Z by nia. destruct Hd; subst dir; lia.
Qed.

Lemma search_order_from_none n :
  search_order n (-1) 1 = map Z.of_nat (seq 0 n).
Proof.
  unfold search_order. rewrite <- (seq_shift n 0), map_map.
  apply map_ext_in. intros t Ht. apply in_seq in Ht.
  rewrite Z.mod_small; lia.
Qed.

(** C6: on the rows "foo", "bar foo", "baz" with the query "foo", typing the
    query (no previous match, forward) moves the cursor to row 0, the next
    forward step to row 1, the next forward step wraps to row 0, and a
    backward step from the match on row 1 goes to row 0. In general, from
    the last match [lm] (-1 when there is none, and then the direction is
    forward) the loop of [editorFindCallback] returns the first row, in the
    order [lm + dir], [lm + 2 dir], ... taken modulo the number of rows,
    whose render contains the query; that order starts at row 0 when there
    is no previous match, lists each row exactly once and stays in range. *)
Theorem incremental_search_cyclic :
  (let '(f1, E1) := editorFindCallback find_init search_doc query_foo 111 in
   let '(f2, E2) := editorFindCallback f1 E1 query_foo ARROW_DOWN in
   let '(_, E3) := editorFindCallback f2 E2 query_foo ARROW_DOWN in
   let '(_, E4) := editorFindCallback f2 E2 query_foo ARROW_UP in
   map render (row search_doc) = [s2l "foo"; s2l "bar foo"; s2l "baz"] /\
   cy E1 = 0 /\ cy E2 = 1 /\ cy E3 = 0 /\ cy E4 = 0)
  /\
  (forall E q lm dir,
     0 < numrows E -> (-1 <= lm < Z.of_nat (numrows E))%Z ->
     (dir = 1 \/ dir = -1)%Z -> (lm = -1 -> dir = 1)%Z ->
     find_loop E q dir lm (numrows E) = first_match E q (search_order (numrows E) lm dir) /\
     (lm = -1 -> search_order (numrows E) lm dir = map Z.of_nat (seq 0 (numrows E)))%Z /\
     NoDup (search_order (numrows E) lm dir) /\
     length (search_order (numrows E) lm dir) = numrows E /\
     Forall (fun c => 0 <= c < Z.of_nat (numrows E))%Z (search_order (numrows E) lm dir)).
Proof.
  split; [vm_compute; repeat split; reflexivity|].
  intros E q lm dir Hn Hlm Hd Hm.
  split; [apply find_loop_first_match; lia|].
  split; [intros ->; rewrite (Hm eq_refl); apply search_order_from_none|].
  split; [apply search_order_NoDup; assumption|].
  split; [unfold search_order; rewrite length_map, length_seq; reflexivity|].
  apply search_order_in_range; assumption.
Qed.
Lemma row_at_set_row_eq E k r : k < length (row E) -> row_at (set_row E k r) k = r.
Proof. intros H. unfold row_at, set_row, with_rows. cbn. apply nth_set_nth_eq; exact H. Qed.

Lemma row_at_set_row_neq E k j r : k <> j -> row_at (set_row E k r) j = row_at E j.
Proof. intros H. unfold row_at, set_row, with_rows. cbn. apply nth_set_nth_neq; exact H. Qed.

Section Cascade.
Variable syn : editorSyntax.

Lemma update_syntax_fuel_cascade f E k :
  doc_wf E -> syntax E = Some syn -> k < numrows E -> numrows E <= k + f ->
  exists m, cascade_result syn E (update_syntax_fuel f E k) k m.
Proof.
  revert E k. induction f as [|f IH]; intros E k [Hlen Hidx] Hs Hk Hf; [lia|].
  cbn [update_syntax_fuel]. rewrite Hs.
  pose proof (Hidx k Hk) as Hik. rewrite Hik.
  set (seed := (0 <? k) && hl_open_comment (row_at E (k - 1))).
  set (fin := scan_row syn (render (row_at E k)) seed).
  set (nr := mkRow k (chars (row_at E k)) (render (row_at E k)) (sc_hl fin) (sc_in_comment fin)).
  set (E1 := set_row E k nr).
  assert (HkL : k < length (row E)) by lia.
  assert (H1k : row_at E1 k = nr) by (apply row_at_set_row_eq; exact HkL).
  assert (H1j : forall j, k <> j -> row_at E1 j = row_at E j)
    by (intros j Hj; apply row_at_set_row_neq; exact Hj).
  assert (Hn1 : numrows E1 = numrows E) by reflexivity.
  assert (Hl1 : length (row E1) = length (row E)) by apply set_nth_length.
  assert (Hseed : 0 < k -> row_at E1 (k - 1) = row_at E (k - 1)) by (intros; apply H1j; lia).
  assert (Hnr : nr = rescanned syn E k seed) by reflexivity.
  destruct (negb (Bool.eqb (hl_open_comment (row_at E k)) (sc_in_comment fin))
            && (S k <? numrows E)) eqn:Hc.
  - apply andb_true_iff in Hc. destruct Hc as [Hch Hlt].
    apply negb_true_iff in Hch. apply Nat.ltb_lt in Hlt.
    assert (Hw1 : doc_wf E1).
    { split; [rewrite Hl1, Hn1; exact Hlen|].
      intros j Hj. destruct (Nat.eq_dec k j) as [<-|Hne].
      - rewrite H1k. reflexivity.
      - rewrite H1j by exact Hne. apply Hidx. exact Hj. }
    destruct (IH E1 (S k) Hw1 Hs Hlt ltac:(lia)) as [m [Hm [Hn' [Hl' [Hout [Hin [Hchg Hstop]]]]]]].
    exists m. rewrite Hn1 in Hm, Hn'. rewrite Hl1 in Hl'.
    split; [lia|]. split; [exact Hn'|]. split; [exact Hl'|].
    split.
    { intros j Hj. rewrite Hout by lia. apply H1j. lia. }
    split.
    { intros j Hj. destruct (Nat.eq_dec k j) as [<-|Hne].
      - rewrite Hout by lia. rewrite H1k, Hnr. f_equal.
        destruct k as [|k']; [reflexivity|].
        cbn [Nat.ltb Nat.leb andb]. rewrite Hout by lia. rewrite H1j by lia. reflexivity.
      - rewrite Hin by lia. unfold rescanned. rewrite H1j by exact Hne. reflexivity. }
    split.
    { intros j Hj. destruct (Nat.eq_dec k j) as [<-|Hne].
      - rewrite Hout by lia. rewrite H1k. cbn [hl_open_comment nr].
        intros He. rewrite He, Bool.eqb_reflx in Hch. discriminate.
      - rewrite <- (H1j j Hne). apply Hchg. lia. }
    { intros Hm'. rewrite Hstop by (rewrite Hn1; lia). rewrite H1j by lia. reflexivity. }
  - exists k. split; [lia|]. split; [exact Hn1|]. split; [exact Hl1|].
    split.
    { intros j Hj. apply H1j. lia. }
    split.
    { intros j Hj. assert (j = k) as -> by lia. rewrite H1k, Hnr. f_equal.
      destruct k as [|k']; [reflexivity|].
      cbn [Nat.ltb Nat.leb andb]. rewrite H1j by lia. reflexivity. }
    split; [intros j Hj; lia|].
    intros Hlt. apply Nat.ltb_lt in Hlt. rewrite Hlt, andb_true_r in Hc.
    apply negb_false_iff in Hc. rewrite H1k. cbn [hl_open_comment nr].
    apply Bool.eqb_prop in Hc. symmetry. exact Hc.
Qed.

End Cascade.

(** C1: on a document whose rows know their index, recomputing row [k]
    recomputes rows [k .. m] for some [m]: each with the scanner seeded by
    the new [hl_open_comment] of the row above, each of [k .. m-1] changing
    its [hl_open_comment], and the cascade stopping at [m] because the
    flag of row [m] did not change (or [m] is the last row); no other row
    is touched. On "/* a", "b", "c" (a C file) the opener leaves every row
    open, and typing the closer at the end of row 0 closes row 0 and the
    cascade recomputes rows 1 and 2 as plain text. *)
Theorem update_syntax_cascade :
  (forall E k syn, doc_wf E -> syntax E = Some syn -> k < numrows E ->
     exists m, cascade_result syn E (editorUpdateSyntax E k) k m) /\
  (map hl_open_comment (row comment_doc) = [true; true; true] /\
   map hl (row comment_doc) = [repeat HL_MLCOMMENT 4; [HL_MLCOMMENT]; [HL_MLCOMMENT]] /\
   let E1 := editorRowInsertChar comment_doc 0 4 "*"%char in
   let E2 := editorRowInsertChar E1 0 5 "/"%char in
   map hl_open_comment (row E1) = [true; true; true] /\
   chars (row_at E2 0) = s2l "/* a*/" /\
   map hl_open_comment (row E2) = [false; false; false] /\
   map hl (row E2) = [repeat HL_MLCOMMENT 6; [HL_NORMAL]; [HL_NORMAL]]).
Proof.
  split.
  - intros E k syn Hw Hs Hk. apply update_syntax_fuel_cascade; auto; lia.
  - vm_compute. repeat split.
Qed.

(** C1 divergence: in the C file "// /*", "c", pressing Enter at column 3
    of row 0 inserts the row "/*" just before the last row. Its recompute
    turns its [hl_open_comment] on, yet row 2 is not recomputed, because
    [editorInsertRow] calls [editorUpdateRow] before [E.numrows++]: the
    test [row->idx + 1 < E.numrows] fails. Row 2 keeps the flag off and
    its plain highlight, while recomputing it gives a comment. *)
Lemma insert_row_cascade_stops_early :
  let E := editorInsertNewline (with_cursor split_doc 3 0) in
  map chars (row E) = [s2l "// "; s2l "/*"; s2l "c"] /\
  hl_open_comment (row_at E 1) = true /\
  hl_open_comment (row_at E 2) = false /\ hl (row_at E 2) = [HL_NORMAL] /\
  hl_open_comment (row_at (editorUpdateRow E 2) 2) = true /\
  hl (row_at (editorUpdateRow E 2) 2) = [HL_MLCOMMENT].
Proof. vm_compute. repeat split. Qed.

Lemma keyword_loop_some rend i kws kw :
  keyword_loop rend i kws = Some kw -> In kw kws /\ kw_matches rend i kw = true.
Proof.
  induction kws as [|k kws IH]; cbn; [discriminate|].
  destruct (kw_matches rend i k) eqn:Hm.
  - intros [= <-]. auto.
  - intros H. destruct (IH H). auto.
Qed.

Lemma keyword_loop_none rend i kws :
  keyword_loop rend i kws = None -> forall kw, In kw kws -> kw_matches rend i kw = false.
Proof.
  induction kws as [|k kws IH]; cbn; [intros _ _ []|].
  destruct (kw_matches rend i k) eqn:Hm; [discriminate|].
  intros H kw [<-|Hin]; auto.
Qed.

Lemma prefixb_app pat s : prefixb pat s = true -> s = pat ++ skipn (length pat) s.
Proof.
  revert s. induction pat as [|p pat IH]; intros [|c s]; cbn; try discriminate; auto.
  intros H. apply andb_true_iff in H. destruct H as [Hp H].
  apply Ascii.eqb_eq in Hp. subst. f_equal. apply IH. exact H.
Qed.

Lemma prefixb_refl_app pat t : prefixb pat (pat ++ t) = true.
Proof. induction pat; cbn; auto. rewrite Ascii.eqb_refl. exact IHpat. Qed.

Lemma char_at_skipn rend i n : char_at rend (i + n) = nth n (skipn i rend) NUL.
Proof.
  unfold char_at. revert i. induction rend as [|c rend IH]; intros [|i]; cbn; auto.
  - destruct n; reflexivity.
Qed.

(** Keyword texts of the C descriptor contain no separator. *)
Lemma C_keywords_no_separator kw c :
  In kw (keywords C_syntax) -> In c (kw_text kw) -> is_separator c = false.
Proof.
  intros Hkw Hc.
  assert (Hall : forallb (fun k => forallb (fun x => negb (is_separator x)) (kw_text k))
                         (keywords C_syntax) = true) by (vm_compute; reflexivity).
  rewrite forallb_forall in Hall. specialize (Hall kw Hkw).
  rewrite forallb_forall in Hall. specialize (Hall c Hc).
  apply negb_true_iff in Hall. exact Hall.
Qed.

(** Two keywords of the C descriptor with the same text are the same. *)
Lemma C_keywords_text_inj kw kw' :
  In kw (keywords C_syntax) -> In kw' (keywords C_syntax) -> kw_text kw = kw_text kw' -> kw = kw'.
Proof.
  intros H1 H2 He.
  assert (Hall : forallb (fun a => forallb (fun b =>
              if list_eq_dec ascii_dec (kw_text a) (kw_text b)
              then (if list_eq_dec ascii_dec a b then true else false) else true)
              (keywords C_syntax)) (keywords C_syntax) = true) by (vm_compute; reflexivity).
  rewrite forallb_forall in Hall. specialize (Hall kw H1).
  rewrite forallb_forall in Hall. specialize (Hall kw' H2).
  destruct (list_eq_dec ascii_dec (kw_text kw) (kw_text kw')); [|contradiction].
  destruct (list_eq_dec ascii_dec kw kw'); [assumption|discriminate].
Qed.

(** At a given position at most one keyword text of the C descriptor is
    followed by a separator: all matching texts are the same. *)
Lemma C_keyword_match_unique rend i kw kw' :
  In kw (keywords C_syntax) -> In kw' (keywords C_syntax) ->
  kw_matches rend i kw = true -> kw_matches rend i kw' = true -> kw_text kw = kw_text kw'.
Proof.
  intros H1 H2 M1 M2. unfold kw_matches, starts_with in M1, M2.
  apply andb_true_iff in M1, M2. destruct M1 as [P1 S1]. destruct M2 as [P2 S2].
  apply prefixb_app in P1, P2.
  set (t := kw_text kw) in *. set (t' := kw_text kw') in *.
  assert (Hlong : forall a b ka, In ka (keywords C_syntax) -> a = kw_text ka ->
            skipn i rend = b ++ skipn (length b) (skipn i rend) ->
            skipn i rend = a ++ skipn (length a) (skipn i rend) ->
            is_separator (char_at rend (i + length b)) = true -> ~ length b < length a).
  { intros a b ka Hka Ha Pb Pa Sb Hlt.
    rewrite char_at_skipn, Pa, app_nth1 in Sb by exact Hlt.
    rewrite (C_keywords_no_separator ka) in Sb; [discriminate|exact Hka|].
    rewrite <- Ha. apply nth_In. exact Hlt. }
  assert (Hlen : length t = length t').
  { destruct (Nat.lt_trichotomy (length t) (length t')) as [Hl|[Hl|Hl]]; [|exact Hl|].
    - exfalso. exact (Hlong t' t kw' H2 eq_refl P1 P2 S1 Hl).
    - exfalso. exact (Hlong t t' kw H1 eq_refl P2 P1 S2 Hl). }
  assert (F : forall u, skipn i rend = u ++ skipn (length u) (skipn i rend) ->
                       firstn (length u) (skipn i rend) = u).
  { intros u Hu. rewrite Hu at 1.
    rewrite firstn_app, Nat.sub_diag, firstn_O, app_nil_r, firstn_all. reflexivity. }
  rewrite <- (F t P1), <- (F t' P2), Hlen. reflexivity.
Qed.

(** C2: with the descriptor of [HLDB], when [prev_sep] is set and the
    scanner reaches the keyword step at position [i], the keyword loop
    picks a keyword whose text is at [i] and is followed by a separator;
    no other such keyword of the list is longer (in fact every such
    keyword has the same text); the span is marked [HL_KEYWORD2] for a
    keyword tagged with a trailing '|' and [HL_KEYWORD1] otherwise, and
    the scan resumes after the span. When no keyword matches, the step
    only moves on by one character. *)
Theorem keyword_step_longest syn rend st :
  In syn HLDB -> sc_prev_sep st = true ->
  (forall kw, keyword_loop rend (sc_i st) (keywords syn) = Some kw ->
     In kw (keywords syn) /\ kw_matches rend (sc_i st) kw = true /\
     (forall kw', In kw' (keywords syn) -> kw_matches rend (sc_i st) kw' = true ->
        length (kw_text kw') <= length (kw_text kw)) /\
     step_keyword syn rend st =
       Continue (mkScan (sc_i st + length (kw_text kw)) false (sc_in_string st) (sc_in_comment st)
                   (memset (sc_hl st) (sc_i st) (if kw2 kw then HL_KEYWORD2 else HL_KEYWORD1)
                           (length (kw_text kw))))) /\
  (keyword_loop rend (sc_i st) (keywords syn) = None ->
     (forall kw', In kw' (keywords syn) -> kw_matches rend (sc_i st) kw' = false) /\
     step_keyword syn rend st =
       Continue (mkScan (S (sc_i st)) (is_separator (char_at rend (sc_i st)))
                   (sc_in_string st) (sc_in_comment st) (sc_hl st))).
Proof.
  intros Hsyn Hp.
  destruct Hsyn as [<-|[]].
  split.
  - intros kw Hk. destruct (keyword_loop_some _ _ _ _ Hk) as [Hin Hm].
    split; [exact Hin|]. split; [exact Hm|]. split.
    + intros kw' Hin' Hm'.
      rewrite (C_keyword_match_unique rend (sc_i st) kw kw' Hin Hin' Hm Hm'). lia.
    + unfold step_keyword. rewrite Hp, Hk. reflexivity.
  - intros Hk. split; [apply keyword_loop_none; exact Hk|].
    unfold step_keyword. rewrite Hp, Hk. reflexivity.
Qed.

Lemma keyword_step_longest_witness :
  In C_syntax HLDB /\
  sc_prev_sep (scan_init (s2l "int x") false) = true /\
  keyword_loop (s2l "int x") 0 (keywords C_syntax) = Some (s2l "int|") /\
  step_keyword C_syntax (s2l "int x") (scan_init (s2l "int x") false)
  = Continue (mkScan 3 false None false [HL_KEYWORD2; HL_KEYWORD2; HL_KEYWORD2; HL_NORMAL; HL_NORMAL]).
Proof.
  assert (Hs : In C_syntax HLDB) by (left; reflexivity).
  assert (Hp : sc_prev_sep (scan_init (s2l "int x") false) = true) by reflexivity.
  assert (Hk : keyword_loop (s2l "int x") 0 (keywords C_syntax) = Some (s2l "int|"))
    by (vm_compute; reflexivity).
  split; [exact Hs|]. split; [exact Hp|]. split; [exact Hk|].
  destruct (keyword_step_longest C_syntax (s2l "int x") (scan_init (s2l "int x") false) Hs Hp)
    as [Hsome _].
  destruct (Hsome _ Hk) as [_ [_ [_ ->]]].
  vm_compute. reflexivity.
Defined.

Lemma C_keywords_nonempty kw : In kw (keywords C_syntax) -> 0 < length (kw_text kw).
Proof.
  intros Hkw.
  assert (Hall : forallb (fun k => 0 <? length (kw_text k)) (keywords C_syntax) = true)
    by (vm_compute; reflexivity).
  rewrite forallb_forall in Hall. apply Nat.ltb_lt, Hall, Hkw.
Qed.

(** C10: with the C descriptor, when the keyword step runs with
    [prev_sep] set at position [i] and the render from [i] to its end is
    exactly the text of a keyword, that keyword is highlighted with the
    class of its tag and the scan reaches the end of the row: the
    character read past the end is the NUL terminator, a separator.
    A separator before the keyword is not enough by itself: in "1.int"
    the '.' is highlighted as part of the number, which clears
    [prev_sep]. *)
Theorem keyword_at_row_end syn rend st kw :
  In syn HLDB -> In kw (keywords syn) -> sc_prev_sep st = true ->
  skipn (sc_i st) rend = kw_text kw ->
  char_at rend (sc_i st + length (kw_text kw)) = NUL /\ is_separator NUL = true /\
  step_keyword syn rend st =
    Continue (mkScan (length rend) false (sc_in_string st) (sc_in_comment st)
                (memset (sc_hl st) (sc_i st) (if kw2 kw then HL_KEYWORD2 else HL_KEYWORD1)
                        (length (kw_text kw)))).
Proof.
  intros Hsyn Hkw Hp Hsk. destruct Hsyn as [<-|[]].
  pose proof (C_keywords_nonempty kw Hkw) as Hne.
  assert (Hlen : sc_i st + length (kw_text kw) = length rend).
  { rewrite <- Hsk in Hne |- *. rewrite length_skipn in Hne |- *. lia. }
  assert (Hnul : char_at rend (sc_i st + length (kw_text kw)) = NUL).
  { rewrite Hlen. unfold char_at. apply nth_overflow. lia. }
  assert (Hm : kw_matches rend (sc_i st) kw = true).
  { unfold kw_matches, starts_with. rewrite Hsk, Hnul.
    rewrite <- (app_nil_r (kw_text kw)) at 2. rewrite prefixb_refl_app. reflexivity. }
  split; [exact Hnul|]. split; [reflexivity|].
  destruct (keyword_loop rend (sc_i st) (keywords C_syntax)) as [kw0|] eqn:Hk.
  - destruct (keyword_loop_some _ _ _ _ Hk) as [Hin0 Hm0].
    pose proof (C_keyword_match_unique _ _ _ _ Hin0 Hkw Hm0 Hm) as Ht.
    pose proof (C_keywords_text_inj _ _ Hin0 Hkw Ht) as ->.
    unfold step_keyword. rewrite Hp, Hk, Hlen. reflexivity.
  - rewrite (keyword_loop_none _ _ _ Hk kw Hkw) in Hm. discriminate.
Qed.

Lemma keyword_at_row_end_witness :
  let rend := s2l "x = int" in
  let st := mkScan 4 true None false (repeat HL_NORMAL 7) in
  In C_syntax HLDB /\ In (s2l "int|") (keywords C_syntax) /\ sc_prev_sep st = true /\
  skipn (sc_i st) rend = kw_text (s2l "int|") /\
  step_keyword C_syntax rend st
  = Continue (mkScan 7 false None false
                [HL_NORMAL; HL_NORMAL; HL_NORMAL; HL_NORMAL; HL_KEYWORD2; HL_KEYWORD2; HL_KEYWORD2]).
Proof.
  intros rend st.
  assert (H1 : In C_syntax HLDB) by (left; reflexivity).
  assert (H2 : In (s2l "int|") (keywords C_syntax)) by (vm_compute; tauto).
  assert (H3 : sc_prev_sep st = true) by reflexivity.
  assert (H4 : skipn (sc_i st) rend = kw_text (s2l "int|")) by (vm_compute; reflexivity).
  split; [exact H1|]. split; [exact H2|]. split; [exact H3|]. split; [exact H4|].
  destruct (keyword_at_row_end C_syntax rend st (s2l "int|") H1 H2 H3 H4) as [_ [_ ->]].
  vm_compute. reflexivity.
Defined.

(** C10 counterexample: the C row "1.int" ends with the keyword "int"
    after the separator '.', yet "int" is not highlighted. *)
Lemma number_dot_keyword_not_highlighted :
  sc_hl (scan_row C_syntax (s2l "1.int") false)
  = [HL_NUMBER; HL_NUMBER; HL_NORMAL; HL_NORMAL; HL_NORMAL] /\
  is_separator "."%char = true.
Proof. vm_compute. split; reflexivity. Qed.

Section PrevSep.
Variable syn : editorSyntax.
Variable rend : list ascii.

Lemma step_keyword_inv st st' :
  prev_sep_inv syn rend st -> step_keyword syn rend st = Continue st' -> prev_sep_inv syn rend st'.
Proof.
  intros [Hq _] Hs. unfold step_keyword in Hs.
  destruct (sc_prev_sep st); [destruct (keyword_loop _ _ _)|];
    injection Hs as <-; (split; [exact Hq|]); cbn; try discriminate.
  all: intros Hp _ _; right; left; simpl; rewrite ?Nat.sub_0_r; exact Hp.
Qed.

Lemma step_number_inv st st' :
  prev_sep_inv syn rend st -> step_number syn rend st = Continue st' -> prev_sep_inv syn rend st'.
Proof.
  intros Hi Hs. unfold step_number in Hs.
  destruct (_ && _); [|exact (step_keyword_inv _ _ Hi Hs)].
  injection Hs as <-. split; [exact (proj1 Hi)|]. cbn. discriminate.
Qed.

Lemma step_string_inv st st' :
  prev_sep_inv syn rend st -> step_string syn rend st = Continue st' -> prev_sep_inv syn rend st'.
Proof.
  intros Hi Hs. unfold step_string in Hs.
  destruct (flag_set syn HL_HIGHLIGHT_STRINGS); [|exact (step_number_inv _ _ Hi Hs)].
  pose proof Hi as Hi0. destruct Hi as [Hq Hp].
  destruct (sc_in_string st) as [q|] eqn:Hin.
  - destruct (_ && _).
    + injection Hs as <-. split; cbn; [exact Hq|]. intros _ Hn. discriminate.
    + injection Hs as <-. cbn.
      destruct (Ascii.eqb (char_at rend (sc_i st)) q) eqn:Hc.
      * apply Ascii.eqb_eq in Hc.
        split; [left; reflexivity|]. intros _ _ _. simpl; rewrite ?Nat.sub_0_r.
        rewrite Hc. destruct Hq as [Hq|[Hq|Hq]]; [discriminate|injection Hq as ->; tauto|injection Hq as ->; tauto].
      * split; [exact Hq|]. intros _ Hn. discriminate.
  - destruct (Ascii.eqb _ DQUOTE || Ascii.eqb _ _) eqn:Hc.
    + injection Hs as <-. cbn. split; [|intros _ Hn; discriminate].
      apply orb_true_iff in Hc. destruct Hc as [Hc|Hc]; apply Ascii.eqb_eq in Hc; rewrite Hc; tauto.
    + exact (step_number_inv _ _ Hi0 Hs).
Qed.

Lemma scan_step_inv st st' :
  prev_sep_inv syn rend st -> scan_step syn rend st = Continue st' -> prev_sep_inv syn rend st'.
Proof.
  intros Hi Hs. unfold scan_step in Hs. cbv zeta in Hs.
  destruct (_ && _ && _ && starts_with _ _ _); [discriminate|].
  destruct ((0 <? length (multiline_comment_start syn)) && (0 <? length (multiline_comment_end syn))
            && match sc_in_string st with None => true | Some _ => false end) eqn:Hg;
    [|exact (step_string_inv _ _ Hi Hs)].
  apply andb_true_iff in Hg. destruct Hg as [Hg Hns]. apply andb_true_iff in Hg.
  destruct Hg as [_ Hce]. apply Nat.ltb_lt in Hce.
  pose proof Hi as Hi0. destruct Hi as [Hq Hp].
  destruct (sc_in_comment st).
  - destruct (starts_with rend (sc_i st) (multiline_comment_end syn)) eqn:Hm.
    + injection Hs as <-. split; [exact Hq|]. cbn. intros _ _ _.
      right; right; right; right. split; [exact Hce|]. split; [lia|].
      rewrite Nat.add_sub. exact Hm.
    + injection Hs as <-. split; [exact Hq|]. cbn. intros _ _ Hc. discriminate.
  - destruct (starts_with rend (sc_i st) (multiline_comment_start syn)).
    + injection Hs as <-. split; [exact Hq|]. cbn. intros _ _ Hc. discriminate.
    + exact (step_string_inv _ _ Hi0 Hs).
Qed.

Lemma scan_reach_inv seed st : scan_reach syn rend seed st -> prev_sep_inv syn rend st.
Proof.
  induction 1 as [|st st' _ IH _ Hs].
  - split; [left; reflexivity|]. intros _ _ _. left. reflexivity.
  - exact (scan_step_inv _ _ IH Hs).
Qed.

End PrevSep.

(** C4: with the C descriptor, whenever the keyword step matches a keyword
    at a position the scan reaches (outside strings and comments, with
    [prev_sep] set), a separator or the NUL terminator follows the keyword,
    and the keyword starts the row or follows a separator or the closing
    quote of a string literal (the scanner sets [prev_sep] after every
    string character). So "intx" gets no keyword highlight and "int x"
    does. *)
Theorem keyword_needs_separators :
  (forall rend seed st kw,
     scan_reach C_syntax rend seed st -> sc_prev_sep st = true ->
     sc_in_string st = None -> sc_in_comment st = false ->
     keyword_loop rend (sc_i st) (keywords C_syntax) = Some kw ->
     (sc_i st = 0 \/ is_separator (char_at rend (sc_i st - 1)) = true \/
      char_at rend (sc_i st - 1) = DQUOTE \/ char_at rend (sc_i st - 1) = "'"%char) /\
     is_separator (char_at rend (sc_i st + length (kw_text kw))) = true) /\
  sc_hl (scan_row C_syntax (s2l "intx") false) = repeat HL_NORMAL 4 /\
  sc_hl (scan_row C_syntax (s2l "int x") false)
  = [HL_KEYWORD2; HL_KEYWORD2; HL_KEYWORD2; HL_NORMAL; HL_NORMAL].
Proof.
  split; [|vm_compute; split; reflexivity].
  intros rend seed st kw Hr Hp Hs Hc Hk.
  destruct (keyword_loop_some _ _ _ _ Hk) as [_ Hm].
  split.
  - destruct (scan_reach_inv _ _ _ _ Hr) as [_ Hi].
    destruct (Hi Hp Hs Hc) as [H|[H|[H|[H|[_ [Hle Hmce]]]]]]; auto.
    right; left.
    unfold starts_with in Hmce. apply prefixb_app in Hmce.
    change (length (multiline_comment_end C_syntax)) with 2 in Hle, Hmce.
    replace (sc_i st - 1) with (sc_i st - 2 + 1) by lia.
    rewrite char_at_skipn, Hmce. reflexivity.
  - unfold kw_matches in Hm. apply andb_true_iff in Hm. exact (proj2 Hm).
Qed.

(** C4 counterexample: in the C row ["x"int y] the keyword "int" follows
    the closing quote, which is not a separator, and is still highlighted. *)
Lemma keyword_after_string_highlighted :
  let rend := DQUOTE :: "x"%char :: DQUOTE :: s2l "int y" in
  is_separator (char_at rend 2) = false /\
  sc_hl (scan_row C_syntax rend false)
  = [HL_STRING; HL_STRING; HL_STRING; HL_KEYWORD2; HL_KEYWORD2; HL_KEYWORD2; HL_NORMAL; HL_NORMAL].
Proof. vm_compute. split; reflexivity. Qed.

(* ================================================================== *)
(** * Further properties of the editor *)

Ltac if_cases :=
  repeat match goal with
  | |- context [if ?b then _ else _] => destruct b eqn:?
  | H : context [if ?b then _ else _] |- _ => destruct b eqn:?
  end.

Ltac bool_facts :=
  repeat match goal with
  | H : (_ <? _) = true |- _ => apply Nat.ltb_lt in H
  | H : (_ <? _) = false |- _ => apply Nat.ltb_ge in H
  | H : (_ <=? _) = true |- _ => apply Nat.leb_le in H
  | H : (_ <=? _) = false |- _ => apply Nat.leb_gt in H
  | H : (_ =? _) = true |- _ => apply Nat.eqb_eq in H
  | H : (_ =? _) = false |- _ => apply Nat.eqb_neq in H
  | H : (_ && _) = true |- _ => apply andb_prop in H; destruct H
  | H : negb _ = true |- _ => apply negb_true_iff in H
  | H : negb _ = false |- _ => apply negb_false_iff in H
  end.

(** [editorMoveCursor] keeps the cursor on a row or the line after the last
    one, and within its row; it never changes the rows. *)
Theorem editorMoveCursor_keeps_cursor_valid E key :
  cy E <= numrows E ->
  let E' := editorMoveCursor E key in
  cursor_ok E' /\ numrows E' = numrows E /\ row E' = row E.
Proof.
  intros Hy. unfold editorMoveCursor, cursor_ok, with_cursor. cbn zeta.
  destruct (if (key =? ARROW_LEFT)%Z then _ else _) as [x y] eqn:Hxy.
  assert (Hy' : y <= numrows E).
  { revert Hxy. if_cases; intros Hxy; injection Hxy; intros; subst; bool_facts; lia. }
  cbn [cx cy numrows row]. split; [|split; reflexivity]. split; [exact Hy'|].
  unfold row_at; cbn [row]. fold (row_at E y).
  destruct (y <? numrows E); destruct (_ <? x) eqn:Hl; bool_facts; lia.
Qed.

Lemma move_right_within E :
  cy E < numrows E -> cx E < length (chars (row_at E (cy E))) ->
  editorMoveCursor E ARROW_RIGHT = with_cursor E (S (cx E)) (cy E).
Proof.
  intros H1 H2. unfold editorMoveCursor. cbn [Z.eqb ARROW_LEFT ARROW_RIGHT Pos.eqb].
  rewrite (proj2 (Nat.ltb_lt _ _) H1), (proj2 (Nat.ltb_lt _ _) H2). cbn [andb].
  rewrite (proj2 (Nat.ltb_lt _ _) H1).
  replace (length (chars (row_at E (cy E))) <? S (cx E)) with false
    by (symmetry; apply Nat.ltb_ge; lia). reflexivity.
Qed.

Lemma move_right_eol E :
  cy E < numrows E -> cx E = length (chars (row_at E (cy E))) ->
  editorMoveCursor E ARROW_RIGHT = with_cursor E 0 (S (cy E)).
Proof.
  intros H1 H2. unfold editorMoveCursor. cbn [Z.eqb ARROW_LEFT ARROW_RIGHT Pos.eqb].
  rewrite (proj2 (Nat.ltb_lt _ _) H1), H2, Nat.ltb_irrefl, Nat.eqb_refl. cbn [andb].
  destruct (S (cy E) <? numrows E); reflexivity.
Qed.

Lemma move_left_within E :
  0 < cx E -> cy E < numrows E -> cx E <= length (chars (row_at E (cy E))) ->
  editorMoveCursor E ARROW_LEFT = with_cursor E (cx E - 1) (cy E).
Proof.
  intros H0 H1 H2. unfold editorMoveCursor. cbn [Z.eqb ARROW_LEFT Pos.eqb].
  replace (negb (cx E =? 0)) with true by (symmetry; apply negb_true_iff, Nat.eqb_neq; lia).
  rewrite (proj2 (Nat.ltb_lt _ _) H1).
  replace (length (chars (row_at E (cy E))) <? cx E - 1) with false
    by (symmetry; apply Nat.ltb_ge; lia). reflexivity.
Qed.

Lemma move_left_bol E :
  cx E = 0 -> 0 < cy E -> cy E <= numrows E ->
  editorMoveCursor E ARROW_LEFT
  = with_cursor E (length (chars (row_at E (cy E - 1)))) (cy E - 1).
Proof.
  intros H0 H1 H2. unfold editorMoveCursor. cbn [Z.eqb ARROW_LEFT Pos.eqb].
  rewrite H0. cbn [negb Nat.eqb].
  rewrite (proj2 (Nat.ltb_lt _ _) H1).
  replace (cy E - 1 <? numrows E) with true by (symmetry; apply Nat.ltb_lt; lia).
  rewrite Nat.ltb_irrefl. reflexivity.
Qed.

(** [ARROW_LEFT] undoes [ARROW_RIGHT] on a row, and [ARROW_RIGHT] undoes
    [ARROW_LEFT] everywhere but at the top-left corner. *)
Theorem arrow_left_right_inverse E :
  cursor_ok E ->
  (cy E < numrows E ->
   let E' := editorMoveCursor (editorMoveCursor E ARROW_RIGHT) ARROW_LEFT in
   cx E' = cx E /\ cy E' = cy E) /\
  ((cx E, cy E) <> (0, 0) ->
   let E' := editorMoveCursor (editorMoveCursor E ARROW_LEFT) ARROW_RIGHT in
   cx E' = cx E /\ cy E' = cy E).
Proof.
  intros [Hy Hx]. split.
  - intros Hlt. rewrite (proj2 (Nat.ltb_lt _ _) Hlt) in Hx. cbv zeta.
    destruct (Nat.eq_dec (cx E) (length (chars (row_at E (cy E))))) as [He|He].
    + rewrite (move_right_eol E Hlt He).
      rewrite (move_left_bol (with_cursor E 0 (S (cy E))));
        cbn; unfold row_at in *; try lia.
      rewrite Nat.sub_0_r. split; [exact (eq_sym He)|reflexivity].
    + rewrite (move_right_within E Hlt ltac:(lia)).
      rewrite (move_left_within (with_cursor E (S (cx E)) (cy E)));
        cbn; unfold row_at in *; try lia; split; reflexivity.
  - intros Hne. cbv zeta.
    destruct (Nat.eqb_spec (cx E) 0) as [H0|H0].
    + assert (Hc : 0 < cy E) by (destruct (cy E); [rewrite H0 in Hne; congruence|lia]).
      rewrite (move_left_bol E H0 Hc Hy).
      rewrite (move_right_eol (with_cursor E _ (cy E - 1)));
        cbn; unfold row_at in *; try lia; try reflexivity; split; lia.
    + assert (Hlt : cy E < numrows E)
        by (destruct (Nat.ltb_spec (cy E) (numrows E)); lia).
      rewrite (proj2 (Nat.ltb_lt _ _) Hlt) in Hx.
      rewrite (move_left_within E ltac:(lia) Hlt Hx).
      rewrite (move_right_within (with_cursor E (cx E - 1) (cy E)));
        cbn; unfold row_at in *; try lia; split; lia.
Qed.

(** After [editorScroll] the cursor is on screen, and the offsets move only
    when it was not. *)
Theorem editorScroll_cursor_visible sr sc E :
  0 < sr -> 0 < sc ->
  let '(rx, E') := editorScroll sr sc E in
  E' = with_view E (cx E) (cy E) (rowoff E') (coloff E') /\
  rowoff E' <= cy E < rowoff E' + sr /\ coloff E' <= rx < coloff E' + sc /\
  (rowoff E <= cy E < rowoff E + sr -> rowoff E' = rowoff E) /\
  (coloff E <= rx < coloff E + sc -> coloff E' = coloff E).
Proof.
  intros Hr Hc. unfold editorScroll. cbv zeta.
  set (rx := if cy E <? numrows E then _ else 0). clearbody rx.
  cbn [rowoff coloff with_view].
  split; [reflexivity|].
  if_cases; bool_facts; lia.
Qed.

Lemma cx_to_rx_loop_render cs j n rx :
  j + n <= length cs ->
  cx_to_rx_loop cs j n rx = rx + length (render_tabs rx (firstn n (skipn j cs))).
Proof.
  revert j rx. induction n as [|n IH]; intros j rx Hl; [simpl; lia|].
  assert (Hj : j < length cs) by lia.
  destruct (skipn j cs) as [|c tl] eqn:Hs.
  { apply (f_equal (@length ascii)) in Hs. rewrite length_skipn in Hs. simpl in Hs. lia. }
  assert (Hc : char_at cs j = c).
  { replace j with (j + 0) at 1 by lia. rewrite char_at_skipn, Hs. reflexivity. }
  assert (Ht : skipn (S j) cs = tl).
  { replace (S j) with (1 + j) by lia. rewrite <- skipn_skipn, Hs. reflexivity. }
  cbn [cx_to_rx_loop firstn render_tabs]. rewrite Hc.
  rewrite IH by lia. rewrite Ht.
  assert (Hm : rx mod KILO_TAB_STOP < KILO_TAB_STOP) by (apply Nat.mod_upper_bound; discriminate).
  destruct (Ascii.eqb c TAB).
  - rewrite length_app, repeat_length.
    replace (S (rx + (KILO_TAB_STOP - 1 - rx mod KILO_TAB_STOP)))
      with (rx + (KILO_TAB_STOP - rx mod KILO_TAB_STOP)) by (unfold KILO_TAB_STOP in *; lia).
    lia.
  - cbn [length]. lia.
Qed.

(** [editorRowCxToRx] at [cx] is the width of the first [cx] characters once
    rendered; at the end of a row it is the length of the render
    [editorUpdateRow] builds. *)
Theorem cx_to_rx_is_render_width :
  (forall r cx, cx <= length (chars r) ->
     editorRowCxToRx r cx = length (render_tabs 0 (firstn cx (chars r)))) /\
  (forall E k, k < length (row E) ->
     let r := row_at (editorUpdateRow E k) k in
     editorRowCxToRx r (length (chars r)) = length (render r)).
Proof.
  assert (H1 : forall r cx, cx <= length (chars r) ->
     editorRowCxToRx r cx = length (render_tabs 0 (firstn cx (chars r)))).
  { intros r cx Hcx. unfold editorRowCxToRx. rewrite cx_to_rx_loop_render by lia.
    reflexivity. }
  split; [exact H1|].
  intros E k Hk r. rewrite H1 by lia. rewrite firstn_all.
  subst r. rewrite render_row_updated by exact Hk.
  rewrite !chars_row_at, editorUpdateRow_chars. reflexivity.
Qed.

Lemma editorRowInsertChar_core E k at_ c :
  let r := chars (row_at E k) in
  let a := if (at_ <? 0)%Z || (Z.of_nat (length r) <? at_)%Z then length r else Z.to_nat at_ in
  core (editorRowInsertChar E k at_ c)
  = (cx E, cy E, numrows E, S (dirty E), set_nth (chars_of E) k (firstn a r ++ c :: skipn a r)).
Proof.
  intros r a. pose proof (editorRowInsertChar_chars E k at_ c) as Hc. cbv zeta in Hc.
  unfold editorRowInsertChar in *. cbv zeta in *.
  set (E1 := editorUpdateRow _ k) in *.
  assert (Hu : core E1 = core (set_row E k (with_chars (row_at E k)
                   (firstn a (chars (row_at E k)) ++ c :: skipn a (chars (row_at E k))))))
    by apply editorUpdateRow_core.
  unfold core in *. cbn [cx cy numrows dirty with_counts]. rewrite Hc.
  injection Hu; intros _ Hd Hn Hy Hx. rewrite Hd, Hn, Hy, Hx. reflexivity.
Qed.

Lemma core_eq_parts E a b c d e :
  core E = (a, b, c, d, e) ->
  cx E = a /\ cy E = b /\ numrows E = c /\ dirty E = d /\ chars_of E = e.
Proof. unfold core; intros H; injection H; intros; repeat split; assumption. Qed.

Lemma length_chars_of E : length (chars_of E) = length (row E).
Proof. unfold chars_of. apply length_map. Qed.

(** The two cases of [editorInsertChar] on the characters of the rows. *)
Lemma editorInsertChar_inserts_aux E c :
  length (row E) = numrows E ->
  (cy E = numrows E ->
     core (editorInsertChar E c)
     = (S (cx E), cy E, S (numrows E), S (S (dirty E)), chars_of E ++ [[c]])) /\
  (forall pre r post,
     chars_of E = pre ++ r :: post -> cy E = length pre -> cx E <= length r ->
     core (editorInsertChar E c)
     = (S (cx E), cy E, numrows E, S (dirty E),
        pre ++ (firstn (cx E) r ++ c :: skipn (cx E) r) :: post)).
Proof.
  intros Hl. split.
  - intros Hy. unfold editorInsertChar. rewrite Hy, Nat.eqb_refl. cbv zeta.
    pose proof (editorInsertRow_core E (chars_of E) [] [] ltac:(rewrite app_nil_r; reflexivity)
                  ltac:(rewrite length_chars_of; lia)) as H1.
    rewrite length_chars_of, Hl in H1.
    set (E1 := editorInsertRow (numrows E) [] E) in *.
    pose proof (editorRowInsertChar_core E1 (cy E1) (Z.of_nat (cx E1)) c) as H2.
    cbv zeta in H2.
    set (E2 := editorRowInsertChar E1 _ _ c) in *.
    rewrite core_with_cursor. destruct (core_eq_parts _ _ _ _ _ _ H1) as (Ex1 & Ey1 & En1 & Ed1 & Ec1).
    assert (Hr : chars (row_at E1 (cy E1)) = []).
    { rewrite chars_row_at, Ec1, Ey1, Hy, <- Hl, <- length_chars_of. apply nth_app_len. }
    rewrite Hr in H2. cbn [length firstn skipn] in H2.
    assert (Hf : forall a : nat, firstn a (@nil ascii) ++ c :: skipn a [] = [c])
      by (intros [|a]; reflexivity).
    rewrite Hf in H2. destruct (core_eq_parts _ _ _ _ _ _ H2) as (Ex2 & Ey2 & En2 & Ed2 & Ec2).
    rewrite Ex2, Ey2, En2, Ed2, Ec2, Ex1, Ey1, En1, Ed1, Ec1, Hy.
    rewrite <- Hl, <- length_chars_of, set_nth_app_len. reflexivity.
  - intros pre r post Hs Hy Hx.
    assert (Hlt : cy E < numrows E)
      by (rewrite <- Hl, <- length_chars_of, Hs, length_app; simpl; lia).
    unfold editorInsertChar.
    replace (cy E =? numrows E) with false by (symmetry; apply Nat.eqb_neq; lia). cbv zeta.
    pose proof (editorRowInsertChar_core E (cy E) (Z.of_nat (cx E)) c) as H2. cbv zeta in H2.
    assert (Hr : chars (row_at E (cy E)) = r) by (rewrite chars_row_at, Hs, Hy; apply nth_app_len).
    rewrite Hr in H2.
    replace ((Z.of_nat (cx E) <? 0)%Z || (Z.of_nat (length r) <? Z.of_nat (cx E))%Z) with false
      in H2 by (symmetry; apply orb_false_iff; split; apply Z.ltb_ge; lia).
    rewrite Nat2Z.id in H2.
    rewrite core_with_cursor. destruct (core_eq_parts _ _ _ _ _ _ H2) as (Ex2 & Ey2 & En2 & Ed2 & Ec2).
    rewrite Ex2, Ey2, En2, Ed2, Ec2, Hs, Hy, set_nth_app_len. reflexivity.
Qed.

(** Typing a character inserts it at the cursor column of the cursor row
    and moves the cursor right; on the line past the last row it first
    appends an empty row. *)
Theorem editorInsertChar_inserts E c :
  length (row E) = numrows E ->
  (cy E = numrows E ->
     core (editorInsertChar E c)
     = (S (cx E), cy E, S (numrows E), S (S (dirty E)), chars_of E ++ [[c]])) /\
  (forall pre r post,
     chars_of E = pre ++ r :: post -> cy E = length pre -> cx E <= length r ->
     core (editorInsertChar E c)
     = (S (cx E), cy E, numrows E, S (dirty E),
        pre ++ (firstn (cx E) r ++ c :: skipn (cx E) r) :: post)).
Proof. exact (editorInsertChar_inserts_aux E c). Qed.

Lemma editorRowDelChar_core E k at_ :
  let r := chars (row_at E k) in
  (0 <= at_ < Z.of_nat (length r))%Z ->
  core (editorRowDelChar E k at_)
  = (cx E, cy E, numrows E, S (dirty E),
     set_nth (chars_of E) k (firstn (Z.to_nat at_) r ++ skipn (S (Z.to_nat at_)) r)).
Proof.
  intros r Hr. pose proof (editorRowDelChar_chars E k at_) as Hc. cbv zeta in Hc.
  fold r in Hc.
  replace ((at_ <? 0)%Z || (Z.of_nat (length r) <=? at_)%Z) with false in Hc
    by (symmetry; apply orb_false_iff; split; [apply Z.ltb_ge|apply Z.leb_gt]; lia).
  unfold editorRowDelChar in *. cbv zeta in *. fold r in Hc |- *.
  replace ((at_ <? 0)%Z || (Z.of_nat (length r) <=? at_)%Z) with false in *
    by (symmetry; apply orb_false_iff; split; [apply Z.ltb_ge|apply Z.leb_gt]; lia).
  set (E1 := editorUpdateRow _ k) in *.
  assert (Hu : core E1 = core (set_row E k (with_chars (row_at E k)
                   (firstn (Z.to_nat at_) r ++ skipn (S (Z.to_nat at_)) r))))
    by apply editorUpdateRow_core.
  unfold core in *. cbn [cx cy numrows dirty with_counts]. rewrite Hc.
  injection Hu; intros _ Hd Hn Hy Hx. rewrite Hd, Hn, Hy, Hx. reflexivity.
Qed.

(** Backspace inside a row removes the character left of the cursor. *)
Lemma editorDelChar_mid_core E pre r post :
  chars_of E = pre ++ r :: post -> cy E = length pre -> cy E < numrows E ->
  0 < cx E -> cx E <= length r ->
  core (editorDelChar E)
  = (cx E - 1, cy E, numrows E, S (dirty E),
     pre ++ (firstn (cx E - 1) r ++ skipn (cx E) r) :: post).
Proof.
  intros Hs Hy Hlt H0 Hx. unfold editorDelChar.
  replace (cy E =? numrows E) with false by (symmetry; apply Nat.eqb_neq; lia).
  replace ((cx E =? 0) && (cy E =? 0)) with false
    by (symmetry; apply andb_false_iff; left; apply Nat.eqb_neq; lia).
  replace (0 <? cx E) with true by (symmetry; apply Nat.ltb_lt; lia). cbv zeta.
  assert (Hr : chars (row_at E (cy E)) = r) by (rewrite chars_row_at, Hs, Hy; apply nth_app_len).
  pose proof (editorRowDelChar_core E (cy E) (Z.of_nat (cx E - 1))) as H1. cbv zeta in H1.
  rewrite Hr, Nat2Z.id in H1. specialize (H1 ltac:(lia)).
  rewrite core_with_cursor.
  destruct (core_eq_parts _ _ _ _ _ _ H1) as (Ex1 & Ey1 & En1 & Ed1 & Ec1).
  rewrite En1, Ed1, Ec1, Hs, Hy, set_nth_app_len.
  replace (S (cx E - 1)) with (cx E) by lia. reflexivity.
Qed.

(** Typing a character and pressing Backspace gives back the text and the
    cursor; on the line past the last row the row the typing created stays,
    empty. *)
Theorem type_then_backspace E c :
  length (row E) = numrows E -> cursor_ok E ->
  let E' := editorDelChar (editorInsertChar E c) in
  cx E' = cx E /\ cy E' = cy E /\
  (cy E < numrows E -> chars_of E' = chars_of E /\ numrows E' = numrows E) /\
  (cy E = numrows E -> chars_of E' = chars_of E ++ [[]] /\ numrows E' = S (numrows E)).
Proof.
  intros Hl [Hy Hx] E'.
  destruct (editorInsertChar_inserts_aux E c Hl) as [Hend Hmid].
  destruct (Nat.eq_dec (cy E) (numrows E)) as [He|He].
  - rewrite He, Nat.ltb_irrefl in Hx.
    pose proof (Hend He) as H1.
    destruct (core_eq_parts _ _ _ _ _ _ H1) as (Ex1 & Ey1 & En1 & Ed1 & Ec1).
    replace (cx E) with 0 in * by lia.
    pose proof (editorDelChar_mid_core (editorInsertChar E c) (chars_of E) [c] []) as H2.
    rewrite Ec1, Ey1, En1, Ex1, He, <- Hl, <- length_chars_of in H2.
    specialize (H2 eq_refl eq_refl ltac:(lia) ltac:(lia) ltac:(simpl; lia)).
    fold E' in H2.
    destruct (core_eq_parts _ _ _ _ _ _ H2) as (Ex2 & Ey2 & En2 & Ed2 & Ec2).
    rewrite length_chars_of, Hl in Ey2, En2. cbn in Ec2.
    repeat split; intros; try lia. exact Ec2.
  - assert (Hlt : cy E < numrows E) by lia.
    rewrite (proj2 (Nat.ltb_lt _ _) Hlt) in Hx.
    assert (Hl' : cy E < length (chars_of E)) by (rewrite length_chars_of; lia).
    destruct (nth_split (chars_of E) [] Hl') as (pre & post & Hs & Hp).
    set (r := nth (cy E) (chars_of E) []) in Hs.
    assert (Hr : chars (row_at E (cy E)) = r) by apply chars_row_at.
    rewrite Hr in Hx.
    pose proof (Hmid pre r post Hs (eq_sym Hp) Hx) as H1.
    destruct (core_eq_parts _ _ _ _ _ _ H1) as (Ex1 & Ey1 & En1 & Ed1 & Ec1).
    pose proof (editorDelChar_mid_core (editorInsertChar E c) pre
                  (firstn (cx E) r ++ c :: skipn (cx E) r) post) as H2.
    rewrite Ec1, Ey1, En1, Ex1 in H2.
    assert (Hlf : length (firstn (cx E) r) = cx E) by (rewrite length_firstn; lia).
    specialize (H2 eq_refl (eq_sym Hp) Hlt ltac:(lia)
                  ltac:(rewrite length_app, Hlf; simpl; lia)).
    fold E' in H2.
    destruct (core_eq_parts _ _ _ _ _ _ H2) as (Ex2 & Ey2 & En2 & Ed2 & Ec2).
    replace (S (cx E) - 1) with (cx E) in Ec2 by lia.
    rewrite (firstn_app_skipn_insert r (cx E) c) in Ec2 by lia.
    repeat split; intros; try lia. rewrite Ec2, Hs. reflexivity.
Qed.

Lemma keypress_del sr sc sys qt fs E ks :
  editorProcessKeypress sr sc sys qt fs E (DEL_KEY :: ks)
  = KP_next KILO_QUIT_TIMES fs (editorDelChar (editorMoveCursor E ARROW_RIGHT)) ks.
Proof. reflexivity. Qed.

Lemma chars_of_with_cursor E x y : chars_of (with_cursor E x y) = chars_of E.
Proof. reflexivity. Qed.

(** The DEL key removes the character under the cursor; at the end of a row
    it joins the next row onto it; at the end of the last row it only moves
    the cursor to the line past the end. *)
Theorem del_key_effect sr sc sys qt fs E pre r post ks :
  length (row E) = numrows E ->
  chars_of E = pre ++ r :: post -> cy E = length pre -> cx E <= length r ->
  exists E',
    editorProcessKeypress sr sc sys qt fs E (DEL_KEY :: ks) = KP_next KILO_QUIT_TIMES fs E' ks /\
    (cx E < length r ->
       core E' = (cx E, cy E, numrows E, S (dirty E),
                  pre ++ (firstn (cx E) r ++ skipn (S (cx E)) r) :: post)) /\
    (forall r' post', cx E = length r -> post = r' :: post' ->
       core E' = (cx E, cy E, numrows E - 1, S (S (dirty E)), pre ++ (r ++ r') :: post')) /\
    (cx E = length r -> post = [] ->
       core E' = (0, S (cy E), numrows E, dirty E, chars_of E)).
Proof.
  intros Hl Hs Hy Hx. eexists. split; [apply keypress_del|].
  assert (Hn : numrows E = S (length pre + length post))
    by (rewrite <- Hl, <- length_chars_of, Hs, length_app; simpl; lia).
  assert (Hlt : cy E < numrows E) by lia.
  assert (Hr : chars (row_at E (cy E)) = r) by (rewrite chars_row_at, Hs, Hy; apply nth_app_len).
  split; [|split].
  - intros Hc. rewrite (move_right_within E Hlt ltac:(rewrite Hr; lia)).
    pose proof (editorDelChar_mid_core (with_cursor E (S (cx E)) (cy E)) pre r post Hs Hy Hlt)
      as H. cbn [cx cy with_cursor] in H. specialize (H ltac:(lia) ltac:(lia)).
    rewrite H. cbn [cx cy numrows dirty with_cursor]. rewrite Nat.sub_succ, Nat.sub_0_r.
    reflexivity.
  - intros r' post' Hc Hp. subst post.
    rewrite (move_right_eol E Hlt ltac:(rewrite Hr; lia)).
    pose proof (editorDelChar_join_core (with_cursor E 0 (S (cy E))) pre r r' post' Hs)
      as H. cbn [cx cy numrows with_cursor] in H. specialize (H ltac:(lia) ltac:(simpl in Hn; lia) eq_refl).
    rewrite H. cbn [dirty with_cursor]. rewrite Hc, Hy. reflexivity.
  - intros Hc Hp. subst post.
    rewrite (move_right_eol E Hlt ltac:(rewrite Hr; lia)).
    unfold editorDelChar. cbn [cy numrows with_cursor].
    replace (S (cy E) =? numrows E) with true by (symmetry; apply Nat.eqb_eq; simpl in Hn; lia).
    reflexivity.
Qed.

Lemma keypress_quit sr sc sys qt fs E ks :
  editorProcessKeypress sr sc sys qt fs E (CTRL_KEY 113 :: ks)
  = if negb (dirty E =? 0) && (0 <? qt) then
      KP_next (qt - 1) fs
        (editorSetStatusMessage E (quit_warning_pre ++ fmt_int qt ++ quit_warning_post)) ks
    else KP_exit.
Proof. reflexivity. Qed.

Lemma dirty_refresh sr sc E : dirty (editorRefreshScreen sr sc E) = dirty E.
Proof. reflexivity. Qed.

Lemma chars_of_refresh sr sc E : chars_of (editorRefreshScreen sr sc E) = chars_of E.
Proof. reflexivity. Qed.

(** Ctrl-Q with unsaved changes only warns, three times in a row; the
    fourth Ctrl-Q in a row exits.  With no unsaved changes the first one
    exits. *)
Theorem quit_countdown sr sc sys fs E ks :
  (dirty E <> 0 ->
     (exists E', main_loop sr sc sys 3 KILO_QUIT_TIMES fs E
                   (CTRL_KEY 113 :: CTRL_KEY 113 :: CTRL_KEY 113 :: ks) = KP_next 0 fs E' ks /\
                 chars_of E' = chars_of E /\ dirty E' = dirty E) /\
     main_loop sr sc sys 4 KILO_QUIT_TIMES fs E
       (CTRL_KEY 113 :: CTRL_KEY 113 :: CTRL_KEY 113 :: CTRL_KEY 113 :: ks) = KP_exit) /\
  (dirty E = 0 -> forall qt, main_loop sr sc sys 1 qt fs E (CTRL_KEY 113 :: ks) = KP_exit).
Proof.
  split.
  - intros Hd.
    assert (Hb : forall X, dirty X = dirty E -> negb (dirty X =? 0) = true)
      by (intros X HX; rewrite HX; apply negb_true_iff, Nat.eqb_neq; exact Hd).
    unfold KILO_QUIT_TIMES. split.
    + eexists. cbn [main_loop]. rewrite keypress_quit.
      rewrite Hb by reflexivity. cbn [andb Nat.ltb Nat.leb Nat.sub].
      rewrite keypress_quit.
      rewrite Hb by reflexivity. cbn [andb Nat.ltb Nat.leb Nat.sub].
      rewrite keypress_quit.
      rewrite Hb by reflexivity. cbn [andb Nat.ltb Nat.leb Nat.sub].
      split; [reflexivity|split; reflexivity].
    + cbn [main_loop]. rewrite keypress_quit.
      rewrite Hb by reflexivity. cbn [andb Nat.ltb Nat.leb Nat.sub].
      rewrite keypress_quit.
      rewrite Hb by reflexivity. cbn [andb Nat.ltb Nat.leb Nat.sub].
      rewrite keypress_quit.
      rewrite Hb by reflexivity. cbn [andb Nat.ltb Nat.leb Nat.sub].
      rewrite keypress_quit. rewrite Hb by reflexivity. reflexivity.
  - intros Hd qt. cbn [main_loop]. rewrite keypress_quit, dirty_refresh, Hd. reflexivity.
Qed.

Lemma int_to_char_signed b : int_to_char (signed_char b) = b.
Proof.
  unfold int_to_char, signed_char.
  pose proof (nat_ascii_bounded b) as Hb.
  destruct (Z.ltb_spec (Z.of_nat (nat_of_ascii b)) 128).
  - rewrite Z.mod_small by lia. rewrite Nat2Z.id. apply ascii_nat_embedding.
  - replace ((Z.of_nat (nat_of_ascii b) - 256) mod 256)%Z with (Z.of_nat (nat_of_ascii b)).
    + rewrite Nat2Z.id. apply ascii_nat_embedding.
    + rewrite <- (Z.mod_add _ 1 256) by lia. rewrite Z.mod_small; lia.
Qed.

Lemma keypress_default sr sc sys qt fs E k ks :
  ~ In k [KEY_ENTER; CTRL_KEY 113; CTRL_KEY 115; CTRL_KEY 102; CTRL_KEY 104; BACKSPACE;
          CTRL_KEY 108; KEY_ESC] ->
  (k < 1000)%Z ->
  editorProcessKeypress sr sc sys qt fs E (k :: ks)
  = KP_next KILO_QUIT_TIMES fs (editorInsertChar E (int_to_char k)) ks.
Proof.
  intros Hn Hk. cbn [In] in Hn.
  unfold editorProcessKeypress.
  change (CTRL_KEY 113) with 17%Z in *. change (CTRL_KEY 115) with 19%Z in *.
  change (CTRL_KEY 102) with 6%Z in *. change (CTRL_KEY 104) with 8%Z in *.
  change (CTRL_KEY 108) with 12%Z in *.
  unfold KEY_ENTER, KEY_ESC, BACKSPACE, HOME_KEY, END_KEY, DEL_KEY, PAGE_UP, PAGE_DOWN,
    ARROW_UP, ARROW_DOWN, ARROW_LEFT, ARROW_RIGHT in *.
  repeat match goal with
  | |- context [(k =? ?c)%Z] =>
      replace (k =? c)%Z with false by (symmetry; apply Z.eqb_neq; intros ->; tauto || lia)
  end.
  reflexivity.
Qed.

(** A byte other than ESC, Enter, Ctrl-Q/S/F/H/L and DEL (127) is read as
    one key in [-128, 127] and inserted as that same byte, also a control
    byte such as Tab or Ctrl-J, or a byte of 128 or more. *)
Theorem plain_byte_inserted sr sc sys qt fs E b inp ks :
  ~ In (nat_of_ascii b) [27; 13; 17; 19; 6; 8; 127; 12] ->
  exists k,
    editorReadKey (b :: inp) = Some (k, inp) /\ (-128 <= k < 128)%Z /\
    editorProcessKeypress sr sc sys qt fs E (k :: ks)
    = KP_next KILO_QUIT_TIMES fs (editorInsertChar E b) ks.
Proof.
  intros Hn. exists (signed_char b).
  pose proof (nat_ascii_bounded b) as Hb.
  assert (Hesc : Ascii.eqb b "027"%char = false).
  { apply Ascii.eqb_neq. intros ->. apply Hn. cbn. tauto. }
  split; [unfold editorReadKey; rewrite Hesc; reflexivity|].
  assert (Hr : (-128 <= signed_char b < 128)%Z).
  { unfold signed_char. destruct (Z.ltb_spec (Z.of_nat (nat_of_ascii b)) 128); lia. }
  split; [exact Hr|].
  rewrite keypress_default.
  - rewrite int_to_char_signed. reflexivity.
  - intros Hin. apply Hn.
    assert (Hs : signed_char b = Z.of_nat (nat_of_ascii b) \/
                 (signed_char b < 0)%Z).
    { unfold signed_char. destruct (Z.ltb_spec (Z.of_nat (nat_of_ascii b)) 128); [left|right]; lia. }
    change (CTRL_KEY 113) with 17%Z in Hin. change (CTRL_KEY 115) with 19%Z in Hin.
    change (CTRL_KEY 102) with 6%Z in Hin. change (CTRL_KEY 104) with 8%Z in Hin.
    change (CTRL_KEY 108) with 12%Z in Hin.
    unfold KEY_ENTER, KEY_ESC, BACKSPACE in Hin.
    cbn [In] in Hin |- *. destruct Hs as [Hs|Hs]; rewrite ?Hs in Hin; lia.
  - lia.
Qed.


Lemma int_to_char_no_control c :
  (-128 <= c)%Z -> c_iscntrl c = false -> (c < 128)%Z ->
  32 <= nat_of_ascii (int_to_char c) /\ nat_of_ascii (int_to_char c) <> 127.
Proof.
  intros H1 H2 H3. unfold c_iscntrl in H2. apply orb_false_iff in H2 as [H2 H4].
  apply Z.eqb_neq in H4.
  unfold int_to_char.
  assert (Hm : (0 <= c mod 256 < 256)%Z) by (apply Z.mod_pos_bound; lia).
  rewrite nat_ascii_embedding by lia.
  destruct (Z.leb_spec 0 c) as [H0|H0].
  - rewrite Z.mod_small by lia.
    cbn [andb] in H2. apply Z.ltb_ge in H2. lia.
  - replace (c mod 256)%Z with (c + 256)%Z.
    + lia.
    + rewrite <- (Z.mod_add c 1 256) by lia. rewrite Z.mod_small; lia.
Qed.

Lemma Forall_removelast {X} (P : X -> Prop) l : Forall P l -> Forall P (removelast l).
Proof.
  induction 1 as [|x l Hx Hl IH]; [constructor|].
  destruct l as [|y l]; [constructor|]. cbn. constructor; assumption.
Qed.

Lemma prompt_loop_done A sr sc pre post cb keys buf a E res a' E' rest :
  Forall (fun k => (-128 <= k)%Z) keys -> no_control buf ->
  prompt_loop (A := A) sr sc pre post cb keys buf a E = Prompt_done res a' E' rest ->
  exists typed k, keys = typed ++ k :: rest /\ ~ In KEY_ESC typed /\
    ((k = KEY_ESC /\ res = None) \/
     (k = KEY_ENTER /\ exists b, res = Some b /\ b <> [] /\ no_control b)).
Proof.
  revert buf a E. induction keys as [|c ks IH]; intros buf a E Hk Hb H; [discriminate|].
  inversion Hk as [|? ? Hc Hks]; subst.
  cbn [prompt_loop] in H.
  set (E1 := editorRefreshScreen _ _ _) in H.
  assert (Hcons : forall buf' a1 E2, no_control buf' -> c <> KEY_ESC ->
            prompt_loop sr sc pre post cb ks buf' a1 E2 = Prompt_done res a' E' rest ->
            exists typed k, c :: ks = typed ++ k :: rest /\ ~ In KEY_ESC typed /\
              ((k = KEY_ESC /\ res = None) \/
               (k = KEY_ENTER /\ exists b, res = Some b /\ b <> [] /\ no_control b))).
  { intros buf' a1 E2 Hb' Hne H'.
    destruct (IH buf' a1 E2 Hks Hb' H') as (typed & k & Heq & Hni & Hor).
    exists (c :: typed), k. split; [rewrite Heq; reflexivity|]. split; [|exact Hor].
    cbn. intros [He|He]; [congruence|tauto]. }
  destruct (Z.eqb_spec c KEY_ESC) as [He|He].
  { subst c. cbn in H. destruct (run_callback cb a _ buf KEY_ESC) as [a1 E2].
    injection H as <- <- <- <-. exists [], KEY_ESC. split; [reflexivity|].
    split; [cbn; tauto|]. left; split; reflexivity. }
  destruct ((c =? DEL_KEY)%Z || (c =? CTRL_KEY 104)%Z || (c =? BACKSPACE)%Z) eqn:Hd.
  { destruct (run_callback cb a E1 (removelast buf) c) as [a1 E2].
    exact (Hcons _ _ _ (Forall_removelast _ _ Hb) He H). }
  destruct (Z.eqb_spec c KEY_ENTER) as [Hen|Hen].
  { subst c. destruct (negb (length buf =? 0)) eqn:Hl.
    - destruct (run_callback cb a _ buf KEY_ENTER) as [a1 E2].
      injection H as <- <- <- <-. exists [], KEY_ENTER. split; [reflexivity|].
      split; [cbn; tauto|]. right. split; [reflexivity|]. exists buf.
      split; [reflexivity|]. split; [|exact Hb].
      intros ->. discriminate.
    - destruct (run_callback cb a E1 buf KEY_ENTER) as [a1 E2].
      exact (Hcons _ _ _ Hb He H). }
  destruct (negb (c_iscntrl c) && (c <? 128))%Z eqn:Hp.
  { destruct (run_callback cb a E1 (buf ++ [int_to_char c]) c) as [a1 E2].
    refine (Hcons _ _ _ _ He H).
    apply andb_prop in Hp as [Hp1 Hp2]. apply negb_true_iff in Hp1. apply Z.ltb_lt in Hp2.
    unfold no_control. apply Forall_app. split; [exact Hb|].
    constructor; [|constructor]. apply int_to_char_no_control; assumption. }
  destruct (run_callback cb a E1 buf c) as [a1 E2].
  exact (Hcons _ _ _ Hb He H).
Qed.

(** [editorPrompt] returns [NULL] exactly at an ESC key, and otherwise
    returns at an Enter key a non-empty buffer without control characters;
    the keys after that key are left unread. *)
Theorem editorPrompt_result A sr sc pre post cb keys a E res a' E' rest :
  Forall (fun k => (-128 <= k)%Z) keys ->
  editorPrompt (A := A) sr sc pre post cb keys a E = Prompt_done res a' E' rest ->
  exists typed k, keys = typed ++ k :: rest /\ ~ In KEY_ESC typed /\
    ((k = KEY_ESC /\ res = None) \/
     (k = KEY_ENTER /\ exists b, res = Some b /\ b <> [] /\ no_control b)).
Proof. intros Hk H. exact (prompt_loop_done A sr sc pre post cb keys [] a E res a' E' rest Hk (Forall_nil _) H). Qed.

Lemma prefixb_length pat s : prefixb pat s = true -> length pat <= length s.
Proof.
  revert s; induction pat as [|p pat IH]; intros [|c s] H; cbn in *; try lia; try discriminate.
  apply andb_prop in H as [_ H]. specialize (IH s H). lia.
Qed.

Lemma strstr_from_bound h n i j :
  strstr_from h n i = Some j -> i <= j /\ j - i + length n <= length h.
Proof.
  revert i; induction h as [|c h IH]; intros i H; cbn in H.
  - destruct (prefixb n []) eqn:Hp; [|discriminate]. injection H as <-.
    apply prefixb_length in Hp. cbn in *. lia.
  - destruct (prefixb n (c :: h)) eqn:Hp.
    + injection H as <-. apply prefixb_length in Hp. lia.
    + destruct (IH _ H). cbn. lia.
Qed.

Lemma c_str_length s : length (c_str s) <= length s.
Proof.
  induction s as [|c s IH]; cbn; [lia|]. destruct (Ascii.eqb c NUL); cbn; lia.
Qed.

Lemma strstr_bound_c h n off :
  strstr h n = Some off -> off + length (c_str n) <= length (c_str h).
Proof. unfold strstr. intros H. apply strstr_from_bound in H. lia. Qed.

Lemma strstr_bound h n off : strstr h n = Some off -> off + length (c_str n) <= length h.
Proof.
  unfold strstr. intros H. apply strstr_from_bound in H. pose proof (c_str_length h). lia.
Qed.

Lemma find_loop_some E q dir c n cur off :
  find_loop E q dir c n = Some (cur, off) ->
  strstr (render (row_at E (Z.to_nat cur))) q = Some off.
Proof.
  revert c; induction n as [|n IH]; intros c H; cbn [find_loop] in H; [discriminate|].
  match type of H with context [strstr ?x q] => destruct (strstr x q) as [o|] eqn:Hs end.
  - injection H as <- <-. exact Hs.
  - exact (IH _ H).
Qed.

Lemma skipn_set_nth_lt {X} (l : list X) p v n : p < n -> skipn n (set_nth l p v) = skipn n l.
Proof.
  revert p n; induction l as [|x l IH]; intros p n Hp; [reflexivity|].
  destruct p as [|p]; destruct n as [|n]; try lia; cbn; [reflexivity|]. apply IH. lia.
Qed.

Lemma skipn_memset {X} (l : list X) off v len n :
  off + len <= n -> skipn n (memset l off v len) = skipn n l.
Proof.
  revert l off; induction len as [|len IH]; intros l off Hle; [reflexivity|].
  cbn [memset]. rewrite IH by lia. apply skipn_set_nth_lt. lia.
Qed.

Lemma set_nth_set_nth {X} (l : list X) k x y : set_nth (set_nth l k x) k y = set_nth l k y.
Proof.
  revert k; induction l as [|z l IH]; intros [|k]; cbn; try reflexivity. rewrite IH. reflexivity.
Qed.

Lemma with_hl_with_hl r a b : with_hl (with_hl r a) b = with_hl r b.
Proof. reflexivity. Qed.

Lemma with_hl_eta r : with_hl r (hl r) = r.
Proof. destruct r; reflexivity. Qed.

Lemma find_restore_fields fs E :
  numrows (find_restore fs E) = numrows E /\ dirty (find_restore fs E) = dirty E /\
  filename (find_restore fs E) = filename E /\ syntax (find_restore fs E) = syntax E /\
  statusmsg (find_restore fs E) = statusmsg E.
Proof. unfold find_restore. destruct (saved_hl fs); repeat split. Qed.

Lemma find_restore_rows fs E1 E2 :
  row E1 = row E2 -> row (find_restore fs E1) = row (find_restore fs E2).
Proof.
  intros H. unfold find_restore, set_row, with_rows, row_at.
  destruct (saved_hl fs); cbn; rewrite ?H; reflexivity.
Qed.

Lemma find_restore_none fs E : saved_hl fs = None -> find_restore fs E = E.
Proof. unfold find_restore. intros ->. reflexivity. Qed.

Lemma editorFindCallback_inv fs E Eo q key :
  search_inv fs E Eo ->
  let '(fs', E') := editorFindCallback fs E q key in
  search_inv fs' E' Eo /\ statusmsg E' = statusmsg E /\
  ((key = KEY_ENTER \/ key = KEY_ESC) -> saved_hl fs' = None).
Proof.
  intros (Hr & Hn & Hd & Hf & Hs).
  destruct (find_restore_fields fs E) as (Hn0 & Hd0 & Hf0 & Hs0 & Hm0).
  unfold editorFindCallback. fold (find_restore fs E).
  set (E0 := find_restore fs E) in *.
  assert (Hinv0 : forall l d, search_inv (mkFind l d (saved_hl_line fs) None) E0 Eo)
    by (intros; unfold search_inv; rewrite find_restore_none by reflexivity;
        repeat split; congruence).
  destruct ((key =? KEY_ENTER)%Z || (key =? KEY_ESC)%Z) eqn:Hk.
  { split; [apply Hinv0|]. split; [exact Hm0|]. reflexivity. }
  assert (Hk' : ~ (key = KEY_ENTER \/ key = KEY_ESC)).
  { intros [->| ->]; discriminate. }
  destruct (if (key =? ARROW_RIGHT)%Z || (key =? ARROW_DOWN)%Z then _ else _) as [lm dir].
  destruct (find_loop E0 q _ lm (numrows E0)) as [[cur off]|] eqn:Hfl.
  2: { split; [apply Hinv0|]. split; [exact Hm0|]. intros H; contradiction. }
  split; [|split; [exact Hm0|intros H; contradiction]].
  apply find_loop_some in Hfl. apply strstr_bound in Hfl.
  set (k := Z.to_nat cur) in *.
  set (r := row_at E0 k) in *.
  set (E1 := mkConfig _ k _ _ _ _ _ _ _ _).
  unfold search_inv. cbn [saved_hl saved_hl_line]. unfold find_restore. cbn [saved_hl saved_hl_line].
  split; [|repeat split; cbn; congruence].
  unfold set_row, with_rows. cbn [row].
  destruct (Nat.ltb_spec k (length (row E0))) as [Hlt|Hge].
  - assert (Hrk : row_at (with_rows E1 (set_nth (row E1) k
                   (with_hl r (memset (hl r) off HL_MATCH (length (c_str q)))))) k
                  = with_hl r (memset (hl r) off HL_MATCH (length (c_str q)))).
    { unfold row_at. cbn. apply nth_set_nth_eq. exact Hlt. }
    unfold set_row, with_rows in Hrk. cbn [row] in Hrk |- *. rewrite Hrk, with_hl_with_hl.
    change (render (with_hl r ?m)) with (render r).
    change (hl (with_hl r ?m)) with m.
    rewrite (skipn_memset _ _ _ _ _ Hfl), firstn_skipn.
    rewrite with_hl_eta, set_nth_set_nth. subst r. unfold row_at.
    rewrite set_nth_nth_same. exact Hr.
  - rewrite !set_nth_out by (rewrite ?set_nth_length; cbn; lia). exact Hr.
Qed.

Lemma search_inv_view fs E Eo x y ro co m :
  search_inv fs E Eo -> search_inv fs (with_status (with_view E x y ro co) m) Eo.
Proof.
  intros (Hr & Hn & Hd & Hf & Hs). unfold search_inv.
  rewrite (find_restore_rows fs _ E) by reflexivity. repeat split; assumption.
Qed.

Lemma search_inv_refresh sr sc fs E Eo m :
  search_inv fs E Eo ->
  search_inv fs (editorRefreshScreen sr sc (editorSetStatusMessage E m)) Eo.
Proof.
  intros (Hr & Hn & Hd & Hf & Hs). unfold search_inv.
  rewrite (find_restore_rows fs _ E) by reflexivity. repeat split; assumption.
Qed.

Lemma search_inv_status fs E Eo m :
  search_inv fs E Eo -> search_inv fs (editorSetStatusMessage E m) Eo.
Proof.
  intros (Hr & Hn & Hd & Hf & Hs). unfold search_inv.
  rewrite (find_restore_rows fs _ E) by reflexivity. repeat split; assumption.
Qed.

Lemma search_inv_done fs E Eo :
  search_inv fs E Eo -> saved_hl fs = None ->
  row E = row Eo /\ numrows E = numrows Eo /\ dirty E = dirty Eo /\
  filename E = filename Eo /\ syntax E = syntax Eo.
Proof.
  intros (Hr & Hn & Hd & Hf & Hs) H0. rewrite find_restore_none in Hr by exact H0.
  repeat split; assumption.
Qed.

Lemma search_loop_inv sr sc keys buf fs E Eo res fs' E' rest :
  search_inv fs E Eo ->
  prompt_loop sr sc search_prompt_pre search_prompt_post (Some editorFindCallback)
    keys buf fs E = Prompt_done res fs' E' rest ->
  row E' = row Eo /\ numrows E' = numrows Eo /\ dirty E' = dirty Eo /\
  filename E' = filename Eo /\ syntax E' = syntax Eo /\ statusmsg E' = [] /\
  saved_hl fs' = None.
Proof.
  revert buf fs E; induction keys as [|c ks IH]; intros buf fs E Hinv H;
    cbn [prompt_loop] in H; [discriminate|].
  pose proof (search_inv_refresh sr sc fs E Eo
                (search_prompt_pre ++ buf ++ search_prompt_post) Hinv) as Hinv1.
  set (E1 := editorRefreshScreen sr sc _) in *.
  pose proof (search_inv_status fs E1 Eo [] Hinv1) as Hinv2.
  cbn [run_callback] in H.
  repeat match type of H with
  | context [if ?b then _ else _] => let Hb := fresh "Hb" in destruct b eqn:Hb
  end;
  match type of H with context [editorFindCallback ?f ?X ?q ?k] =>
    let Hcb := fresh "Hcb" in
    assert (Hcb := editorFindCallback_inv f X Eo q k ltac:(assumption));
    destruct (editorFindCallback f X q k) as [a2 E2]
  end;
  try (apply (IH _ _ _ (proj1 Hcb) H)).
  - injection H as <- <- <- <-. destruct Hcb as (Hi & Hm & Hk).
    assert (Hs : saved_hl a2 = None) by (apply Hk; right; apply Z.eqb_eq; assumption).
    destruct (search_inv_done _ _ _ Hi Hs) as (? & ? & ? & ? & ?).
    repeat split; try assumption; rewrite Hm; reflexivity.
  - injection H as <- <- <- <-. destruct Hcb as (Hi & Hm & Hk).
    assert (Hs : saved_hl a2 = None) by (apply Hk; left; apply Z.eqb_eq; assumption).
    destruct (search_inv_done _ _ _ Hi Hs) as (? & ? & ? & ? & ?).
    repeat split; try assumption; rewrite Hm; reflexivity.
Qed.

(** Searching never changes the document: whatever keys the search prompt
    reads, once it returns the rows (with their highlighting), the row count,
    the dirty counter, the file name and the syntax are those from before the
    search, the status message is cleared and no highlight is left saved;
    when the search is cancelled the cursor and scroll offsets are those
    from before too. *)
Theorem editorFind_keeps_document sr sc fs E keys res fs' E' rest :
  saved_hl fs = None ->
  editorFind sr sc fs E keys = Prompt_done res fs' E' rest ->
  row E' = row E /\ numrows E' = numrows E /\ dirty E' = dirty E /\
  filename E' = filename E /\ syntax E' = syntax E /\ statusmsg E' = [] /\
  saved_hl fs' = None /\
  (res = None -> E' = with_status E []).
Proof.
  intros H0 H. unfold editorFind, editorPrompt in H.
  assert (Hinv : search_inv fs E E)
    by (unfold search_inv; rewrite find_restore_none by exact H0; repeat split).
  destruct (prompt_loop sr sc search_prompt_pre search_prompt_post (Some editorFindCallback)
              keys [] fs E) as [[b|] a2 E2 ks|] eqn:Hl; try discriminate.
  - injection H as <- <- <- <-.
    destruct (search_loop_inv _ _ _ _ _ _ _ _ _ _ _ Hinv Hl) as (? & ? & ? & ? & ? & ? & ?).
    repeat split; try assumption. discriminate.
  - injection H as <- <- <- <-.
    destruct (search_loop_inv _ _ _ _ _ _ _ _ _ _ _ Hinv Hl) as (Hr & Hn & Hd & Hf & Hs & Hm & Hh).
    cbn. repeat split; try assumption. intros _.
    unfold with_view, with_status. rewrite Hr, Hn, Hd, Hf, Hs, Hm. reflexivity.
Qed.

Lemma getlines_line cur cs rest :
  ~ In "010"%char cs ->
  getlines cur (cs ++ "010"%char :: rest) = (rev cur ++ cs ++ ["010"%char]) :: getlines [] rest.
Proof.
  revert cur; induction cs as [|c cs IH]; intros cur Hn; cbn [app getlines].
  - rewrite Ascii.eqb_refl. reflexivity.
  - assert (Hc : Ascii.eqb c "010"%char = false)
      by (apply Ascii.eqb_neq; intros ->; apply Hn; left; reflexivity).
    rewrite Hc, IH by (intros H; apply Hn; right; exact H). cbn. rewrite <- app_assoc. reflexivity.
Qed.

Lemma getlines_lines L :
  Forall (fun cs => ~ In "010"%char cs) L ->
  getlines [] (concat (map (fun cs => cs ++ ["010"%char]) L)) = map (fun cs => cs ++ ["010"%char]) L.
Proof.
  induction 1 as [|cs L Hn HL IH]; [reflexivity|].
  cbn [map concat]. rewrite <- app_assoc. cbn [app]. rewrite getlines_line by exact Hn.
  rewrite IH. reflexivity.
Qed.

Lemma strip_eol_line cs :
  ~ In "010"%char cs -> (forall pre, cs <> pre ++ ["013"%char]) ->
  strip_eol (cs ++ ["010"%char]) = cs.
Proof.
  intros Hn Hr. unfold strip_eol. rewrite rev_app_distr. cbn [rev app drop_eol is_eol].
  change (is_eol "010"%char) with true. cbv iota.
  destruct (rev cs) as [|c r] eqn:Hc.
  - cbn. rewrite <- (rev_involutive cs), Hc. reflexivity.
  - assert (Hcs : cs = rev r ++ [c]) by (rewrite <- (rev_involutive cs), Hc; reflexivity).
    cbn [drop_eol]. unfold is_eol.
    assert (H1 : Ascii.eqb c "010"%char = false).
    { apply Ascii.eqb_neq. intros ->. apply Hn. rewrite Hcs. apply in_or_app. right; left; reflexivity. }
    assert (H2 : Ascii.eqb c "013"%char = false).
    { apply Ascii.eqb_neq. intros ->. exact (Hr _ Hcs). }
    rewrite H1, H2. cbn [orb]. rewrite <- Hc, rev_involutive. reflexivity.
Qed.

Lemma open_rows_fold L E :
  length (chars_of E) = numrows E ->
  let E' := fold_left (fun E l => editorInsertRow (numrows E) (strip_eol l) E) L E in
  chars_of E' = chars_of E ++ map strip_eol L /\ numrows E' = numrows E + length L.
Proof.
  revert E; induction L as [|l L IH]; intros E Hl; cbn [fold_left].
  - rewrite app_nil_r. cbn. split; [reflexivity|lia].
  - destruct (editorInsertRow_append E (strip_eol l) Hl) as [Hc Hn].
    destruct (IH (editorInsertRow (numrows E) (strip_eol l) E)) as [Hc' Hn'].
    { rewrite Hc, Hn, length_app, Hl. cbn. lia. }
    rewrite Hc', Hn', Hc, Hn, <- app_assoc. cbn. split; [reflexivity|lia].
Qed.

Lemma open_rows_filename L E :
  filename (fold_left (fun E l => editorInsertRow (numrows E) (strip_eol l) E) L E) = filename E.
Proof.
  revert E; induction L as [|l L IH]; intros E; cbn [fold_left]; [reflexivity|].
  rewrite IH. apply editorInsertRow_filename.
Qed.

(** Saving then reopening gives the same document: opening, under any file
    name, the buffer [editorRowsToString] writes gives back every row, the
    same number of rows, no unsaved change, and that file name, provided no
    row holds a newline and no row ends in a carriage return (those would be
    split or stripped on loading). *)
Theorem save_then_open_round_trip fn E :
  length (row E) = numrows E ->
  Forall (fun cs => ~ In "010"%char cs /\ forall pre, cs <> pre ++ ["013"%char]) (chars_of E) ->
  let E' := editorOpen fn (fst (editorRowsToString E)) initEditor in
  chars_of E' = chars_of E /\ numrows E' = numrows E /\ dirty E' = 0 /\ filename E' = Some fn.
Proof.
  intros Hl Hrows.
  pose proof (editorRowsToString_spec E Hl) as Hs.
  destruct (editorRowsToString E) as [buf len]. destruct Hs as (Hbuf & _ & _).
  cbn [fst]. subst buf. unfold editorOpen.
  rewrite getlines_lines
    by (eapply Forall_impl; [|exact Hrows]; intros cs [H _]; exact H).
  destruct (select_syntax_no_rows (with_file initEditor (Some fn) (syntax initEditor)) eq_refl)
    as [s Hsel].
  rewrite Hsel.
  set (E1 := with_file _ _ s).
  destruct (open_rows_fold (map (fun cs => cs ++ ["010"%char]) (chars_of E)) E1 eq_refl)
    as [Hc Hn].
  rewrite chars_of_with_counts. unfold with_counts. cbn [numrows dirty filename].
  rewrite open_rows_filename, Hc, Hn. cbn. rewrite length_map, map_map, length_chars_of, Hl.
  split; [|repeat split].
  clear Hl Hc Hn. induction Hrows as [|cs L [Hn Hr] _ IH]; [reflexivity|].
  cbn. rewrite strip_eol_line by assumption. f_equal. exact IH.
Qed.

Lemma c_str_no_nul s : ~ In NUL (c_str s).
Proof.
  induction s as [|c s IH]; cbn; [auto|].
  destruct (Ascii.eqb c NUL) eqn:Hc; cbn; [auto|].
  intros [H|H]; [|exact (IH H)]. subst c. rewrite Ascii.eqb_refl in Hc. discriminate.
Qed.

Lemma char_at_c_str_nul s n : char_at (c_str s) n = NUL <-> length (c_str s) <= n.
Proof.
  unfold char_at. split.
  - intros H. destruct (Nat.le_gt_cases (length (c_str s)) n) as [Hle|Hlt]; [exact Hle|].
    exfalso. apply (c_str_no_nul s). rewrite <- H. apply nth_In. exact Hlt.
  - intros H. apply nth_overflow. exact H.
Qed.

Lemma c_str_id s : ~ In NUL s -> c_str s = s.
Proof.
  induction s as [|c s IH]; intros Hn; cbn; [reflexivity|].
  destruct (Ascii.eqb c NUL) eqn:Hc.
  - apply Ascii.eqb_eq in Hc. subst c. exfalso. apply Hn. left. reflexivity.
  - rewrite IH by (intros H; apply Hn; right; exact H). reflexivity.
Qed.

Lemma filematch_loop_ext fn pats :
  Forall ext_pattern pats ->
  filematch_loop fn pats = true <->
  exists ext p, In ext pats /\ strstr fn ext = Some p /\ p + length ext = length (c_str fn).
Proof.
  induction 1 as [|pat pats [Hdot Hnul] _ IH]; cbn [filematch_loop].
  - split; [discriminate|]. intros (ext & p & [] & _).
  - rewrite Hdot, Ascii.eqb_refl. cbn [negb orb].
    destruct (strstr fn pat) as [p|] eqn:Hs.
    + pose proof (strstr_bound_c _ _ _ Hs) as Hb. rewrite c_str_id in Hb by exact Hnul.
      destruct (Ascii.eqb (char_at (c_str fn) (p + length pat)) NUL) eqn:Hc.
      * apply Ascii.eqb_eq, char_at_c_str_nul in Hc.
        split; [intros _|intros _; reflexivity]. exists pat, p. repeat split; [left; reflexivity|assumption|lia].
      * rewrite IH. split.
        -- intros (ext & q & Hin & Hq & Hl). exists ext, q. repeat split; [right|..]; assumption.
        -- intros (ext & q & [<-|Hin] & Hq & Hl).
           ++ rewrite Hs in Hq. injection Hq as <-.
              assert (Hnul' : char_at (c_str fn) (p + length pat) = NUL)
                by (apply char_at_c_str_nul; lia).
              rewrite Hnul', Ascii.eqb_refl in Hc. discriminate.
           ++ exists ext, q. auto.
    + rewrite IH. split.
      * intros (ext & q & Hin & Hq & Hl). exists ext, q. repeat split; [right|..]; assumption.
      * intros (ext & q & [<-|Hin] & Hq & Hl); [congruence|]. exists ext, q. auto.
Qed.

Lemma C_HL_extensions_ext : Forall ext_pattern C_HL_extensions.
Proof.
  unfold C_HL_extensions. cbn [map].
  constructor; [|constructor; [|constructor; [|constructor]]].
  all: split; [reflexivity|]; cbn; intros H.
  all: repeat (destruct H as [H|H]; [discriminate|]); destruct H.
Qed.

Lemma update_all_rows_frame E : frame (update_all_rows E) = frame E.
Proof.
  unfold update_all_rows. generalize (seq 0 (numrows E)). intros l. revert E.
  induction l as [|k l IH]; intros E; simpl; [reflexivity|].
  rewrite IH. apply editorUpdateSyntax_frame.
Qed.

(** Filetype detection: a file name gets the C highlighting exactly when, for
    one of the extensions ".c", ".h" and ".cpp", the first occurrence of the
    extension in the name ends the name; otherwise, and when there is no file
    name, no highlighting is selected.  The file name, the cursor, the
    counters and the rows' text are left as they were. *)
Theorem editorSelectSyntaxHighlight_by_extension E :
  let E' := editorSelectSyntaxHighlight E in
  frame E' = frame (with_file E (filename E) (syntax E')) /\
  (filename E = None -> syntax E' = None) /\
  (forall fn, filename E = Some fn ->
     (syntax E' = Some C_syntax <->
        exists ext p, In ext C_HL_extensions /\ strstr fn ext = Some p /\
                      p + length ext = length (c_str fn)) /\
     (syntax E' = None <->
        ~ exists ext p, In ext C_HL_extensions /\ strstr fn ext = Some p /\
                        p + length ext = length (c_str fn))).
Proof.
  cbn zeta. unfold editorSelectSyntaxHighlight.
  destruct (filename E) as [fn|] eqn:Hf.
  2: { split; [reflexivity|]. split; [reflexivity|]. intros fn H; discriminate. }
  pose proof (filematch_loop_ext fn C_HL_extensions C_HL_extensions_ext) as Hx.
  cbn [hldb_loop HLDB]. change (filematch C_syntax) with C_HL_extensions.
  destruct (filematch_loop fn C_HL_extensions) eqn:Hm.
  - assert (Hs : syntax (update_all_rows (with_file E (Some fn) (Some C_syntax))) = Some C_syntax).
    { pose proof (update_all_rows_frame (with_file E (Some fn) (Some C_syntax))) as Hfr.
      unfold frame in Hfr. injection Hfr as _ _ _ _ _ _ _ _ Hsy _. exact Hsy. }
    rewrite Hs, update_all_rows_frame. split; [reflexivity|]. split; [discriminate|].
    intros fn' Hfn. injection Hfn as <-. split.
    + split; intros _; [apply Hx|]; reflexivity.
    + split; [discriminate|]. intros Hn. exfalso. apply Hn, Hx. reflexivity.
  - split; [reflexivity|]. split; [discriminate|]. intros fn' Hfn. injection Hfn as <-.
    cbn [syntax with_file]. split.
    + split; [discriminate|]. intros He. apply Hx in He. congruence.
    + split; [|reflexivity]. intros _ He. apply Hx in He. congruence.
Qed.

Lemma doc_wf_seq E : doc_wf E <-> map idx (row E) = seq 0 (numrows E).
Proof.
  split.
  - intros [Hl Hi]. apply nth_ext with (d := 0) (d' := 0).
    + rewrite length_map, length_seq. exact Hl.
    + intros n Hn. rewrite length_map, Hl in Hn.
      replace (nth n (map idx (row E)) 0) with (idx (nth n (row E) empty_row))
        by (rewrite <- (map_nth idx (row E) empty_row); reflexivity).
      rewrite seq_nth by exact Hn. apply Hi. exact Hn.
  - intros H. split.
    + apply (f_equal (@length nat)) in H. rewrite length_map, length_seq in H. exact H.
    + intros j Hj. unfold row_at.
      replace (idx (nth j (row E) empty_row)) with (nth j (map idx (row E)) 0)
        by (rewrite <- (map_nth idx (row E) empty_row); reflexivity).
      rewrite H, seq_nth by exact Hj. reflexivity.
Qed.

Lemma doc_wf_shape E E' : shape E' = shape E -> doc_wf E -> doc_wf E'.
Proof.
  intros H. rewrite !doc_wf_seq.
  pose proof (f_equal fst H) as Hn. pose proof (f_equal snd H) as Hm. cbn [fst snd shape] in Hn, Hm.
  intros Hw. transitivity (map idx (row E)); [exact Hm|]. rewrite Hn. exact Hw.
Qed.

Lemma shape_frame E E' : frame E = frame E' -> shape E = shape E'.
Proof.
  unfold frame, shape. intros H. injection H as _ _ _ _ Hn _ _ _ _ Hm.
  apply (f_equal (map (fun p => fst (fst p)))) in Hm. rewrite !map_map in Hm. cbn in Hm.
  rewrite Hn. f_equal. exact Hm.
Qed.

Lemma shape_set_row E k r : idx r = idx (row_at E k) -> shape (set_row E k r) = shape E.
Proof.
  intros H. unfold shape, set_row, with_rows. cbn [numrows row].
  rewrite (set_nth_map_same idx (row E) k r empty_row H). reflexivity.
Qed.

Lemma shape_editorUpdateSyntax E k : shape (editorUpdateSyntax E k) = shape E.
Proof. apply shape_frame, editorUpdateSyntax_frame. Qed.

Lemma shape_editorUpdateRow E k : shape (editorUpdateRow E k) = shape E.
Proof. unfold editorUpdateRow. rewrite shape_editorUpdateSyntax. apply shape_set_row. reflexivity. Qed.

Lemma shape_editorRowInsertChar E k at_ c : shape (editorRowInsertChar E k at_ c) = shape E.
Proof.
  unfold editorRowInsertChar. change (shape (with_counts ?X _ _)) with (shape X) at 1.
  rewrite shape_editorUpdateRow. apply shape_set_row. reflexivity.
Qed.

Lemma shape_editorRowDelChar E k at_ : shape (editorRowDelChar E k at_) = shape E.
Proof.
  unfold editorRowDelChar. destruct (_ || _); [reflexivity|].
  change (shape (with_counts ?X _ _)) with (shape X) at 1.
  rewrite shape_editorUpdateRow. apply shape_set_row. reflexivity.
Qed.

Lemma shape_editorRowAppendString E k s : shape (editorRowAppendString E k s) = shape E.
Proof.
  unfold editorRowAppendString. change (shape (with_counts ?X _ _)) with (shape X) at 1.
  rewrite shape_editorUpdateRow. apply shape_set_row. reflexivity.
Qed.

Lemma shape_editorMoveCursor E key : shape (editorMoveCursor E key) = shape E.
Proof.
  unfold editorMoveCursor.
  repeat match goal with |- context [match ?m with pair _ _ => _ end] => destruct m end.
  reflexivity.
Qed.

Lemma shape_iter_move n dir E :
  shape (Nat.iter n (fun E' => editorMoveCursor E' dir) E) = shape E.
Proof.
  induction n as [|n IH]; [reflexivity|].
  change (shape (editorMoveCursor (Nat.iter n (fun E' => editorMoveCursor E' dir) E) dir) = shape E).
  rewrite shape_editorMoveCursor. exact IH.
Qed.

Lemma shape_update_all_rows E : shape (update_all_rows E) = shape E.
Proof. apply shape_frame, update_all_rows_frame. Qed.

Lemma shape_editorSelectSyntaxHighlight E : shape (editorSelectSyntaxHighlight E) = shape E.
Proof.
  unfold editorSelectSyntaxHighlight.
  destruct (filename E); [destruct (hldb_loop _ _)|]; rewrite ?shape_update_all_rows; reflexivity.
Qed.

Lemma shape_editorSave io E : shape (fst (editorSave io E)) = shape E.
Proof.
  unfold editorSave. destruct (filename E).
  2: destruct (io_prompt io).
  all: try reflexivity.
  all: match goal with |- context [editorRowsToString ?X] => destruct (editorRowsToString X) end.
  all: repeat match goal with |- context [if ?b then _ else _] => destruct b end.
  all: cbn [fst]; unfold editorSetStatusMessage, with_status, with_counts, shape; cbn [numrows row].
  all: try reflexivity.
  all: apply shape_editorSelectSyntaxHighlight.
Qed.

Lemma shape_find_restore fs E : shape (find_restore fs E) = shape E.
Proof. unfold find_restore. destruct (saved_hl fs); [apply shape_set_row|]; reflexivity. Qed.

Lemma shape_editorFindCallback fs E q key : shape (snd (editorFindCallback fs E q key)) = shape E.
Proof.
  unfold editorFindCallback. fold (find_restore fs E).
  rewrite <- (shape_find_restore fs E). set (E0 := find_restore fs E).
  destruct ((key =? KEY_ENTER)%Z || (key =? KEY_ESC)%Z); [reflexivity|].
  destruct (if (key =? ARROW_RIGHT)%Z || (key =? ARROW_DOWN)%Z then _ else _) as [lm dir].
  destruct (find_loop E0 q _ lm (numrows E0)) as [[cur off]|]; [|reflexivity].
  cbn [snd]. rewrite shape_set_row by reflexivity. reflexivity.
Qed.

Lemma shape_prompt_loop {A} sr sc pre post cb keys buf (a : A) E res a' E' rest :
  (forall a E buf c, shape (snd (run_callback cb a E buf c)) = shape E) ->
  prompt_loop sr sc pre post cb keys buf a E = Prompt_done res a' E' rest ->
  shape E' = shape E.
Proof.
  intros Hcb. revert buf a E; induction keys as [|c ks IH]; intros buf a E H;
    cbn [prompt_loop] in H; [discriminate|].
  set (E1 := editorRefreshScreen sr sc _) in H.
  assert (H1 : shape E1 = shape E) by reflexivity.
  repeat match type of H with
  | context [if ?b then _ else _] => destruct b
  end;
  match type of H with context [run_callback cb ?x ?X ?q ?k] =>
    pose proof (Hcb x X q k) as Hs; destruct (run_callback cb x X q k) as [a2 E2]
  end;
  cbn [snd] in Hs.
  all: first [ injection H as <- <- <- <-; rewrite Hs; reflexivity
             | rewrite (IH _ _ _ H), Hs; exact H1 ].
Qed.

Lemma shape_editorFind sr sc fs E keys res fs' E' rest :
  editorFind sr sc fs E keys = Prompt_done res fs' E' rest -> shape E' = shape E.
Proof.
  unfold editorFind, editorPrompt. intros H.
  destruct (prompt_loop _ _ _ _ _ keys [] fs E) as [[b|] a2 E2 ks|] eqn:Hl; try discriminate;
    injection H as <- <- <- <-;
    refine (eq_trans _ (shape_prompt_loop _ _ _ _ _ _ _ _ _ _ _ _ _ _ Hl)).
  all: try reflexivity.
  all: intros; apply shape_editorFindCallback.
Qed.

Lemma doc_wf_editorInsertRow at_ s E : doc_wf E -> doc_wf (editorInsertRow at_ s E).
Proof.
  intros Hw. pose proof Hw as [Hl _]. apply doc_wf_seq in Hw. unfold editorInsertRow.
  destruct (Nat.ltb_spec (numrows E) at_) as [Hlt|Hle].
  - apply doc_wf_seq. exact Hw.
  - apply doc_wf_seq.
    set (E1 := with_rows E _).
    change (map idx (row (editorUpdateRow E1 at_)) = seq 0 (S (numrows (editorUpdateRow E1 at_)))).
    pose proof (shape_editorUpdateRow E1 at_) as Hs.
    pose proof (f_equal fst Hs) as Hn. pose proof (f_equal snd Hs) as Hm. cbn [fst snd shape] in Hn, Hm.
    rewrite Hn. transitivity (map idx (row E1)); [exact Hm|]. subst E1. unfold with_rows. cbn [numrows row].
    rewrite map_app. cbn [map idx]. rewrite map_map. cbn [idx with_idx].
    rewrite <- (map_map idx S), <- firstn_map, <- skipn_map, Hw.
    rewrite skipn_seq, seq_shift.
    replace (numrows E) with (at_ + (numrows E - at_)) at 1 by lia.
    rewrite seq_app, firstn_app, length_seq, Nat.sub_diag, firstn_O, app_nil_r.
    rewrite firstn_all2 by (rewrite length_seq; lia).
    replace (S (numrows E)) with (at_ + S (numrows E - at_)) by lia.
    rewrite seq_app. reflexivity.
Qed.

Lemma doc_wf_editorDelRow at_ E : doc_wf E -> doc_wf (editorDelRow at_ E).
Proof.
  intros Hw. apply doc_wf_seq in Hw. unfold editorDelRow.
  destruct (Nat.leb_spec (numrows E) at_) as [Hle|Hlt].
  - apply doc_wf_seq. exact Hw.
  - apply doc_wf_seq. unfold with_counts, with_rows. cbn [numrows row].
    rewrite map_app, map_map. cbn [idx with_idx].
    rewrite <- (map_map idx (fun i => i - 1)), <- firstn_map, <- skipn_map, Hw.
    rewrite skipn_seq.
    replace (numrows E) with (at_ + (numrows E - at_)) at 1 by lia.
    rewrite seq_app, firstn_app, length_seq, Nat.sub_diag, firstn_O, app_nil_r.
    rewrite firstn_all2 by (rewrite length_seq; lia).
    replace (0 + S at_) with (S at_) by lia. rewrite <- seq_shift, map_map.
    rewrite map_ext with (g := fun x => x) by (intros; lia). rewrite map_id.
    replace (numrows E - 1) with (at_ + (numrows E - S at_)) by lia.
    rewrite seq_app. reflexivity.
Qed.

Lemma doc_wf_with_cursor E x y : doc_wf E -> doc_wf (with_cursor E x y).
Proof. apply doc_wf_shape. reflexivity. Qed.

Lemma doc_wf_editorInsertChar E c : doc_wf E -> doc_wf (editorInsertChar E c).
Proof.
  intros Hw. unfold editorInsertChar. apply doc_wf_with_cursor.
  eapply doc_wf_shape; [apply shape_editorRowInsertChar|].
  destruct (_ =? _); [apply doc_wf_editorInsertRow|]; exact Hw.
Qed.

Lemma doc_wf_editorInsertNewline E : doc_wf E -> doc_wf (editorInsertNewline E).
Proof.
  intros Hw. unfold editorInsertNewline. destruct (_ =? _).
  - apply doc_wf_with_cursor, doc_wf_editorInsertRow, Hw.
  - apply doc_wf_with_cursor. eapply doc_wf_shape.
    + rewrite shape_editorUpdateRow. apply shape_set_row. reflexivity.
    + apply doc_wf_editorInsertRow, Hw.
Qed.

Lemma doc_wf_editorDelChar E : doc_wf E -> doc_wf (editorDelChar E).
Proof.
  intros Hw. unfold editorDelChar.
  destruct (_ =? _); [exact Hw|]. destruct (_ && _); [exact Hw|].
  destruct (_ <? _).
  - apply doc_wf_with_cursor. eapply doc_wf_shape; [apply shape_editorRowDelChar|exact Hw].
  - apply doc_wf_with_cursor, doc_wf_editorDelRow. eapply doc_wf_shape.
    + rewrite shape_editorRowAppendString. reflexivity.
    + exact Hw.
Qed.

Lemma shape_save_keys sr sc sys E keys E' ks :
  save_keys sr sc sys E keys = Some (E', ks) -> shape E' = shape E.
Proof.
  unfold save_keys. intros H. destruct (filename E).
  - injection H as <- <-. apply shape_editorSave.
  - destruct (editorPrompt _ _ _ _ _ keys tt E) as [res a E1 rest|] eqn:Hp; [|discriminate].
    injection H as <- <-. rewrite shape_editorSave.
    refine (shape_prompt_loop _ _ _ _ _ _ _ _ _ _ _ _ _ _ Hp). reflexivity.
Qed.

Lemma doc_wf_editorProcessKeypress sr sc sys qt fs E keys qt' fs' E' ks :
  doc_wf E ->
  editorProcessKeypress sr sc sys qt fs E keys = KP_next qt' fs' E' ks -> doc_wf E'.
Proof.
  intros Hw H. destruct keys as [|c rest]; [discriminate|]. unfold editorProcessKeypress in H.
  repeat match type of H with
  | context [if ?b then _ else _] => destruct b
  end.
  all: try discriminate.
  all: try (injection H as <- <- <- <-).
  all: try (apply doc_wf_editorInsertNewline, Hw).
  all: try (apply doc_wf_editorInsertChar, Hw).
  all: try (apply doc_wf_editorDelChar; eapply doc_wf_shape; [apply shape_editorMoveCursor|exact Hw]).
  all: try (apply doc_wf_editorDelChar, Hw).
  all: try (eapply doc_wf_shape; [apply shape_iter_move|exact Hw]).
  all: try (eapply doc_wf_shape; [apply shape_editorMoveCursor|exact Hw]).
  all: try (eapply doc_wf_shape; [reflexivity|exact Hw]).
  - destruct (save_keys _ _ _ E rest) as [[E2 ks2]|] eqn:Hs; [|discriminate].
    injection H as <- <- <- <-. eapply doc_wf_shape; [exact (shape_save_keys _ _ _ _ _ _ _ Hs)|exact Hw].
  - destruct (editorFind _ _ fs E rest) as [res fs2 E2 ks2|] eqn:Hf; [|discriminate].
    injection H as <- <- <- <-. eapply doc_wf_shape; [exact (shape_editorFind _ _ _ _ _ _ _ _ _ Hf)|exact Hw].
Qed.

(** The editor never breaks the shape of its document: if it starts with
    [numrows] rows each holding its own index, then after any sequence of
    keypresses (typing, Enter, Backspace and Delete, cursor and page moves,
    Ctrl-F searches, Ctrl-S saves, Ctrl-Q warnings) it still has [numrows]
    rows each holding its own index. *)
Theorem main_loop_keeps_doc_wf sr sc sys fuel qt fs E keys qt' fs' E' ks :
  doc_wf E ->
  main_loop sr sc sys fuel qt fs E keys = KP_next qt' fs' E' ks -> doc_wf E'.
Proof.
  revert qt fs E keys; induction fuel as [|f IH]; intros qt fs E keys Hw H; cbn [main_loop] in H.
  - injection H as <- <- <- <-. exact Hw.
  - destruct (editorProcessKeypress _ _ _ qt fs _ keys) as [| |qt2 fs2 E2 ks2] eqn:Hk;
      try discriminate.
    apply (IH _ _ _ _ (doc_wf_editorProcessKeypress _ _ _ _ _ _ _ _ _ _ _
                        (doc_wf_shape E (editorRefreshScreen sr sc E) eq_refl Hw) Hk) H).
Qed.

Lemma status_pad_spec r k : forall fuel len cols,
  len + k = cols -> k <= fuel ->
  status_pad fuel len cols r =
  if length r <=? k then repeat " "%char (k - length r) ++ r else repeat " "%char k.
Proof.
  induction k as [|k IH]; intros fuel len cols Hk Hf.
  - destruct fuel as [|f]; cbn [status_pad];
      [|replace (len <? cols) with false by (symmetry; apply Nat.ltb_ge; lia)];
      destruct (Nat.leb_spec (length r) 0) as [H|H]; try reflexivity;
      destruct r; cbn in *; try reflexivity; lia.
  - destruct fuel as [|f]; [lia|]. cbn [status_pad].
    replace (len <? cols) with true by (symmetry; apply Nat.ltb_lt; lia).
    replace (cols - len) with (S k) by lia.
    destruct (Nat.eqb_spec (S k) (length r)) as [He|He].
    + rewrite <- He, Nat.leb_refl, Nat.sub_diag. reflexivity.
    + rewrite (IH f (S len) cols) by lia.
      destruct (Nat.leb_spec (length r) k) as [H|H].
      * replace (length r <=? S k) with true by (symmetry; apply Nat.leb_le; lia).
        replace (S k - length r) with (S (k - length r)) by lia. reflexivity.
      * replace (length r <=? S k) with false by (symmetry; apply Nat.leb_gt; lia).
        reflexivity.
Qed.

(** The status bar always fills exactly [screencols] columns between its
    inverse-video escapes: when the left part (file name, line count,
    modification mark) and the right part (file type, current line / line
    count) fit together, the left part is at the left edge, the right part
    ends at the right edge and spaces fill the gap; otherwise the right part is
    dropped and the left part, cut to the screen width, is padded with spaces. *)
Theorem editorDrawStatusBar_layout cols E :
  let L := status_left E in
  let R := status_right E in
  exists body,
    editorDrawStatusBar cols E
      = (["027"%char] ++ s2l "[7m") ++ body ++ (["027"%char] ++ s2l "[m") ++ s2l (CR ++ LF) /\
    length body = cols /\
    (length L + length R <= cols -> body = L ++ repeat " "%char (cols - length L - length R) ++ R) /\
    (cols < length L + length R -> body = firstn cols L ++ repeat " "%char (cols - length L)).
Proof.
  cbn zeta. unfold editorDrawStatusBar.
  set (L := status_left E). set (R := status_right E).
  set (len := if cols <? length L then cols else length L).
  assert (Hlen : (len = cols /\ cols < length L) \/ (len = length L /\ length L <= cols))
    by (subst len; destruct (Nat.ltb_spec cols (length L)); lia).
  rewrite (status_pad_spec R (cols - len) cols len cols) by lia.
  assert (HfL : firstn len L = firstn cols L)
    by (destruct Hlen as [[-> _]|[-> Hle]];
        [reflexivity|rewrite firstn_all2, firstn_all2 by lia; reflexivity]).
  destruct (Nat.leb_spec (length R) (cols - len)) as [HR|HR].
  - exists (firstn len L ++ repeat " "%char (cols - len - length R) ++ R).
    split; [rewrite <- !app_assoc; reflexivity|]. split; [|split].
    + rewrite !length_app, repeat_length, length_firstn. lia.
    + intros Hfit. replace len with (length L) in * by lia.
      rewrite firstn_all. repeat f_equal. all: lia.
    + intros Hov.
      assert (HR0 : R = []) by (apply length_zero_iff_nil; lia).
      rewrite HR0, HfL. cbn [length]. rewrite app_nil_r.
      replace (cols - len - 0) with 0 by lia. replace (cols - length L) with 0 by lia.
      reflexivity.
  - exists (firstn len L ++ repeat " "%char (cols - len)).
    split; [rewrite <- !app_assoc; reflexivity|]. split; [|split].
    + rewrite !length_app, repeat_length, length_firstn. lia.
    + intros Hfit. lia.
    + intros _. rewrite HfL. replace (cols - len) with (cols - length L) by lia. reflexivity.
Qed.

Lemma strip_esc_seq ds l rest :
  Forall (fun c => is_letter c = false) ds -> is_letter l = true ->
  strip_esc true (ds ++ l :: rest) = strip_esc false rest.
Proof.
  intros Hds Hl. induction Hds as [|d ds Hd _ IH]; cbn [app strip_esc].
  - rewrite Hl. reflexivity.
  - rewrite Hd. exact IH.
Qed.

Lemma digits_fuel_no_letter f n acc :
  Forall (fun c => is_letter c = false) acc ->
  Forall (fun c => is_letter c = false) (digits_fuel f n acc).
Proof.
  revert n acc; induction f as [|f IH]; intros n acc Hacc; cbn [digits_fuel]; [exact Hacc|].
  assert (Hd : is_letter (ascii_of_nat (48 + n mod 10)) = false).
  { unfold is_letter. rewrite nat_ascii_embedding
      by (pose proof (Nat.mod_upper_bound n 10); lia).
    pose proof (Nat.mod_upper_bound n 10 ltac:(lia)).
    apply orb_false_iff; split; apply andb_false_iff; left; apply Nat.leb_gt; lia. }
  destruct (n <? 10); [constructor; assumption|]. apply IH. constructor; assumption.
Qed.

Lemma strip_esc_color col rest :
  strip_esc false (esc_color col ++ rest) = strip_esc false rest.
Proof.
  unfold esc_color. cbn [app]. rewrite <- !app_assoc.
  transitivity (strip_esc true (fmt_int col ++ "m"%char :: rest)); [reflexivity|].
  apply strip_esc_seq; [|reflexivity].
  apply digits_fuel_no_letter. constructor.
Qed.

Lemma esc_is_cntrl c : Ascii.eqb c "027"%char = true -> char_iscntrl c = true.
Proof. intros H. apply Ascii.eqb_eq in H. subst c. reflexivity. Qed.

Lemma cntrl_sym_not_esc c : Ascii.eqb (cntrl_sym c) "027"%char = false.
Proof.
  unfold cntrl_sym. destruct (Nat.leb_spec (nat_of_ascii c) 26) as [H|H]; [|reflexivity].
  apply Ascii.eqb_neq. intros He.
  apply (f_equal nat_of_ascii) in He. rewrite nat_ascii_embedding in He by lia.
  cbn in He. lia.
Qed.

Lemma strip_inverse_on rest : strip_esc false (("027"%char :: s2l "[7m") ++ rest) = strip_esc false rest.
Proof. reflexivity. Qed.

Lemma strip_inverse_off rest : strip_esc false ("027"%char :: s2l "[m" ++ rest) = strip_esc false rest.
Proof. reflexivity. Qed.

Lemma strip_default_color rest : strip_esc false ("027"%char :: s2l "[39m" ++ rest) = strip_esc false rest.
Proof. reflexivity. Qed.

Lemma strip_char c rest :
  Ascii.eqb c "027"%char = false -> strip_esc false (c :: rest) = c :: strip_esc false rest.
Proof. intros H. cbn [strip_esc]. rewrite H. reflexivity. Qed.

Lemma strip_draw_chars cs hs cur rest :
  strip_esc false (draw_chars cs hs cur ++ rest) = map shown cs ++ strip_esc false rest.
Proof.
  revert hs cur; induction cs as [|c cs IH]; intros hs cur; [reflexivity|].
  cbn [draw_chars map]. unfold shown at 1.
  destruct (char_iscntrl c) eqn:Hc.
  - rewrite <- !app_assoc, strip_inverse_on. cbn [app]. rewrite strip_char by apply cntrl_sym_not_esc.
    cbn [app]. f_equal. rewrite strip_inverse_off.
    destruct cur as [col|]; cbn [app].
    + rewrite strip_esc_color. apply IH.
    + apply IH.
  - assert (Hne : Ascii.eqb c "027"%char = false)
      by (destruct (Ascii.eqb c "027"%char) eqn:He; [rewrite (esc_is_cntrl _ He) in Hc|]; congruence).
    destruct (hl_eqb (hd HL_NORMAL hs) HL_NORMAL).
    + destruct cur; rewrite <- ?app_assoc; cbn [app]; rewrite ?strip_default_color;
        rewrite strip_char by exact Hne; f_equal; apply IH.
    + destruct cur as [col|]; [destruct (col =? _)|]; rewrite <- ?app_assoc;
        rewrite ?strip_esc_color; cbn [app]; rewrite strip_char by exact Hne; f_equal; apply IH.
Qed.

Lemma strip_plain w rest :
  Forall (fun c => Ascii.eqb c "027"%char = false) w ->
  strip_esc false (w ++ rest) = w ++ strip_esc false rest.
Proof.
  induction 1 as [|c w Hc _ IH]; [reflexivity|]. cbn [app strip_esc]. rewrite Hc. f_equal. exact IH.
Qed.

Lemma Forall_firstn' {X} (P : X -> Prop) n l : Forall P l -> Forall P (firstn n l).
Proof.
  revert l; induction n as [|n IH]; intros [|x l] H; cbn; try constructor.
  - inversion H; assumption.
  - apply IH. inversion H; assumption.
Qed.

Lemma draw_welcome_plain sc : Forall (fun c => Ascii.eqb c "027"%char = false) (draw_welcome sc).
Proof.
  unfold draw_welcome. apply Forall_app. split.
  - destruct (Nat.eqb _ 0); [constructor|]. constructor; [reflexivity|].
    apply Forall_forall. intros x Hx. apply repeat_spec in Hx. subst x. reflexivity.
  - apply Forall_firstn'. unfold welcome_msg, KILO_VERSION. cbn. repeat constructor.
Qed.

Lemma draw_welcome_length sc : length (draw_welcome sc) <= sc.
Proof.
  unfold draw_welcome.
  set (wl := if sc <? length welcome_msg then sc else length welcome_msg).
  assert (Hwl : wl <= sc /\ wl <= length welcome_msg)
    by (subst wl; destruct (Nat.ltb_spec sc (length welcome_msg)); lia).
  rewrite length_app, length_firstn.
  assert (Hp : 2 * ((sc - wl) / 2) <= sc - wl) by apply Nat.Div0.mul_div_le.
  destruct (Nat.eqb_spec ((sc - wl) / 2) 0) as [H0|H0]; cbn [length];
    rewrite ?repeat_length; lia.
Qed.

Lemma firstn_visible sc co (r : list ascii) :
  firstn (if sc <? length r - co then sc else length r - co) (skipn co r) = firstn sc (skipn co r).
Proof.
  destruct (Nat.ltb_spec sc (length r - co)); [reflexivity|].
  rewrite !firstn_all2 by (rewrite length_skipn; lia). reflexivity.
Qed.

Lemma strip_draw_line sr sc E y rest :
  strip_esc false ((draw_row sr sc E y ++ ("027"%char :: s2l "[K") ++ s2l (CR ++ LF)%string) ++ rest)
  = ((if y + rowoff E <? numrows E
      then map shown (firstn sc (skipn (coloff E) (render (row_at E (y + rowoff E)))))
      else if (numrows E =? 0) && (y =? sr / 3) then draw_welcome sc else ["~"%char])
     ++ s2l (CR ++ LF)%string) ++ strip_esc false rest.
Proof.
  unfold draw_row. rewrite <- !app_assoc.
  destruct (Nat.ltb_spec (y + rowoff E) (numrows E)) as [Hlt|Hge].
  - replace (numrows E <=? y + rowoff E) with false by (symmetry; apply Nat.leb_gt; lia).
    rewrite <- !app_assoc, strip_draw_chars, firstn_visible. rewrite <- ?app_assoc. f_equal.
  - replace (numrows E <=? y + rowoff E) with true by (symmetry; apply Nat.leb_le; lia).
    destruct ((numrows E =? 0) && (y =? sr / 3)).
    + rewrite strip_plain by apply draw_welcome_plain. rewrite <- ?app_assoc. f_equal.
    + reflexivity.
Qed.

(** What the text area shows: stripped of its escape sequences, the output of
    [editorDrawRows] is one line per screen row, each ended by "\r\n"; a
    screen row over a file row shows the render of that row from [coloff]
    on, cut to [screencols] characters, with each control character shown as
    ['@' + c] (or ['?'] past 26); a screen row past the last file row shows
    "~", except on an empty file the row at a third of the screen, which
    shows the centred welcome message, at most [screencols] wide. *)
Theorem editorDrawRows_visible sr sc E :
  strip_esc false (editorDrawRows sr sc E)
  = concat (map (fun y =>
      (if y + rowoff E <? numrows E
       then map shown (firstn sc (skipn (coloff E) (render (row_at E (y + rowoff E)))))
       else if (numrows E =? 0) && (y =? sr / 3) then draw_welcome sc else ["~"%char])
      ++ s2l (CR ++ LF)%string) (seq 0 sr)) /\
  length (draw_welcome sc) <= sc.
Proof.
  split; [|apply draw_welcome_length].
  unfold editorDrawRows. generalize (seq 0 sr) as ys. intros ys.
  induction ys as [|y ys IH]; [reflexivity|].
  cbn [map concat]. rewrite strip_draw_line, IH. reflexivity.
Qed.

Lemma move_frame E key :
  numrows (editorMoveCursor E key) = numrows E /\ row (editorMoveCursor E key) = row E /\
  chars_of (editorMoveCursor E key) = chars_of E.
Proof.
  unfold editorMoveCursor.
  repeat match goal with |- context [match ?m with pair _ _ => _ end] => destruct m end.
  repeat split.
Qed.

Lemma move_clamp E key :
  let E' := editorMoveCursor E key in
  cx E' <= (if cy E' <? numrows E' then length (chars (row_at E' (cy E'))) else 0).
Proof.
  unfold editorMoveCursor. cbn zeta.
  repeat match goal with |- context [match ?m with pair _ _ => _ end] => destruct m as [x y] end.
  unfold with_cursor, row_at. cbn [cx cy numrows row].
  destruct (y <? numrows E); destruct (_ <? x) eqn:Hl; bool_facts; lia.
Qed.

Lemma move_up_cy E : cy (editorMoveCursor E ARROW_UP) = cy E - 1.
Proof.
  unfold editorMoveCursor. cbn -[row_at Nat.ltb Nat.eqb negb].
  destruct (Nat.eqb_spec (cy E) 0) as [H|H]; cbn [negb]; cbn; lia.
Qed.

Lemma move_down_cy E :
  cy (editorMoveCursor E ARROW_DOWN) = if cy E <? numrows E then S (cy E) else cy E.
Proof.
  unfold editorMoveCursor. cbn -[row_at Nat.ltb Nat.eqb negb].
  destruct (cy E <? numrows E); reflexivity.
Qed.

Lemma iter_move_frame n dir E :
  let E' := Nat.iter n (fun E' => editorMoveCursor E' dir) E in
  numrows E' = numrows E /\ chars_of E' = chars_of E.
Proof.
  induction n as [|n IH]; [split; reflexivity|]. cbn zeta in *.
  change (Nat.iter (S n) ?f E) with (f (Nat.iter n f E)); cbv beta.
  destruct (move_frame (Nat.iter n (fun E' => editorMoveCursor E' dir) E) dir) as (H1 & _ & H2).
  rewrite H1, H2. exact IH.
Qed.

Lemma iter_up_cy n E : cy (Nat.iter n (fun E' => editorMoveCursor E' ARROW_UP) E) = cy E - n.
Proof.
  induction n as [|n IH]; [cbn; lia|].
  change (Nat.iter (S n) ?f E) with (f (Nat.iter n f E)); cbv beta. rewrite move_up_cy, IH. lia.
Qed.

Lemma iter_down_cy n E :
  cy E <= numrows E ->
  cy (Nat.iter n (fun E' => editorMoveCursor E' ARROW_DOWN) E) = Nat.min (numrows E) (cy E + n).
Proof.
  intros Hy. induction n as [|n IH]; [cbn; lia|].
  change (Nat.iter (S n) ?f E) with (f (Nat.iter n f E)); cbv beta.
  rewrite move_down_cy, IH, (proj1 (iter_move_frame n ARROW_DOWN E)).
  destruct (Nat.ltb_spec (Nat.min (numrows E) (cy E + n)) (numrows E)); lia.
Qed.

Lemma iter_clamp n dir E :
  let E' := Nat.iter (S n) (fun E' => editorMoveCursor E' dir) E in
  cx E' <= (if cy E' <? numrows E' then length (chars (row_at E' (cy E'))) else 0).
Proof. cbn zeta. change (Nat.iter (S n) ?f E) with (f (Nat.iter n f E)); cbv beta. apply move_clamp. Qed.

(** Page Up puts the cursor [screenrows] lines above the top line of the
    screen (on the first line if there are not so many), Page Down
    [2 * screenrows - 1] lines below it (on the line past the end if there are
    not so many); the column is cut to the length of the line reached, the
    text is unchanged, and when the top line of the screen is in the file
    the cursor ends on a valid position. *)
Theorem page_up_down sr sc sys qt fs E ks :
  0 < sr ->
  (exists E', editorProcessKeypress sr sc sys qt fs E (PAGE_UP :: ks) = KP_next KILO_QUIT_TIMES fs E' ks /\
     cy E' = rowoff E - sr /\ chars_of E' = chars_of E /\ numrows E' = numrows E /\
     (rowoff E <= numrows E -> cursor_ok E')) /\
  (exists E', editorProcessKeypress sr sc sys qt fs E (PAGE_DOWN :: ks) = KP_next KILO_QUIT_TIMES fs E' ks /\
     cy E' = Nat.min (numrows E) (rowoff E + 2 * sr - 1) /\ chars_of E' = chars_of E /\
     numrows E' = numrows E /\ cursor_ok E').
Proof.
  intros Hsr. destruct sr as [|n]; [lia|].
  split.
  - set (E1 := with_cursor E (cx E) (rowoff E)).
    exists (Nat.iter (S n) (fun E' => editorMoveCursor E' ARROW_UP) E1). split; [reflexivity|].
    destruct (iter_move_frame (S n) ARROW_UP E1) as [Hn Hc].
    pose proof (iter_clamp n ARROW_UP E1) as Hx. cbn zeta in Hx.
    rewrite iter_up_cy. cbn [cy E1 with_cursor]. split; [reflexivity|].
    rewrite Hn, Hc. split; [reflexivity|]. split; [reflexivity|].
    intros Hro. unfold cursor_ok. rewrite iter_up_cy in *. rewrite Hn in *.
    cbn [cy E1 with_cursor numrows] in *. split; [lia|exact Hx].
  - set (y := rowoff E + S n - 1).
    set (E1 := with_cursor E (cx E) (if numrows E <? y then numrows E else y)).
    exists (Nat.iter (S n) (fun E' => editorMoveCursor E' ARROW_DOWN) E1). split; [reflexivity|].
    destruct (iter_move_frame (S n) ARROW_DOWN E1) as [Hn Hc].
    pose proof (iter_clamp n ARROW_DOWN E1) as Hx. cbn zeta in Hx.
    assert (Hy1 : cy E1 <= numrows E1)
      by (subst E1; unfold with_cursor; cbn [cy numrows]; destruct (Nat.ltb_spec (numrows E) y); lia).
    rewrite (iter_down_cy _ _ Hy1) in *. rewrite Hn in *.
    split; [subst E1; unfold with_cursor; cbn [cy numrows];
            destruct (Nat.ltb_spec (numrows E) y); subst y; lia|].
    rewrite Hc. split; [reflexivity|]. split; [reflexivity|].
    unfold cursor_ok. rewrite iter_down_cy, Hn by exact Hy1. split; [lia|exact Hx].
Qed.

(* ------------------------------------------------------------------ *)
(** ** Instances of the properties on concrete inputs *)

Lemma editorMoveCursor_keeps_cursor_valid_witness :
  cy hello_doc <= numrows hello_doc /\
  (let E' := editorMoveCursor hello_doc ARROW_RIGHT in
   cursor_ok E' /\ numrows E' = numrows hello_doc /\ row E' = row hello_doc).
Proof.
  assert (H : cy hello_doc <= numrows hello_doc) by (vm_compute; lia).
  split; [exact H|]. exact (editorMoveCursor_keeps_cursor_valid hello_doc ARROW_RIGHT H).
Defined.

Lemma arrow_left_right_inverse_witness :
  cursor_ok hello_doc /\
  (let E' := editorMoveCursor (editorMoveCursor hello_doc ARROW_RIGHT) ARROW_LEFT in
   cx E' = cx hello_doc /\ cy E' = cy hello_doc).
Proof.
  assert (H : cursor_ok hello_doc) by (unfold cursor_ok; vm_compute; split; lia).
  split; [exact H|].
  exact (proj1 (arrow_left_right_inverse hello_doc H) ltac:(vm_compute; lia)).
Defined.

Lemma editorScroll_cursor_visible_witness :
  0 < 24 /\ 0 < 80 /\
  (let '(rx, E') := editorScroll 24 80 hello_doc in
   E' = with_view hello_doc (cx hello_doc) (cy hello_doc) (rowoff E') (coloff E') /\
   rowoff E' <= cy hello_doc < rowoff E' + 24 /\ coloff E' <= rx < coloff E' + 80 /\
   (rowoff hello_doc <= cy hello_doc < rowoff hello_doc + 24 -> rowoff E' = rowoff hello_doc) /\
   (coloff hello_doc <= rx < coloff hello_doc + 80 -> coloff E' = coloff hello_doc)).
Proof.
  split; [lia|]. split; [lia|].
  exact (editorScroll_cursor_visible 24 80 hello_doc ltac:(lia) ltac:(lia)).
Defined.

Lemma editorInsertChar_inserts_witness :
  length (row hello_doc) = numrows hello_doc /\
  (cy hello_doc = numrows hello_doc ->
     core (editorInsertChar hello_doc "X"%char)
     = (S (cx hello_doc), cy hello_doc, S (numrows hello_doc), S (S (dirty hello_doc)),
        chars_of hello_doc ++ [["X"%char]])) /\
  (forall pre r post,
     chars_of hello_doc = pre ++ r :: post -> cy hello_doc = length pre ->
     cx hello_doc <= length r ->
     core (editorInsertChar hello_doc "X"%char)
     = (S (cx hello_doc), cy hello_doc, numrows hello_doc, S (dirty hello_doc),
        pre ++ (firstn (cx hello_doc) r ++ "X"%char :: skipn (cx hello_doc) r) :: post)).
Proof.
  assert (H : length (row hello_doc) = numrows hello_doc) by (vm_compute; reflexivity).
  split; [exact H|]. exact (editorInsertChar_inserts hello_doc "X"%char H).
Defined.

Lemma type_then_backspace_witness :
  length (row hello_doc) = numrows hello_doc /\ cursor_ok hello_doc /\
  (let E' := editorDelChar (editorInsertChar hello_doc "X"%char) in
   cx E' = cx hello_doc /\ cy E' = cy hello_doc /\
   (cy hello_doc < numrows hello_doc ->
      chars_of E' = chars_of hello_doc /\ numrows E' = numrows hello_doc) /\
   (cy hello_doc = numrows hello_doc ->
      chars_of E' = chars_of hello_doc ++ [[]] /\ numrows E' = S (numrows hello_doc))).
Proof.
  assert (H1 : length (row hello_doc) = numrows hello_doc) by (vm_compute; reflexivity).
  assert (H2 : cursor_ok hello_doc) by (unfold cursor_ok; vm_compute; split; lia).
  split; [exact H1|]. split; [exact H2|].
  exact (type_then_backspace hello_doc "X"%char H1 H2).
Defined.

Lemma del_key_effect_witness :
  length (row hello_doc) = numrows hello_doc /\
  chars_of hello_doc = [] ++ s2l "hello" :: [] /\ cy hello_doc = length (@nil (list ascii)) /\
  cx hello_doc <= length (s2l "hello") /\
  exists E',
    editorProcessKeypress 24 80 sys_ok KILO_QUIT_TIMES find_init hello_doc [DEL_KEY]
    = KP_next KILO_QUIT_TIMES find_init E' [] /\
    (cx hello_doc < length (s2l "hello") ->
       core E' = (cx hello_doc, cy hello_doc, numrows hello_doc, S (dirty hello_doc),
                  [] ++ (firstn (cx hello_doc) (s2l "hello")
                         ++ skipn (S (cx hello_doc)) (s2l "hello")) :: [])) /\
    (forall r' post', cx hello_doc = length (s2l "hello") -> @nil (list ascii) = r' :: post' ->
       core E' = (cx hello_doc, cy hello_doc, numrows hello_doc - 1, S (S (dirty hello_doc)),
                  [] ++ (s2l "hello" ++ r') :: post')) /\
    (cx hello_doc = length (s2l "hello") -> @nil (list ascii) = [] ->
       core E' = (0, S (cy hello_doc), numrows hello_doc, dirty hello_doc, chars_of hello_doc)).
Proof.
  assert (H1 : length (row hello_doc) = numrows hello_doc) by (vm_compute; reflexivity).
  assert (H2 : chars_of hello_doc = [] ++ s2l "hello" :: []) by (vm_compute; reflexivity).
  assert (H3 : cy hello_doc = length (@nil (list ascii))) by (vm_compute; reflexivity).
  assert (H4 : cx hello_doc <= length (s2l "hello")) by (vm_compute; lia).
  split; [exact H1|]. split; [exact H2|]. split; [exact H3|]. split; [exact H4|].
  exact (del_key_effect 24 80 sys_ok KILO_QUIT_TIMES find_init hello_doc [] (s2l "hello") [] []
           H1 H2 H3 H4).
Defined.

Lemma plain_byte_inserted_witness :
  ~ In (nat_of_ascii "a"%char) [27; 13; 17; 19; 6; 8; 127; 12] /\
  exists k,
    editorReadKey ["a"%char] = Some (k, []) /\ (-128 <= k < 128)%Z /\
    editorProcessKeypress 24 80 sys_ok KILO_QUIT_TIMES find_init hello_doc [k]
    = KP_next KILO_QUIT_TIMES find_init (editorInsertChar hello_doc "a"%char) [].
Proof.
  assert (H : ~ In (nat_of_ascii "a"%char) [27; 13; 17; 19; 6; 8; 127; 12]).
  { intros Hin. cbn in Hin. repeat (destruct Hin as [Hin|Hin]; [discriminate|]). exact Hin. }
  split; [exact H|].
  exact (plain_byte_inserted 24 80 sys_ok KILO_QUIT_TIMES find_init hello_doc "a"%char [] [] H).
Defined.

Lemma editorPrompt_result_witness :
  Forall (fun k => (-128 <= k)%Z) [97%Z; 13%Z] /\
  editorPrompt (A := unit) 24 80 [] [] None [97%Z; 13%Z] tt hello_doc
  = Prompt_done (Some ["a"%char]) tt
      (match editorPrompt (A := unit) 24 80 [] [] None [97%Z; 13%Z] tt hello_doc with
       | Prompt_done _ _ E _ => E
       | Prompt_waiting _ _ E => E
       end) [] /\
  exists typed k, [97%Z; 13%Z] = typed ++ k :: [] /\ ~ In KEY_ESC typed /\
    ((k = KEY_ESC /\ Some ["a"%char] = None) \/
     (k = KEY_ENTER /\ exists b, Some ["a"%char] = Some b /\ b <> [] /\ no_control b)).
Proof.
  assert (H1 : Forall (fun k => (-128 <= k)%Z) [97%Z; 13%Z])
    by (repeat constructor; discriminate).
  assert (H2 : editorPrompt (A := unit) 24 80 [] [] None [97%Z; 13%Z] tt hello_doc
    = Prompt_done (Some ["a"%char]) tt
      (match editorPrompt (A := unit) 24 80 [] [] None [97%Z; 13%Z] tt hello_doc with
       | Prompt_done _ _ E _ => E
       | Prompt_waiting _ _ E => E
       end) []) by (vm_compute; reflexivity).
  split; [exact H1|]. split; [exact H2|].
  exact (editorPrompt_result unit 24 80 [] [] None [97%Z; 13%Z] tt hello_doc _ _ _ _ H1 H2).
Defined.

Lemma editorFind_keeps_document_witness :
  let r := editorFind 24 80 find_init search_doc [102%Z; 111%Z; 27%Z] in
  let E' := match r with Prompt_done _ _ E _ => E | Prompt_waiting _ _ E => E end in
  let fs' := match r with Prompt_done _ fs _ _ => fs | Prompt_waiting _ fs _ => fs end in
  saved_hl find_init = None /\
  r = Prompt_done None fs' E' [] /\
  (row E' = row search_doc /\ numrows E' = numrows search_doc /\
   dirty E' = dirty search_doc /\ filename E' = filename search_doc /\
   syntax E' = syntax search_doc /\ statusmsg E' = [] /\ saved_hl fs' = None /\
   (@None (list ascii) = None -> E' = with_status search_doc [])).
Proof.
  intros r E' fs'.
  assert (H1 : saved_hl find_init = None) by reflexivity.
  assert (H2 : r = Prompt_done None fs' E' []) by (subst r E' fs'; vm_compute; reflexivity).
  split; [exact H1|]. split; [exact H2|].
  exact (editorFind_keeps_document 24 80 find_init search_doc [102%Z; 111%Z; 27%Z]
           None fs' E' [] H1 H2).
Defined.

Lemma save_then_open_round_trip_witness :
  length (row two_line_doc) = numrows two_line_doc /\
  Forall (fun cs => ~ In "010"%char cs /\ forall pre, cs <> pre ++ ["013"%char])
    (chars_of two_line_doc) /\
  (let E' := editorOpen (s2l "copy.txt") (fst (editorRowsToString two_line_doc)) initEditor in
   chars_of E' = chars_of two_line_doc /\ numrows E' = numrows two_line_doc /\
   dirty E' = 0 /\ filename E' = Some (s2l "copy.txt")).
Proof.
  assert (H1 : length (row two_line_doc) = numrows two_line_doc) by (vm_compute; reflexivity).
  assert (H2 : Forall (fun cs => ~ In "010"%char cs /\ forall pre, cs <> pre ++ ["013"%char])
                 (chars_of two_line_doc)).
  { change (chars_of two_line_doc) with [s2l "hello"; s2l "world"].
    repeat apply Forall_cons; try apply Forall_nil;
      (split;
       [ intros Hin; cbn in Hin; repeat (destruct Hin as [Hin|Hin]; [discriminate|]); exact Hin
       | intros pre Hp; apply (f_equal (fun l => last l "a"%char)) in Hp;
         rewrite last_last in Hp; vm_compute in Hp; discriminate ]). }
  split; [exact H1|]. split; [exact H2|].
  exact (save_then_open_round_trip (s2l "copy.txt") two_line_doc H1 H2).
Defined.

Lemma main_loop_keeps_doc_wf_witness :
  let r := main_loop 24 80 sys_ok 2 KILO_QUIT_TIMES find_init hello_doc [120%Z; 13%Z] in
  let E' := match r with KP_next _ _ E _ => E | _ => initEditor end in
  doc_wf hello_doc /\ r = KP_next KILO_QUIT_TIMES find_init E' [] /\ doc_wf E'.
Proof.
  intros r E'.
  assert (H1 : doc_wf hello_doc) by (apply doc_wf_seq; vm_compute; reflexivity).
  assert (H2 : r = KP_next KILO_QUIT_TIMES find_init E' []) by (subst r E'; vm_compute; reflexivity).
  split; [exact H1|]. split; [exact H2|].
  exact (main_loop_keeps_doc_wf 24 80 sys_ok 2 KILO_QUIT_TIMES find_init hello_doc
           [120%Z; 13%Z] KILO_QUIT_TIMES find_init E' [] H1 H2).
Defined.

Lemma page_up_down_witness :
  0 < 24 /\
  (exists E', editorProcessKeypress 24 80 sys_ok KILO_QUIT_TIMES find_init hello_doc [PAGE_UP]
              = KP_next KILO_QUIT_TIMES find_init E' [] /\
     cy E' = rowoff hello_doc - 24 /\ chars_of E' = chars_of hello_doc /\
     numrows E' = numrows hello_doc /\ (rowoff hello_doc <= numrows hello_doc -> cursor_ok E')) /\
  (exists E', editorProcessKeypress 24 80 sys_ok KILO_QUIT_TIMES find_init hello_doc [PAGE_DOWN]
              = KP_next KILO_QUIT_TIMES find_init E' [] /\
     cy E' = Nat.min (numrows hello_doc) (rowoff hello_doc + 2 * 24 - 1) /\
     chars_of E' = chars_of hello_doc /\ numrows E' = numrows hello_doc /\ cursor_ok E').
Proof.
  split; [lia|].
  exact (page_up_down 24 80 sys_ok KILO_QUIT_TIMES find_init hello_doc [] ltac:(lia)).
Defined.
